(** * Mistral OCR tool: the input dispatcher and its callers

    A shallow embedding of [ocr/ocr_service.py], [utils/constants.py],
    [utils/exceptions.py], [utils/api_client.py], [api/app.py],
    [utils/file_handler.py], the command-line mode of [main.py] and
    [utils/logger.py].

    Python [str] values are modelled as [string], a character standing for a
    code point below 256; exceptions as a class tag plus the text [str(e)];
    the remote OCR service, the filesystem and the output directory as
    parameters of the development.  Calls of the logger return nothing.
    The logger they go to, [ocr_tool], writes to the console, and to a file
    only once the command line has named one: what it writes there is
    accounted for in [Main.run_cli_mode], which configures it, and left
    out of the other functions. *)

From Stdlib Require Import String Ascii List Arith Bool Lia ZArith.
From Stdlib Require DecimalString DecimalPos DecimalFacts.
Import ListNotations.
Open Scope string_scope.

(** ** Python string operations used by the sources *)

Module Py.

(** [s.startswith(p)] *)
Definition startswith (s p : string) : bool := String.prefix p s.

(** [s.endswith(x)]: some tail of [s] is [x]. *)
Fixpoint endswith (s x : string) : bool :=
  if String.eqb s x then true
  else match s with
       | EmptyString => false
       | String _ r => endswith r x
       end.

(** [x in s] on strings. *)
Fixpoint contains (s x : string) : bool :=
  if String.prefix x s then true
  else match s with
       | EmptyString => false
       | String _ r => contains r x
       end.

Definition lower_ascii (c : ascii) : ascii :=
  let n := nat_of_ascii c in
  if ((65 <=? n)%nat && (n <=? 90)%nat)%bool then ascii_of_nat (n + 32) else c.

(** [s.lower()] on the ASCII range. *)
Fixpoint lower (s : string) : string :=
  match s with
  | EmptyString => EmptyString
  | String c r => String (lower_ascii c) (lower r)
  end.

(** [any(f(x) for x in l)] *)
Definition any {A} (f : A -> bool) (l : list A) : bool := existsb f l.

Definition sep : ascii := "/"%char.

Fixpoint has_sep (s : string) : bool :=
  match s with
  | EmptyString => false
  | String c r => if Ascii.eqb c sep then true else has_sep r
  end.

(** [posixpath.join(a, b)] *)
Definition join (a b : string) : string :=
  if startswith b "/" then b
  else if String.eqb a "" || endswith a "/" then a ++ b
  else a ++ "/" ++ b.

(** [posixpath.basename(p)]: what follows the last separator. *)
Fixpoint basename (p : string) : string :=
  match p with
  | EmptyString => EmptyString
  | String c r =>
      if has_sep r then basename r
      else if Ascii.eqb c sep then r
      else p
  end.

End Py.

(** ** pathlib and posixpath, as the sources use them

    [pathlib.PurePosixPath]: the text, the name and the suffix of a path. *)
Module Pathlib.

Fixpoint split (s : string) : list string :=
  match s with
  | EmptyString => [EmptyString]
  | String c r =>
      if Ascii.eqb c Py.sep then EmptyString :: split r
      else match split r with
           | h :: t => String c h :: t
           | [] => [String c EmptyString]
           end
  end.

(** The components kept when a path is parsed: empty ones and [.] go. *)
Definition parts (p : string) : list string :=
  filter (fun c => negb (String.eqb c "") && negb (String.eqb c ".")) (split p).

Definition name (p : string) : string := last (parts p) EmptyString.

(** [s.rfind('.')] *)
Fixpoint rfind_dot (s : string) : option nat :=
  match s with
  | EmptyString => None
  | String c r =>
      match rfind_dot r with
      | Some i => Some (S i)
      | None => if Ascii.eqb c "." then Some 0 else None
      end
  end.

(** [PurePath.suffix]: from the last dot of the name, unless that dot is
    the first or the last character. *)
Definition suffix (p : string) : string :=
  let n := name p in
  match rfind_dot n with
  | Some i =>
      if ((0 <? i)%nat && (i <? String.length n - 1)%nat)%bool
      then substring i (String.length n - i) n
      else EmptyString
  | None => EmptyString
  end.

(** The root kept when a path is parsed: two leading slashes are kept,
    three or more count as one. *)
Definition root (p : string) : string :=
  if Py.startswith p "///" then "/"
  else if Py.startswith p "//" then "//"
  else if Py.startswith p "/" then "/"
  else EmptyString.

(** ["/".join(l)] *)
Fixpoint join_parts (l : list string) : string :=
  match l with
  | [] => EmptyString
  | [x] => x
  | x :: rest => x ++ "/" ++ join_parts rest
  end.

(** [str(Path(p))]: the root and the components kept, or [.] when there is
    neither. *)
Definition str (p : string) : string :=
  let text := root p ++ join_parts (parts p) in
  if String.eqb text "" then "." else text.

End Pathlib.

Module Posixpath.

(** The loop of [normpath] over the components, [new_comps] being kept in
    reverse. *)
Fixpoint collapse (rooted : bool) (comps new_comps : list string) : list string :=
  match comps with
  | [] => rev new_comps
  | comp :: rest =>
      if String.eqb comp "" || String.eqb comp "." then collapse rooted rest new_comps
      else if negb (String.eqb comp "..")
              || (negb rooted && match new_comps with [] => true | _ => false end)
              || match new_comps with
                 | last :: _ => String.eqb last ".."
                 | [] => false
                 end
      then collapse rooted rest (comp :: new_comps)
      else collapse rooted rest (tl new_comps)
  end.

(** [os.path.normpath(path)] *)
Definition normpath (path : string) : string :=
  if String.eqb path "" then "."
  else
    let initial_slashes := Pathlib.root path in
    let text :=
      initial_slashes
      ++ Pathlib.join_parts
           (collapse (negb (String.eqb initial_slashes "")) (Pathlib.split path) []) in
    if String.eqb text "" then "." else text.

(** [os.path.abspath(path)], [cwd] being what [os.getcwd()] answers. *)
Definition abspath (cwd path : string) : string :=
  normpath (if Py.startswith path "/" then path else Py.join cwd path).

End Posixpath.

(** ** utils/exceptions.py *)

Inductive exn_class : Type :=
| OCRToolError
| APIError
| ConfigurationError
| FileError
| UnsupportedFileTypeError
| InvalidInputError
| Builtin (name : string).   (* any other subclass of Exception *)

Record exn : Type := Exn { class_of : exn_class; str : string }.

(** [isinstance(e, OCRToolError)] *)
Definition is_OCRToolError (e : exn) : bool :=
  match class_of e with
  | Builtin _ => false
  | _ => true
  end.

(** [isinstance(e, FileError)]; UnsupportedFileTypeError derives from it. *)
Definition is_FileError (e : exn) : bool :=
  match class_of e with
  | FileError | UnsupportedFileTypeError => true
  | _ => false
  end.

Definition is_InvalidInputError (e : exn) : bool :=
  match class_of e with
  | InvalidInputError => true
  | _ => false
  end.

Definition is_builtin (name : string) (e : exn) : bool :=
  match class_of e with
  | Builtin n => String.eqb n name
  | _ => false
  end.

(** The constructors as the sources call them.  [status_code] of APIError
    is left at its default [None] by every caller. *)
Definition new_OCRToolError (message : string) : exn := Exn OCRToolError message.
Definition new_APIError (message : string) : exn := Exn APIError message.
Definition new_InvalidInputError (message : string) : exn :=
  Exn InvalidInputError message.

Definition with_path (message : string) (file_path : option string) : string :=
  match file_path with
  | Some p => if String.eqb p "" then message else message ++ " (Path: " ++ p ++ ")"
  | None => message
  end.

Definition new_FileError (message : string) (file_path : option string) : exn :=
  Exn FileError (with_path message file_path).
Definition new_UnsupportedFileTypeError (file_path : option string) : exn :=
  Exn UnsupportedFileTypeError (with_path "Unsupported file type" file_path).

(** ** utils/constants.py *)

Module OCRConstants.

Definition URL_PREFIXES : list string := ["http://"; "https://"].

Definition SUPPORTED_EXTENSIONS : list string :=
  [".pdf"; ".png"; ".jpg"; ".jpeg"; ".tiff"; ".tif"; ".bmp"].

Definition is_url (path : string) : bool :=
  Py.any (fun prefix => Py.startswith path prefix) URL_PREFIXES.

Definition is_supported_file (path : string) : bool :=
  Py.any (fun ext => Py.endswith (Py.lower path) ext) SUPPORTED_EXTENSIONS.

End OCRConstants.

(** ** Results, and computations that call the remote service *)

Inductive result (A : Type) : Type :=
| Ok (a : A)
| Raise (e : exn).
Arguments Ok {A} a.
Arguments Raise {A} e.

(** A computation over a world [W] (the state of the remote service and of
    whatever else the client object owns): it returns or raises, and leaves
    a new world. *)
Definition M (W A : Type) : Type := W -> result A * W.

Definition ret {W A} (a : A) : M W A := fun w => (Ok a, w).
Definition raise {W A} (e : exn) : M W A := fun w => (Raise e, w).
Definition bind {W A B} (c : M W A) (k : A -> M W B) : M W B :=
  fun w => match c w with
           | (Ok a, w') => k a w'
           | (Raise e, w') => (Raise e, w')
           end.
(** [try: c  except Exception as e: h e] *)
Definition try_except {W A} (c : M W A) (h : exn -> M W A) : M W A :=
  fun w => match c w with
           | (Ok a, w') => (Ok a, w')
           | (Raise e, w') => h e w'
           end.
Definition lift {W A} (r : result A) : M W A := fun w => (r, w).

Declare Scope py_scope.
Delimit Scope py_scope with py.
Notation "x <- c ;; k" := (bind c (fun x => k))
  (at level 100, c at next level, right associativity) : py_scope.
Open Scope py_scope.

(** ** The collaborators: filesystem and OCR client *)

(** What [os.path.isfile], [os.path.isdir] and [os.listdir] answer during
    one call of the dispatcher.  [os.listdir] answers the names of the
    entries, or raises OSError or one of its subclasses: the right injection
    holds the class name and the text. *)
Record FileSystem : Type := {
  isfile : string -> bool;
  isdir : string -> bool;
  listdir : string -> list string + string * string
}.

Definition os_error (err : string * string) : exn := Exn (Builtin (fst err)) (snd err).

(** The client object handed to [OCRService.__init__]: anything with a
    [process_document] method. *)
Record Client (W Response : Type) : Type := {
  process_document : string -> M W Response
}.
Arguments process_document {W Response} _ _ _.

(** Values stored in the dictionaries the service builds, and the
    dictionaries themselves, in insertion order. *)
Inductive pyval (Response : Type) : Type :=
| VStr (s : string)
| VObj (r : Response).
Arguments VStr {Response} s.
Arguments VObj {Response} r.

Definition dict (Response : Type) : Type := list (string * pyval Response).

Definition keys {Response} (d : dict Response) : list string := map fst d.

(** [d[k]] *)
Fixpoint getitem {Response} (d : dict Response) (k : string) : result (pyval Response) :=
  match d with
  | [] => Raise (Exn (Builtin "KeyError") ("'" ++ k ++ "'"))
  | (k', v) :: rest => if String.eqb k' k then Ok v else getitem rest k
  end.

(** ** ocr/ocr_service.py *)

Module OCRService.
Section Service.
Context {W Response : Type}.
Variable fs : FileSystem.
Variable client : Client W Response.

(** The literal [{"file": label, "response": ocr_response}]. *)
Definition outcome (label : string) (ocr_response : Response) : dict Response :=
  [("file", VStr label); ("response", VObj ocr_response)].

Definition _process_url (url : string) : M W (list (dict Response)) :=
  ocr_response <- process_document client url ;;
  ret [outcome url ocr_response].

Definition _process_file (file_path : string) : M W (list (dict Response)) :=
  ocr_response <- process_document client file_path ;;
  ret [outcome file_path ocr_response].

Definition _get_files_in_directory (directory_path : string) : result (list string) :=
  match listdir fs directory_path with
  | inl names =>
      Ok (map (fun f => Py.join directory_path f)
            (filter (fun f => isfile fs (Py.join directory_path f)) names))
  | inr err => Raise (os_error err)
  end.

Definition _filter_supported_files (files : list string) : list string :=
  filter OCRConstants.is_supported_file files.

(** The [for file_path in supported_files] loop, [ocr_responses] being the
    list built so far.  Only [OCRToolError] is caught in the body. *)
Fixpoint for_each_file (supported_files : list string)
    (ocr_responses : list (dict Response)) : M W (list (dict Response)) :=
  match supported_files with
  | [] => ret ocr_responses
  | file_path :: rest =>
      fun w =>
        match process_document client file_path w with
        | (Ok ocr_response, w') =>
            for_each_file rest
              (ocr_responses ++ [outcome (Py.basename file_path) ocr_response]) w'
        | (Raise e, w') =>
            if is_OCRToolError e then for_each_file rest ocr_responses w'
            else (Raise e, w')
        end
  end.

Definition _process_directory (directory_path : string) : M W (list (dict Response)) :=
  files <- lift (_get_files_in_directory directory_path) ;;
  let supported_files := _filter_supported_files files in
  match supported_files with
  | [] => ret []
  | _ :: _ => for_each_file supported_files []
  end.

Definition invalid_input_message (input_path_str : string) : string :=
  "Invalid input path: " ++ input_path_str ++ ". Must be a file, directory, or URL.".

Definition unexpected_message (e : exn) : string :=
  "Unexpected error processing documents: " ++ str e.

Definition process_documents (input_path : string) : M W (list (dict Response)) :=
  let input_path_str := input_path in
  try_except
    (if OCRConstants.is_url input_path_str then _process_url input_path_str
     else if isfile fs input_path_str then _process_file input_path_str
     else if isdir fs input_path_str then _process_directory input_path_str
     else raise (new_InvalidInputError (invalid_input_message input_path_str)))
    (fun e =>
       if is_OCRToolError e then raise e
       else raise (new_OCRToolError (unexpected_message e))).

(** The classification step as the specification words it: the URL
    allow-list first, then existence as a file, then as a directory. *)
Inductive branch : Type := UrlBranch | FileBranch | DirectoryBranch | ErrorBranch.

Definition classify (input : string) : branch :=
  if OCRConstants.is_url input then UrlBranch
  else if isfile fs input then FileBranch
  else if isdir fs input then DirectoryBranch
  else ErrorBranch.

Definition run_branch (b : branch) (input : string) : M W (list (dict Response)) :=
  match b with
  | UrlBranch => _process_url input
  | FileBranch => _process_file input
  | DirectoryBranch => _process_directory input
  | ErrorBranch => raise (new_InvalidInputError (invalid_input_message input))
  end.

(** What the two [except] clauses make of a failure [e]. *)
Definition presented (e : exn) : exn :=
  if is_OCRToolError e then e else new_OCRToolError (unexpected_message e).

End Service.

(** What the calls of a run amount to: the OCR call made for each file of a
  list, one after the other, whatever each answers. *)
Section Outcomes.
Context {W Response : Type}.
Variable client : Client W Response.

Fixpoint call_each (files : list string) (w : W) : list (result Response) :=
  match files with
  | [] => []
  | file_path :: rest =>
      let (o, w') := process_document client file_path w in
      o :: call_each rest w'
  end.

Fixpoint world_after (files : list string) (w : W) : W :=
  match files with
  | [] => w
  | file_path :: rest => world_after rest (snd (process_document client file_path w))
  end.

Definition failed (o : result Response) : bool :=
  match o with Raise _ => true | Ok _ => false end.

(** A failure outside the OCRToolError family. *)
Definition unexpected (o : result Response) : bool :=
  match o with Raise e => negb (is_OCRToolError e) | Ok _ => false end.

(** The records of the files whose call answered, in order. *)
Fixpoint successes (files : list string) (outs : list (result Response))
  : list (dict Response) :=
  match files, outs with
  | file_path :: files', Ok r :: outs' =>
      outcome (Py.basename file_path) r :: successes files' outs'
  | _ :: files', Raise _ :: outs' => successes files' outs'
  | _, _ => []
  end.

(** The label of a record: its ["file"] entry. *)
Definition label (d : dict Response) : option string :=
  match getitem d "file" with
  | Ok (VStr s) => Some s
  | _ => None
  end.

End Outcomes.
End OCRService.

(** ** utils/api_client.py *)

Module MistralClient.

(** The [document] argument of the SDK's [ocr.process]. *)
Inductive document (FileId : Type) : Type :=
| document_url (url : string)
| file_id (id : FileId).
Arguments document_url {FileId} url.
Arguments file_id {FileId} id.

(** The mistralai SDK object: [ocr.process], and [files.upload] on the
    file opened for reading ([open] included, so it can raise
    FileNotFoundError or PermissionError); it answers the uploaded id. *)
Record Sdk (W Response FileId : Type) : Type := {
  ocr_process : document FileId -> M W Response;
  files_upload : string -> string -> string -> M W FileId
}.
Arguments ocr_process {W Response FileId} _ _ _.
Arguments files_upload {W Response FileId} _ _ _ _ _.

Definition OCR_PURPOSE : string := "ocr".

Section Client.
Context {W Response FileId : Type}.
Variable sdk : Sdk W Response FileId.

Definition upload (file_path_str : string) : M W FileId :=
  try_except
    (files_upload sdk file_path_str (Py.basename file_path_str) OCR_PURPOSE)
    (fun e =>
       if is_builtin "FileNotFoundError" e then
         raise (new_FileError ("File not found: " ++ file_path_str) (Some file_path_str))
       else if is_builtin "PermissionError" e then
         raise (new_FileError ("Permission denied: " ++ file_path_str) (Some file_path_str))
       else
         raise (new_FileError ("Error reading file: " ++ str e) (Some file_path_str))).

Definition process_document (file_path : string) : M W Response :=
  let file_path_str := file_path in
  try_except
    (if OCRConstants.is_url file_path_str then
       ocr_response <- ocr_process sdk (document_url file_path_str) ;;
       ret ocr_response
     else if negb (OCRConstants.is_supported_file file_path_str) then
       raise (new_UnsupportedFileTypeError (Some file_path_str))
     else
       uploaded_file <- upload file_path_str ;;
       ocr_response <- ocr_process sdk (file_id uploaded_file) ;;
       ret ocr_response)
    (fun e =>
       if is_FileError e then raise e
       else if Py.contains (str e) "Mistral API" then
         raise (new_APIError ("Mistral API error: " ++ str e))
       else
         raise (new_APIError ("Unexpected error: " ++ str e))).

Definition client : Client W Response := Build_Client W Response process_document.

End Client.
End MistralClient.

(** ** api/app.py and api/models.py: the batch endpoint *)

Module Api.

(** [urls] holds [str(url)] of each [HttpUrl] of the request. *)
Record OCRBatchRequest : Type := {
  urls : list string;
  include_images : bool
}.

(** The constraints of the request model: [min_items=1], [max_items=10],
    and each item an [HttpUrl].  That type belongs to the pydantic library:
    it admits the schemes http and https only, and the text of such a URL
    starts with one of the prefixes of [OCRConstants.is_url]. *)
Definition validate (request : OCRBatchRequest) : bool :=
  (1 <=? length (urls request))%nat && (length (urls request) <=? 10)%nat
  && forallb OCRConstants.is_url (urls request).

(** The response models: [file: str] and [response: Dict[str, Any]] for a
    record, a list of records and a list of strings for the batch. *)
Record OCRResponse (Response : Type) : Type := {
  file : string;
  response : Response
}.
Arguments file {Response} _.
Arguments response {Response} _.

Record OCRBatchResponse (Response : Type) : Type := {
  results : list (OCRResponse Response);
  failed_urls : list string
}.
Arguments results {Response} _.
Arguments failed_urls {Response} _.

Section Batch.
Context {W Response : Type}.
(** [ocr_service.process_documents], injected by [Depends]. *)
Variable process_documents : string -> M W (list (dict Response)).
(** What pydantic makes of a value given for a field of type
    [Dict[str, Any]]: the dictionary it keeps, or nothing when it refuses
    the value.  Which objects it takes for dictionaries is the library's
    affair. *)
Variable as_dict : Response -> option Response.
(** [str] of the ValidationError pydantic raises for a list of records. *)
Variable validation_text : list (dict Response) -> string.

(** The validation of one item of [results] against [OCRResponse]: the
    item is a dictionary, so its entries ["file"] and ["response"] are
    looked up, others are ignored; the first must be a string, the second
    a dictionary. *)
Definition validate_record (item : dict Response) : option (OCRResponse Response) :=
  match getitem item "file", getitem item "response" with
  | Ok (VStr label), Ok (VObj r) =>
      match as_dict r with
      | Some d => Some {| file := label; response := d |}
      | None => None
      end
  | _, _ => None
  end.

Fixpoint validate_records (items : list (dict Response))
  : option (list (OCRResponse Response)) :=
  match items with
  | [] => Some []
  | item :: rest =>
      match validate_record item, validate_records rest with
      | Some record, Some records => Some (record :: records)
      | _, _ => None
      end
  end.

(** [OCRBatchResponse(results=results, failed_urls=failed_urls)]: the
    constructor validates what it is given and raises when a record does
    not fit. *)
Definition new_OCRBatchResponse (results : list (dict Response)) (failed_urls : list string)
  : result (OCRBatchResponse Response) :=
  match validate_records results with
  | Some records => Ok (Build_OCRBatchResponse Response records failed_urls)
  | None => Raise (Exn (Builtin "ValidationError") (validation_text results))
  end.

(** One iteration of [for url in request.urls], on the two lists built
    so far. *)
Definition batch_step (url : string) (acc : list (dict Response) * list string)
  : M W (list (dict Response) * list string) :=
  let (results, failed_urls) := acc in
  try_except
    (ocr_responses <- process_documents url ;;
     match ocr_responses with
     | first :: _ => ret ((results ++ [first])%list, failed_urls)
     | [] => ret (results, (failed_urls ++ [url])%list)
     end)
    (fun e => ret (results, (failed_urls ++ [url])%list)).

Fixpoint batch_loop (urls : list string) (acc : list (dict Response) * list string)
  : M W (list (dict Response) * list string) :=
  match urls with
  | [] => ret acc
  | url :: rest => acc' <- batch_step url acc ;; batch_loop rest acc'
  end.

Definition process_batch (request : OCRBatchRequest) : M W (OCRBatchResponse Response) :=
  acc <- batch_loop (urls request) ([], []) ;;
  lift (new_OCRBatchResponse (fst acc) (snd acc)).

End Batch.

(** The two lists a batch amounts to, given the outcome of the OCR call of
  each URL: the records of the URLs whose call answered, and the URLs
  whose call raised. *)
Section Partition.
Context {Response : Type}.

Fixpoint answered (urls : list string) (outs : list (result Response))
  : list (dict Response) :=
  match urls, outs with
  | url :: urls', Ok r :: outs' => OCRService.outcome url r :: answered urls' outs'
  | _ :: urls', Raise _ :: outs' => answered urls' outs'
  | _, _ => []
  end.

Fixpoint refused (urls : list string) (outs : list (result Response)) : list string :=
  match urls, outs with
  | _ :: urls', Ok _ :: outs' => refused urls' outs'
  | url :: urls', Raise _ :: outs' => url :: refused urls' outs'
  | _, _ => []
  end.

End Partition.
End Api.

(** ** The json module of the Python library

    JSON values with integers for numbers (no float occurs in an OCR
    response), the encoder as [json.dump(..., indent=4)] runs it, and the
    decoder of [json.load]. *)

Module Json.

#[warnings="-register-all"]
Inductive value : Type :=
| Null
| Boolean (b : bool)
| Int (z : Z)
| Str (s : string)
| Arr (items : list value)
| Obj (members : list (string * value)).

Definition DQUOTE : ascii := "034"%char.
Definition BACKSLASH : ascii := "092"%char.
Definition LF : ascii := "010"%char.
Definition CR : ascii := "013"%char.
Definition TAB : ascii := "009"%char.
Definition BS : ascii := "008"%char.
Definition FF : ascii := "012"%char.

(** *** json.dump with indent=4 *)

Definition hex_digit (n : nat) : ascii :=
  match get n "0123456789abcdef" with
  | Some c => c
  | None => "0"%char
  end.

(** One character of [py_encode_basestring_ascii]. *)
Definition escape_char (c : ascii) : string :=
  if Ascii.eqb c DQUOTE then String BACKSLASH (String DQUOTE "")
  else if Ascii.eqb c BACKSLASH then String BACKSLASH (String BACKSLASH "")
  else if Ascii.eqb c LF then String BACKSLASH "n"
  else if Ascii.eqb c CR then String BACKSLASH "r"
  else if Ascii.eqb c TAB then String BACKSLASH "t"
  else if Ascii.eqb c BS then String BACKSLASH "b"
  else if Ascii.eqb c FF then String BACKSLASH "f"
  else
    let n := nat_of_ascii c in
    if ((32 <=? n)%nat && (n <=? 126)%nat)%bool then String c ""
    else String BACKSLASH
           (String "u" (String "0" (String "0"
              (String (hex_digit (n / 16)) (String (hex_digit (n mod 16)) ""))))).

Fixpoint escape (s : string) : string :=
  match s with
  | EmptyString => EmptyString
  | String c r => escape_char c ++ escape r
  end.

Definition encode_string (s : string) : string :=
  String DQUOTE (escape s ++ String DQUOTE "").

(** [repr] of a Python int. *)
Definition repr_int (z : Z) : string :=
  match z with
  | Z0 => "0"
  | Zpos p => DecimalString.NilEmpty.string_of_uint (Pos.to_uint p)
  | Zneg p => String "-" (DecimalString.NilEmpty.string_of_uint (Pos.to_uint p))
  end.

Fixpoint spaces (n : nat) : string :=
  match n with
  | 0 => EmptyString
  | S n' => String " " (spaces n')
  end.

(** ['\n' + ' ' * 4 * level] *)
Definition newline_indent (level : nat) : string := String LF (spaces (4 * level)).

(** [_iterencode] of the pure-Python encoder, chunks concatenated:
    item separator [,], key separator [: ]. *)
Fixpoint encode (level : nat) (v : value) : string :=
  match v with
  | Null => "null"
  | Boolean true => "true"
  | Boolean false => "false"
  | Int z => repr_int z
  | Str s => encode_string s
  | Arr [] => "[]"
  | Arr (x :: xs) =>
      "[" ++ newline_indent (S level) ++ encode (S level) x
      ++ (fix more (l : list value) : string :=
            match l with
            | [] => EmptyString
            | y :: l' => "," ++ newline_indent (S level) ++ encode (S level) y ++ more l'
            end) xs
      ++ newline_indent level ++ "]"
  | Obj [] => "{}"
  | Obj ((k, x) :: ms) =>
      "{" ++ newline_indent (S level) ++ encode_string k ++ ": " ++ encode (S level) x
      ++ (fix more (l : list (string * value)) : string :=
            match l with
            | [] => EmptyString
            | (k', y) :: l' =>
                "," ++ newline_indent (S level) ++ encode_string k' ++ ": "
                ++ encode (S level) y ++ more l'
            end) ms
      ++ newline_indent level ++ "}"
  end.

Definition dumps (v : value) : string := encode 0 v.

(** The items after the first of an array, and the members after the first
    of an object, each with the separator before it. *)
Fixpoint encode_items (level : nat) (l : list value) : string :=
  match l with
  | [] => EmptyString
  | y :: l' => "," ++ newline_indent level ++ encode level y ++ encode_items level l'
  end.

Fixpoint encode_members (level : nat) (l : list (string * value)) : string :=
  match l with
  | [] => EmptyString
  | (k, y) :: l' =>
      "," ++ newline_indent level ++ encode_string k ++ ": " ++ encode level y
      ++ encode_members level l'
  end.

(** *** json.load *)

Definition first_is (c : ascii) (s : string) : bool :=
  match s with
  | String c' _ => Ascii.eqb c' c
  | EmptyString => false
  end.

Definition behead (s : string) : string :=
  match s with
  | String _ r => r
  | EmptyString => EmptyString
  end.

Definition is_ws (c : ascii) : bool :=
  Ascii.eqb c " " || Ascii.eqb c TAB || Ascii.eqb c LF || Ascii.eqb c CR.

Fixpoint skip_ws (s : string) : string :=
  match s with
  | String c r => if is_ws c then skip_ws r else s
  | EmptyString => EmptyString
  end.

Definition is_digit (c : ascii) : bool :=
  let n := nat_of_ascii c in ((48 <=? n)%nat && (n <=? 57)%nat)%bool.

Fixpoint span_digits (s : string) : string * string :=
  match s with
  | String c r =>
      if is_digit c then let (ds, rest) := span_digits r in (String c ds, rest)
      else (EmptyString, s)
  | EmptyString => (EmptyString, EmptyString)
  end.

Definition hex_value (c : ascii) : option nat :=
  let n := nat_of_ascii c in
  if ((48 <=? n)%nat && (n <=? 57)%nat)%bool then Some (n - 48)
  else if ((97 <=? n)%nat && (n <=? 102)%nat)%bool then Some (n - 87)
  else if ((65 <=? n)%nat && (n <=? 70)%nat)%bool then Some (n - 55)
  else None.

Definition hex4 (a b c d : ascii) : option nat :=
  match hex_value a, hex_value b, hex_value c, hex_value d with
  | Some x, Some y, Some z, Some t => Some (((x * 16 + y) * 16 + z) * 16 + t)
  | _, _, _, _ => None
  end.

(** The character a one-letter escape stands for. *)
Definition unescape (e : ascii) : option ascii :=
  if Ascii.eqb e DQUOTE then Some DQUOTE
  else if Ascii.eqb e BACKSLASH then Some BACKSLASH
  else if Ascii.eqb e "/" then Some "/"%char
  else if Ascii.eqb e "b" then Some BS
  else if Ascii.eqb e "f" then Some FF
  else if Ascii.eqb e "n" then Some LF
  else if Ascii.eqb e "r" then Some CR
  else if Ascii.eqb e "t" then Some TAB
  else None.

Definition cons_char (c : ascii) (r : option (string * string)) : option (string * string) :=
  match r with
  | Some (t, rest) => Some (String c t, rest)
  | None => None
  end.

(** [py_scanstring], strict, after the opening quote: the text up to the
    closing quote, and what follows it.  A [\u] escape above U+00FF has no
    counterpart in [string] and is refused. *)
Fixpoint scan_string (s : string) : option (string * string) :=
  match s with
  | EmptyString => None
  | String c r =>
      if Ascii.eqb c DQUOTE then Some (EmptyString, r)
      else if Ascii.eqb c BACKSLASH then
        match r with
        | EmptyString => None
        | String e r' =>
            if Ascii.eqb e "u" then
              match r' with
              | String h1 (String h2 (String h3 (String h4 r''))) =>
                  match hex4 h1 h2 h3 h4 with
                  | Some n =>
                      if (n <? 256)%nat then cons_char (ascii_of_nat n) (scan_string r'')
                      else None
                  | None => None
                  end
              | _ => None
              end
            else
              match unescape e with
              | Some c' => cons_char c' (scan_string r')
              | None => None
              end
        end
      else if (nat_of_ascii c <? 32)%nat then None
      else cons_char c (scan_string r)
  end.

(** The NUMBER_RE match: an optional sign, then [0] or a digit run that
    starts with a non-zero digit.  A fraction or an exponent makes a float,
    which this model does not hold. *)
Definition parse_number (s : string) : option (value * string) :=
  let negative := first_is "-" s in
  let s1 := if negative then behead s else s in
  let (ds, rest) :=
    if first_is "0" s1 then ("0", behead s1) else span_digits s1 in
  if first_is "." rest || first_is "e" rest || first_is "E" rest then None
  else
    match ds with
    | EmptyString => None
    | _ =>
        match DecimalString.NilEmpty.uint_of_string ds with
        | Some d => Some (Int (if negative then Z.opp (Z.of_uint d) else Z.of_uint d), rest)
        | None => None
        end
    end.

Fixpoint strip_prefix (p s : string) : option string :=
  match p, s with
  | EmptyString, _ => Some s
  | String a p', String b s' => if Ascii.eqb a b then strip_prefix p' s' else None
  | String _ _, EmptyString => None
  end.

(** [scan_once], [JSONArray] and [JSONObject]. *)
Fixpoint parse_value (fuel : nat) (s : string) : option (value * string) :=
  match fuel with
  | 0 => None
  | S fuel' =>
      if first_is DQUOTE s then
        match scan_string (behead s) with
        | Some (t, rest) => Some (Str t, rest)
        | None => None
        end
      else if first_is "{" s then
        let s1 := skip_ws (behead s) in
        if first_is "}" s1 then Some (Obj [], behead s1)
        else parse_members fuel' s1 []
      else if first_is "[" s then
        let s1 := skip_ws (behead s) in
        if first_is "]" s1 then Some (Arr [], behead s1)
        else parse_elements fuel' s1 []
      else if first_is "n" s then
        match strip_prefix "null" s with
        | Some rest => Some (Null, rest)
        | None => None
        end
      else if first_is "t" s then
        match strip_prefix "true" s with
        | Some rest => Some (Boolean true, rest)
        | None => None
        end
      else if first_is "f" s then
        match strip_prefix "false" s with
        | Some rest => Some (Boolean false, rest)
        | None => None
        end
      else parse_number s
  end
with parse_elements (fuel : nat) (s : string) (acc : list value) : option (value * string) :=
  match fuel with
  | 0 => None
  | S fuel' =>
      match parse_value fuel' s with
      | Some (v, s1) =>
          let s2 := skip_ws s1 in
          if first_is "]" s2 then Some (Arr (rev (v :: acc)), behead s2)
          else if first_is "," s2 then parse_elements fuel' (skip_ws (behead s2)) (v :: acc)
          else None
      | None => None
      end
  end
with parse_members (fuel : nat) (s : string) (acc : list (string * value))
  : option (value * string) :=
  match fuel with
  | 0 => None
  | S fuel' =>
      if first_is DQUOTE s then
        match scan_string (behead s) with
        | Some (k, s1) =>
            let s2 := skip_ws s1 in
            if first_is ":" s2 then
              match parse_value fuel' (skip_ws (behead s2)) with
              | Some (v, s3) =>
                  let s4 := skip_ws s3 in
                  if first_is "}" s4 then Some (Obj (rev ((k, v) :: acc)), behead s4)
                  else if first_is "," s4 then
                    parse_members fuel' (skip_ws (behead s4)) ((k, v) :: acc)
                  else None
              | None => None
              end
            else None
        | None => None
        end
      else None
  end.

(** [json.loads]: leading whitespace, one value, trailing whitespace,
    nothing else.  An object is read as the list of its members, in order.
    The fuel grows with the text: two steps of the parsers consume at least
    one character. *)
Definition loads (s : string) : option value :=
  match parse_value (2 * String.length s + 2) (skip_ws s) with
  | Some (v, rest) => if String.eqb (skip_ws rest) "" then Some v else None
  | None => None
  end.


(** What may follow a number in the encoder's output: a comma, a line
    feed, or nothing. *)
Definition delimited (rest : string) : Prop :=
  rest = "" \/ first_is "," rest = true \/ first_is LF rest = true.

(** The characters a value's text can start with. *)
Definition opener (c : ascii) : bool :=
  Ascii.eqb c DQUOTE || Ascii.eqb c "{" || Ascii.eqb c "[" || Ascii.eqb c "n"
  || Ascii.eqb c "t" || Ascii.eqb c "f" || Ascii.eqb c "-" || is_digit c.

(** What the round trip of texts says of each of the three parsers, given
    fuel [f]: the text of a value, of the items of an array and of the
    members of an object is read back as written. *)
Definition value_round_trip (f : nat) : Prop :=
  forall (v : value) (level : nat) (rest : string),
    String.length (encode level v) <= f ->
    delimited rest ->
    parse_value f (encode level v ++ rest) = Some (v, rest).

Definition items_round_trip (f : nat) : Prop :=
  forall (x : value) (xs : list value) (level lvl : nat) (rest : string) (acc : list value),
    String.length (encode level x ++ encode_items level xs) < f ->
    parse_elements f
      (encode level x ++ encode_items level xs ++ newline_indent lvl ++ String "]" rest) acc
    = Some (Arr (rev acc ++ x :: xs), rest).

Definition members_round_trip (f : nat) : Prop :=
  forall (k : string) (x : value) (ms : list (string * value)) (level lvl : nat)
         (rest : string) (acc : list (string * value)),
    String.length (encode_string k ++ ": " ++ encode level x ++ encode_members level ms) < f ->
    parse_members f
      (encode_string k ++ ": " ++ encode level x ++ encode_members level ms
       ++ newline_indent lvl ++ String "}" rest) acc
    = Some (Obj (rev acc ++ (k, x) :: ms), rest).

End Json.

(** ** utils/file_handler.py *)

Module FileHandler.

(** What a file holds: the text of a completed [json.dump], or whatever an
    interrupted one left behind. *)
Inductive content : Type :=
| Written (text : string)
| Interrupted.

(** The files, each under the name the operating system knows it by
    ([file_at] below): two paths that lead to one file have one entry. *)
Definition files : Type := string -> option content.

Definition write (fs : files) (file : string) (c : content) : files :=
  fun p => if String.eqb p file then Some c else fs p.

(** What the operating system answers to
    [path.parent.mkdir(parents=True, exist_ok=True)] and to
    [path.open("w")]: nothing, or the exception raised; and the file a path
    leads to, whatever the working directory and the links on the way. *)
Record Output : Type := {
  mkdir_parents : string -> option exn;
  open_w : string -> option exn;
  file_at : string -> string
}.

Definition attempt (r : option exn) : result unit :=
  match r with
  | Some e => Raise e
  | None => Ok tt
  end.

Section SaveOutput.
Context {Response : Type}.
Variable out : Output.
(** [item["response"].model_dump()] *)
Variable model_dump : Response -> Json.value.

(** [{"file": item["file"], "response": item["response"].model_dump()}] *)
Definition structured (item : dict Response) : result (pyval Response * Json.value) :=
  match getitem item "file" with
  | Raise e => Raise e
  | Ok file =>
      match getitem item "response" with
      | Raise e => Raise e
      | Ok (VObj r) => Ok (file, model_dump r)
      | Ok (VStr _) =>
          Raise (Exn (Builtin "AttributeError")
                   "'str' object has no attribute 'model_dump'")
      end
  end.

Fixpoint structured_all (ocr_responses : list (dict Response))
  : result (list (pyval Response * Json.value)) :=
  match ocr_responses with
  | [] => Ok []
  | item :: rest =>
      match structured item with
      | Raise e => Raise e
      | Ok d =>
          match structured_all rest with
          | Raise e => Raise e
          | Ok ds => Ok (d :: ds)
          end
      end
  end.

(** The JSON value [json.dump] writes for the list, when each ["file"]
    entry is a string; any other object there is not serializable. *)
Fixpoint serializable (ds : list (pyval Response * Json.value)) : option (list Json.value) :=
  match ds with
  | [] => Some []
  | (VStr label, response) :: rest =>
      match serializable rest with
      | Some vs =>
          Some (Json.Obj [("file", Json.Str label); ("response", response)] :: vs)
      | None => None
      end
  | (VObj _, _) :: _ => None
  end.

(** The file [Path(output_path)] leads to. *)
Definition target (output_path : string) : string :=
  file_at out (Pathlib.str output_path).

Definition save_output (ocr_responses : list (dict Response)) (output_path : string)
  : M files unit :=
  let path := Pathlib.str output_path in
  try_except
    (_ <- lift (attempt (mkdir_parents out path)) ;;
     ocr_responses_dict <- lift (structured_all ocr_responses) ;;
     _ <- lift (attempt (open_w out path)) ;;
     fun fs =>
       match serializable ocr_responses_dict with
       | Some vs =>
           (Ok tt, write fs (file_at out path) (Written (Json.dumps (Json.Arr vs))))
       | None =>
           (Raise (Exn (Builtin "TypeError") "Object is not JSON serializable"),
            write fs (file_at out path) Interrupted)
       end)
    (fun e =>
       if is_builtin "PermissionError" e then
         raise (new_FileError ("Permission denied: " ++ path) (Some path))
       else if is_builtin "IsADirectoryError" e then
         raise (new_FileError ("Is a directory: " ++ path) (Some path))
       else
         raise (new_FileError ("Error saving output: " ++ str e) (Some path))).

(** The structured data an outcome sequence stands for: per record, its
    label and the dump of its response. *)
Definition persisted (records : list (string * Response)) : Json.value :=
  Json.Arr
    (map (fun rec => Json.Obj [("file", Json.Str (fst rec));
                               ("response", model_dump (snd rec))]) records).

(** Reading a file back with [json.load]. *)
Definition read_back (fs : files) (file : string) : option Json.value :=
  match fs file with
  | Some (Written text) => Json.loads text
  | _ => None
  end.

End SaveOutput.
End FileHandler.

(** ** Further control flow and library functions *)

(** [try: c  finally: f]: [f] runs however [c] ends; if [f] raises, that is
    what is raised. *)
Definition try_finally {W A} (c : M W A) (f : M W unit) : M W A :=
  fun w =>
    match c w with
    | (r, w1) =>
        match f w1 with
        | (Ok _, w2) => (r, w2)
        | (Raise e, w2) => (Raise e, w2)
        end
    end.

Definition is_APIError (e : exn) : bool :=
  match class_of e with
  | APIError => true
  | _ => false
  end.

(** ** utils/api_client.py: construction of the client *)

Module MistralClientInit.

Definition truthy (s : option string) : bool :=
  match s with
  | Some k => negb (String.eqb k "")
  | None => false
  end.

(** [MistralClient.__init__]: [api_key or APIConfig.MISTRAL_API_KEY], an
    absent or empty key counting as none; the result is the key in use. *)
Definition init (api_key env_key : option string) : result string :=
  let chosen := if truthy api_key then api_key else env_key in
  match chosen with
  | Some k =>
      if String.eqb k "" then
        Raise (Exn ConfigurationError
                 "Mistral API key not found. Please set the MISTRAL_API_KEY environment variable.")
      else Ok k
  | None =>
      Raise (Exn ConfigurationError
               "Mistral API key not found. Please set the MISTRAL_API_KEY environment variable.")
  end.

End MistralClientInit.

(** ** utils/file_handler.py: safe_open *)

Module SafeOpen.

(** What happens to the file system while a file is used. *)
Inductive event : Type :=
| Mkdir (path : string)
| Opened (path mode : string)
| Closed (path : string).

Definition trace : Type := list event.

(** What the operating system refuses: creating the parent directories,
    opening the file in a mode, closing it. *)
Record Os : Type := {
  mkdir_fails : string -> option exn;
  open_fails : string -> string -> option exn;
  close_fails : string -> option exn
}.

Section WithSafeOpen.
Variable os : Os.
Context {A : Type}.

(** [path.parent.mkdir(parents=True, exist_ok=True)] *)
Definition mkdir_parent (path : string) : M trace unit :=
  fun w =>
    match mkdir_fails os path with
    | Some e => (Raise e, w)
    | None => (Ok tt, (w ++ [Mkdir path])%list)
    end.

(** [path.open(mode)]: the file object, here the path it stands for. *)
Definition open_path (path mode : string) : M trace string :=
  fun w =>
    match open_fails os path mode with
    | Some e => (Raise e, w)
    | None => (Ok path, (w ++ [Opened path mode])%list)
    end.

(** [file.close()] *)
Definition close (file : string) : M trace unit :=
  fun w =>
    match close_fails os file with
    | Some e => (Raise e, (w ++ [Closed file])%list)
    | None => (Ok tt, (w ++ [Closed file])%list)
    end.

(** [with FileHandler.safe_open(file_path, mode) as file: block(file)].  An
    exception of the block is raised again inside the generator at its
    [yield], so the [finally] and the [except] clauses apply to it too. *)
Definition safe_open (file_path mode : string) (block : string -> M trace A) : M trace A :=
  let path := Pathlib.str file_path in
  try_except
    (_ <- (if Py.contains mode "w" then mkdir_parent path else ret tt) ;;
     file <- open_path path mode ;;
     try_finally (block file) (close file))
    (fun e =>
       if is_builtin "FileNotFoundError" e then
         raise (new_FileError ("File not found: " ++ path) (Some path))
       else if is_builtin "PermissionError" e then
         raise (new_FileError ("Permission denied: " ++ path) (Some path))
       else if is_builtin "IsADirectoryError" e then
         raise (new_FileError ("Is a directory: " ++ path) (Some path))
       else
         raise (new_FileError ("Error accessing file: " ++ str e) (Some path))).

End WithSafeOpen.
End SafeOpen.

(** ** api/app.py: the single-document endpoint *)

Module App.

Inductive ProcessType : Type := URL | FILE.

(** [url] holds [str(request.url)] when the request has a URL. *)
Record OCRRequest : Type := {
  process_type : ProcessType;
  url : option string;
  include_images : bool
}.

Record UploadFile : Type := {
  filename : string;
  content : string
}.

(** What the endpoint hands to the framework: the record it returns, or the
    HTTPException it raises. *)
Inductive http (A : Type) : Type :=
| Returned (a : A)
| HTTPException (status_code : nat) (detail : string).
Arguments Returned {A} a.
Arguments HTTPException {A} status_code detail.

(** [NamedTemporaryFile(delete=False, suffix=...)] answers the path of the
    file it created, or raises; reading the upload and writing it there may
    raise as well. *)
Record TempDir : Type := {
  named_temporary_file : string -> string + exn;
  fill_fails : string -> string -> option exn
}.

(** The state of the server: that of the OCR service, and the temporary
    files that exist. *)
Record Server (W : Type) : Type := {
  service : W;
  temp_files : list string
}.
Arguments service {W} _.
Arguments temp_files {W} _.

Section Endpoint.
Context {W Response : Type}.
(** [ocr_service.process_documents], injected by [Depends]. *)
Variable process_documents : string -> M W (list (dict Response)).
Variable tmp : TempDir.
(** [str] of an HTTPException, which the installed Starlette decides. *)
Variable http_text : nat -> string -> string.

(** An HTTPException raised inside the [try]: to the [except] clauses it is
    an exception like any other. *)
Definition raised_inside (status_code : nat) (detail : string) : exn :=
  Exn (Builtin "HTTPException") (http_text status_code detail).

Definition on_service {A} (c : M W A) : M (Server W) A :=
  fun s =>
    match c (service s) with
    | (r, w') => (r, {| service := w'; temp_files := temp_files s |})
    end.

(** [if not ocr_responses: raise HTTPException(500, ...)], then
    [return ocr_responses[0]]. *)
Definition first_record (failure : string) (ocr_responses : list (dict Response))
  : M (Server W) (dict Response) :=
  match ocr_responses with
  | [] => raise (raised_inside 500 failure)
  | first :: _ => ret first
  end.

(** The [with NamedTemporaryFile(...)] block: the path of the file, which
    exists from its creation on. *)
Definition save_upload (file : UploadFile) : M (Server W) string :=
  fun s =>
    match named_temporary_file tmp (Pathlib.suffix (filename file)) with
    | inr e => (Raise e, s)
    | inl temp_file_path =>
        let s' := {| service := service s;
                     temp_files := temp_file_path :: temp_files s |} in
        match fill_fails tmp temp_file_path (content file) with
        | Some e => (Raise e, s')
        | None => (Ok temp_file_path, s')
        end
    end.

(** [if os.path.exists(temp_file_path): os.unlink(temp_file_path)] *)
Definition unlink_if_exists (temp_file_path : string) : M (Server W) unit :=
  fun s =>
    if existsb (String.eqb temp_file_path) (temp_files s) then
      (Ok tt, {| service := service s;
                 temp_files :=
                   filter (fun p => negb (String.eqb temp_file_path p)) (temp_files s) |})
    else (Ok tt, s).

(** The body of the [try]. *)
Definition attempt_request (request : OCRRequest) (file : option UploadFile)
  : M (Server W) (dict Response) :=
  match process_type request with
  | URL =>
      match url request with
      | None => raise (raised_inside 400 "URL is required for URL processing")
      | Some u =>
          ocr_responses <- on_service (process_documents u) ;;
          first_record "Failed to process URL" ocr_responses
      end
  | FILE =>
      match file with
      | None => raise (raised_inside 400 "File is required for file processing")
      | Some f =>
          temp_file_path <- save_upload f ;;
          try_finally
            (ocr_responses <- on_service (process_documents temp_file_path) ;;
             first_record "Failed to process file" ocr_responses)
            (unlink_if_exists temp_file_path)
      end
  end.

(** The four [except] clauses, in order. *)
Definition answer_failure (e : exn) : http (dict Response) :=
  if is_InvalidInputError e then HTTPException 400 (str e)
  else if is_APIError e then HTTPException 500 (str e)
  else if is_OCRToolError e then HTTPException 500 (str e)
  else HTTPException 500 ("Unexpected error: " ++ str e).

Definition process_document (request : OCRRequest) (file : option UploadFile)
  : Server W -> http (dict Response) * Server W :=
  fun s =>
    match attempt_request request file s with
    | (Ok record, s') => (Returned record, s')
    | (Raise e, s') => (answer_failure e, s')
    end.

End Endpoint.

(** [get_ocr_service]: the key of the service built, or the HTTPException
    raised for an OCRToolError. *)
Definition get_ocr_service (env_key : option string) : http string :=
  match MistralClientInit.init None env_key with
  | Ok k => Returned k
  | Raise e => HTTPException 500 (str e)
  end.

End App.

(** ** utils/logger.py *)

Module Logger.

Definition NOTSET : nat := 0.
Definition DEBUG : nat := 10.
Definition INFO : nat := 20.

Inductive handler : Type :=
| StreamHandler (format : string)
| FileHandler (filename format : string).

Record logger : Type := {
  level : nat;
  propagate : bool;
  handlers : list handler
}.

(** The loggers the logging module knows, by name. *)
Definition registry : Type := string -> option logger.

Definition DEFAULT_NAME : string := "ocr_tool".
Definition DEFAULT_LEVEL : nat := INFO.
Definition DEFAULT_FORMAT : string :=
  "%(asctime)s - %(name)s - %(levelname)s - %(message)s".

(** [logging.getLogger(name)]: the logger of that name, made on first use. *)
Definition getLogger (name : string) (reg : registry) : logger :=
  match reg name with
  | Some l => l
  | None => {| level := NOTSET; propagate := true; handlers := [] |}
  end.

Definition store (reg : registry) (name : string) (l : logger) : registry :=
  fun n => if String.eqb n name then Some l else reg n.

Section Setup.
(** Creating the directory of the log file and its FileHandler may raise. *)
Variable file_handler_fails : string -> option exn.

Definition setup_logger (name : string) (log_file : option string) (level : nat)
    (log_format : option string) (propagate : bool) : registry -> logger * registry :=
  fun reg =>
    let log_format :=
      match log_format with
      | None => DEFAULT_FORMAT
      | Some f => f
      end in
    let l := getLogger name reg in
    let cleared := match handlers l with [] => [] | _ :: _ => [] end in
    let with_console := (cleared ++ [StreamHandler log_format])%list in
    let with_file :=
      match log_file with
      | Some path =>
          match file_handler_fails path with
          | None => (with_console ++ [FileHandler path log_format])%list
          | Some _ => with_console
          end
      | None => with_console
      end in
    let l' := {| level := level; propagate := propagate; handlers := with_file |} in
    (l', store reg name l').

(** [get_logger]: [level or LoggerConfig.DEFAULT_LEVEL]. *)
Definition get_logger (name : string) (level : option nat) (log_file : option string)
  : registry -> logger * registry :=
  setup_logger name log_file
    (match level with
     | Some 0 | None => DEFAULT_LEVEL
     | Some n => n
     end)
    None false.

(** [configure_logging] of main.py. *)
Definition configure_logging (verbose : bool) (log_file_path : option string)
  : registry -> logger * registry :=
  let log_level := if verbose then DEBUG else INFO in
  let log_file :=
    match log_file_path with
    | Some p => if String.eqb p "" then None else Some (Pathlib.str p)
    | None => None
    end in
  setup_logger DEFAULT_NAME log_file log_level None false.

End Setup.
End Logger.

(** ** main.py: the command-line mode *)

Module Main.

(** The arguments of the [cli] mode, as [parse_arguments] hands them over. *)
Record Namespace : Type := {
  input : string;
  output : string;
  verbose : bool;
  log_file : option string
}.

(** What a run works on: the state of the OCR service, the files, and the
    loggers the logging module knows. *)
Record state (W : Type) : Type := {
  service : W;
  files : FileHandler.files;
  loggers : Logger.registry
}.
Arguments service {W} _.
Arguments files {W} _.
Arguments loggers {W} _.

(** When a run logs: while the documents are processed, up to the saving of
    the output; after the output was saved; after something failed. *)
Inductive moment : Type := Processing | Saved | Failed.

Section Cli.
Context {W Response FileId : Type}.
(** [APIConfig.MISTRAL_API_KEY], read from the environment. *)
Variable env_key : option string.
Variable sdk : MistralClient.Sdk W Response FileId.
Variable fs : FileSystem.
Variable out : FileHandler.Output.
Variable model_dump : Response -> Json.value.
(** Creating the directory of the log file and its FileHandler may raise. *)
Variable file_handler_fails : string -> option exn.
(** What [os.getcwd()] answers. *)
Variable cwd : string.
(** The text a file handler writes for the records logged at a moment.  It
    holds the time of each call, so it is given, not computed. *)
Variable logged : moment -> string.

(** [main.process_documents]: build the client, then dispatch. *)
Definition process_documents (input_path : string) : M W (list (dict Response)) :=
  _client <- lift (MistralClientInit.init None env_key) ;;
  OCRService.process_documents fs (MistralClient.client sdk) input_path.

Definition save_results (ocr_responses : list (dict Response)) (output_path : string)
  : M FileHandler.files unit :=
  FileHandler.save_output out model_dump ocr_responses output_path.

(** The file a handler writes to: [logging.FileHandler(path)] opens
    [os.path.abspath(path)], in mode [a]. *)
Definition log_file_of (h : Logger.handler) : list string :=
  match h with
  | Logger.FileHandler path _ => [FileHandler.file_at out (Posixpath.abspath cwd path)]
  | Logger.StreamHandler _ => []
  end.

Definition log_files (l : Logger.logger) : list string :=
  flat_map log_file_of (Logger.handlers l).

(** A write to a file opened in mode [a]: the text goes to the end of what
    the file holds by then, and a missing file is made. *)
Definition append (text : string) (fl : FileHandler.files) (file : string)
  : FileHandler.files :=
  FileHandler.write fl file
    match fl file with
    | Some (FileHandler.Written held) => FileHandler.Written (held ++ text)
    | Some FileHandler.Interrupted => FileHandler.Interrupted
    | None => FileHandler.Written text
    end.

(** What the file handlers of a logger do to the files when [text] is
    logged; with the empty text, what their creation does. *)
Definition emit (l : Logger.logger) (text : string) (fl : FileHandler.files)
  : FileHandler.files :=
  fold_left (append text) (log_files l) fl.

(** [run_cli_mode]: the exit code.  The logger is configured before the
    [try]; what it prints on the console is left out. *)
Definition run_cli_mode (args : Namespace) : state W -> nat * state W :=
  fun st =>
    let (logger, loggers') :=
      Logger.configure_logging file_handler_fails (verbose args) (log_file args)
        (loggers st) in
    let opened := emit logger "" (files st) in
    match process_documents (input args) (service st) with
    | (Ok ocr_responses, w') =>
        match save_results ocr_responses (output args)
                (emit logger (logged Processing) opened) with
        | (Ok _, files') =>
            (0, {| service := w'; files := emit logger (logged Saved) files';
                   loggers := loggers' |})
        | (Raise e, files') =>
            (if is_OCRToolError e then 1 else 1,
             {| service := w'; files := emit logger (logged Failed) files';
                loggers := loggers' |})
        end
    | (Raise e, w') =>
        (if is_OCRToolError e then 1 else 1,
         {| service := w';
            files := emit logger (logged Failed) (emit logger (logged Processing) opened);
            loggers := loggers' |})
    end.

End Cli.
End Main.

(** ** A concrete filesystem and concrete clients

    The scenarios of the specification: a directory with two supported
    files and one unsupported, an empty directory, and a path that does not
    exist.  The world of these clients is the list of the paths they were
    called with, oldest first; a response is a piece of text. *)

Module Scenario.

Definition mem (p : string) (l : list string) : bool :=
  existsb (String.eqb p) l.

Definition disk : FileSystem := {|
  isfile := fun p =>
    mem p ["/tmp/mixed_dir/a.pdf"; "/tmp/mixed_dir/b.txt"; "/tmp/mixed_dir/c.png";
           "/tmp/report.pdf"; "/tmp/notes/todo.txt"; "http://files/scan.pdf"];
  isdir := fun p =>
    mem p ["/tmp"; "/tmp/mixed_dir"; "/tmp/empty_dir"; "/tmp/notes"; "/tmp/notes/old";
           "http://files"];
  listdir := fun p =>
    if String.eqb p "/tmp/mixed_dir" then inl ["a.pdf"; "b.txt"; "c.png"]
    else if String.eqb p "/tmp/empty_dir" then inl []
    else if String.eqb p "/tmp/notes" then inl ["todo.txt"; "old"]
    else if String.eqb p "/tmp" then inl ["mixed_dir"; "empty_dir"; "notes"; "report.pdf"]
    else inr ("FileNotFoundError", p)
|}.

Definition calls : Type := list string.

(** A client that always answers. *)
Definition steady : Client calls string :=
  Build_Client calls string (fun p w => (Ok ("text of " ++ p), (w ++ [p])%list)).

(** A client that raises [e] for the path [bad] and answers otherwise. *)
Definition failing_on (bad : string) (e : exn) : Client calls string :=
  Build_Client calls string
    (fun p w =>
       if String.eqb p bad then (Raise e, (w ++ [p])%list)
       else (Ok ("text of " ++ p), (w ++ [p])%list)).

(** A client that answers a path once and refuses it afterwards. *)
Definition once_only : Client calls string :=
  Build_Client calls string
    (fun p w =>
       if mem p w then (Raise (new_APIError "Unexpected error: quota"), (w ++ [p])%list)
       else (Ok ("text of " ++ p), (w ++ [p])%list)).

(** An SDK whose upload fails for unreadable paths and whose OCR always
    answers. *)
Definition sdk : MistralClient.Sdk calls string nat :=
  MistralClient.Build_Sdk calls string nat
    (fun doc w =>
       match doc with
       | MistralClient.document_url u => (Ok ("text of " ++ u), (w ++ [u])%list)
       | MistralClient.file_id n => (Ok "text of upload", (w ++ ["upload"])%list)
       end)
    (fun path _ _ w =>
       if isfile disk path then (Ok (length w), w)
       else (Raise (Exn (Builtin "FileNotFoundError") path), w)).

(** An operating system in which [/etc] is read-only and
    [/tmp/latest.json] is a link to [/tmp/out/ocr.json]. *)
Definition output : FileHandler.Output := {|
  FileHandler.mkdir_parents := fun _ => None;
  FileHandler.open_w := fun p =>
    if String.prefix "/etc/" p then Some (Exn (Builtin "PermissionError") p) else None;
  FileHandler.file_at := fun p =>
    if String.eqb p "/tmp/latest.json" then "/tmp/out/ocr.json" else p
|}.

(** A [model_dump] for the textual responses of these clients. *)
Definition text_dump (r : string) : Json.value :=
  Json.Obj [("pages", Json.Arr [Json.Obj [("index", Json.Int 0); ("markdown", Json.Str r)]]);
            ("model", Json.Str "mistral-ocr-latest");
            ("usage_info", Json.Obj [("pages_processed", Json.Int 1);
                                     ("doc_size_bytes", Json.Null)])].

Definition no_files : FileHandler.files := fun _ => None.

Definition boom : exn := Exn (Builtin "RuntimeError") "boom".
Definition refused : exn := new_APIError "Unexpected error: refused".

(** An operating system in which [/etc] is read-only. *)
Definition os : SafeOpen.Os := {|
  SafeOpen.mkdir_fails := fun _ => None;
  SafeOpen.open_fails := fun p _ =>
    if String.prefix "/etc/" p then Some (Exn (Builtin "PermissionError") p) else None;
  SafeOpen.close_fails := fun _ => None
|}.

(** A temporary directory that works, and one on a full disk. *)
Definition temp_dir : App.TempDir := {|
  App.named_temporary_file := fun suffix => inl ("/tmp/tmpk3x9q2ab" ++ suffix);
  App.fill_fails := fun _ _ => None
|}.

Definition full_temp_dir : App.TempDir := {|
  App.named_temporary_file := fun suffix => inl ("/tmp/tmpk3x9q2ab" ++ suffix);
  App.fill_fails := fun _ _ => Some (Exn (Builtin "OSError") "No space left on device")
|}.

(** The disk once the upload has been copied to it. *)
Definition disk_with_upload : FileSystem := {|
  isfile := fun p => String.prefix "/tmp/tmpk3x9q2ab" p || isfile disk p;
  isdir := isdir disk;
  listdir := listdir disk
|}.

(** [str] of an HTTPException as recent Starlette versions print it. *)
Definition starlette_text (status_code : nat) (detail : string) : string :=
  Json.repr_int (Z.of_nat status_code) ++ ": " ++ detail.

Definition upload : App.UploadFile := {|
  App.filename := "scan.pdf";
  App.content := "%PDF-1.7"
|}.

Definition text_upload : App.UploadFile := {|
  App.filename := "notes.txt";
  App.content := "to do"
|}.

(** Responses that pydantic takes for dictionaries, and responses that are
    objects of the SDK, which it refuses. *)
Definition plain_dict (r : string) : option string := Some r.
Definition sdk_object (r : string) : option string := None.

Definition pydantic_text (items : list (dict string)) : string :=
  "validation errors for OCRBatchResponse".

(** A dispatcher that finds nothing behind [https://example.com/empty] and
    answers every other URL. *)
Definition sparse (url : string) : M calls (list (dict string)) :=
  fun w =>
    if String.eqb url "https://example.com/empty" then (Ok [], (w ++ [url])%list)
    else (Ok [OCRService.outcome url ("text of " ++ url)], (w ++ [url])%list).

(** A run of the command line from [/home/ocr], and the lines its logger
    writes. *)
Definition log_lines (m : Main.moment) : string :=
  match m with
  | Main.Processing => "12:00:01 - ocr_tool - INFO - Processing input" ++ String Json.LF ""
  | Main.Saved => "12:00:02 - ocr_tool - INFO - Processing completed successfully"
                  ++ String Json.LF ""
  | Main.Failed => "12:00:02 - ocr_tool - ERROR - Error" ++ String Json.LF ""
  end.

Definition no_loggers : Logger.registry := fun _ => None.

Definition fresh : Main.state calls :=
  {| Main.service := []; Main.files := no_files; Main.loggers := no_loggers |}.

Definition idle : App.Server calls := {| App.service := []; App.temp_files := [] |}.

End Scenario.

(** * Properties *)

(** ** Strings and paths *)

Section PathFacts.

Lemma app_string_assoc (a b c : string) : (a ++ b) ++ c = a ++ (b ++ c).
Proof. induction a as [|x a IH]; simpl; [reflexivity | now rewrite IH]. Qed.

Lemma endswith_refl (s : string) : Py.endswith s s = true.
Proof. destruct s; cbn [Py.endswith]; now rewrite String.eqb_refl. Qed.

Lemma endswith_spec (s x : string) :
  Py.endswith s x = true <-> exists t, s = t ++ x.
Proof.
  induction s as [|c s IH]; cbn [Py.endswith].
  - destruct (String.eqb_spec "" x) as [E|E]; split; intros H; try easy.
    + exists ""; now subst.
    + destruct H as [[|? ?] H]; simpl in H; [congruence | discriminate].
  - destruct (String.eqb_spec (String c s) x) as [E|E].
    + split; [intros _; exists ""; now subst | easy].
    + rewrite IH; split; intros [t H].
      * exists (String c t); simpl; now rewrite H.
      * destruct t as [|c' t]; simpl in H; [congruence|].
        injection H as _ H; now exists t.
Qed.

Lemma has_sep_app (a b : string) :
  Py.has_sep (a ++ b) = Py.has_sep a || Py.has_sep b.
Proof.
  induction a as [|c a IH]; simpl; [reflexivity|].
  destruct (Ascii.eqb c Py.sep); [reflexivity | exact IH].
Qed.

Lemma lower_app (a b : string) : Py.lower (a ++ b) = Py.lower a ++ Py.lower b.
Proof. induction a as [|c a IH]; simpl; [reflexivity | now rewrite IH]. Qed.

Lemma lower_ascii_sep (c : ascii) :
  Ascii.eqb (Py.lower_ascii c) Py.sep = Ascii.eqb c Py.sep.
Proof.
  destruct c as [[] [] [] [] [] [] [] []]; reflexivity.
Qed.

Lemma has_sep_lower (s : string) : Py.has_sep (Py.lower s) = Py.has_sep s.
Proof.
  induction s as [|c s IH]; simpl; [reflexivity|].
  now rewrite lower_ascii_sep, IH.
Qed.

(** A separator-free suffix cannot reach across a separator. *)
Lemma endswith_across_sep (p m x : string) :
  Py.has_sep x = false ->
  Py.endswith (p ++ String Py.sep m) x = Py.endswith m x.
Proof.
  intros Hx.
  assert (Hne : forall q, String.eqb (q ++ String Py.sep m) x = false).
  { intros q; apply String.eqb_neq; intros E.
    rewrite <- E, has_sep_app in Hx; simpl in Hx.
    now rewrite Bool.orb_true_r in Hx. }
  induction p as [|c p IH].
  - specialize (Hne ""). cbn [append Py.endswith] in *. now rewrite Hne.
  - specialize (Hne (String c p)). cbn [append Py.endswith] in *. now rewrite Hne.
Qed.

Lemma basename_no_sep (n : string) : Py.has_sep n = false -> Py.basename n = n.
Proof.
  destruct n as [|c n]; simpl; [reflexivity|].
  destruct (Ascii.eqb c Py.sep); [discriminate|].
  now intros ->.
Qed.

Lemma basename_across_sep (p n : string) :
  Py.has_sep n = false -> Py.basename (p ++ String Py.sep n) = n.
Proof.
  intros Hn; induction p as [|c p IH]; simpl.
  - now rewrite Hn.
  - rewrite has_sep_app; simpl. now rewrite Bool.orb_true_r.
Qed.

(** [join] puts exactly one separator before a separator-free name,
    unless the directory string is empty. *)
Lemma join_shape (d n : string) :
  Py.has_sep n = false ->
  Py.join d n = n \/ exists p, Py.join d n = p ++ String Py.sep n.
Proof.
  intros Hn; unfold Py.join, Py.startswith.
  assert (Hs : String.prefix "/" n = false).
  { destruct n as [|c n]; [reflexivity|].
    cbn [Py.has_sep] in Hn; cbn [String.prefix].
    destruct (Ascii.ascii_dec "/" c) as [<-|]; [|reflexivity].
    unfold Py.sep in Hn. now rewrite Ascii.eqb_refl in Hn. }
  rewrite Hs.
  destruct (String.eqb_spec d "") as [->|Hd]; simpl; [now left|].
  destruct (Py.endswith d "/") eqn:E; right.
  - apply endswith_spec in E as [t ->]. exists t.
    now rewrite app_string_assoc.
  - now exists d.
Qed.

Lemma basename_join (d n : string) :
  Py.has_sep n = false -> Py.basename (Py.join d n) = n.
Proof.
  intros Hn; destruct (join_shape d n Hn) as [->|[p ->]].
  - now apply basename_no_sep.
  - now apply basename_across_sep.
Qed.

Lemma supported_extensions_no_sep :
  Forall (fun ext => Py.has_sep ext = false) OCRConstants.SUPPORTED_EXTENSIONS.
Proof. repeat constructor. Qed.

(** Whether a direct child is supported is decided by its name alone. *)
Lemma is_supported_file_join (d n : string) :
  Py.has_sep n = false ->
  OCRConstants.is_supported_file (Py.join d n) = OCRConstants.is_supported_file n.
Proof.
  intros Hn; destruct (join_shape d n Hn) as [->|[p ->]]; [reflexivity|].
  unfold OCRConstants.is_supported_file, Py.any.
  pose proof supported_extensions_no_sep as H.
  induction H as [|ext exts Hx _ IH]; simpl; [reflexivity|].
  rewrite IH; f_equal.
  rewrite lower_app; simpl.
  assert (E : Py.lower_ascii Py.sep = Py.sep) by reflexivity.
  rewrite E. now apply endswith_across_sep.
Qed.

End PathFacts.

(** ** The per-file loop of directory processing *)

Section DirectoryLoop.
Import OCRService.
Context {W Response : Type}.
Variable client : Client W Response.

Lemma call_each_length (files : list string) (w : W) :
  length (call_each client files w) = length files.
Proof.
  revert w; induction files as [|f files IH]; intros w; simpl; [reflexivity|].
  destruct (process_document client f w) as [o w']; simpl. now rewrite IH.
Qed.

Lemma successes_length (files : list string) (outs : list (result Response)) :
  length outs = length files ->
  length (successes files outs) = length files - length (filter failed outs).
Proof.
  revert outs; induction files as [|f files IH]; intros [|o outs] Hl;
    try discriminate; [reflexivity|].
  injection Hl as Hl. specialize (IH outs Hl).
  assert (Hle : length (filter failed outs) <= length files).
  { rewrite <- Hl. apply filter_length_le. }
  destruct o as [r|e]; cbn [successes filter failed length]; lia.
Qed.

(** The loop, in full: it stops at the first unexpected failure and
    raises it; otherwise it visits every file and keeps the successes. *)
Lemma for_each_file_run (files : list string) :
  forall (acc : list (dict Response)) (w : W),
    let outs := call_each client files w in
    match for_each_file client files acc w with
    | (Ok rs, w') =>
        existsb unexpected outs = false
        /\ rs = (acc ++ successes files outs)%list
        /\ w' = world_after client files w
    | (Raise e, _) =>
        existsb unexpected outs = true /\ is_OCRToolError e = false
    end.
Proof.
  induction files as [|f files IH]; intros acc w; simpl.
  - now rewrite app_nil_r.
  - destruct (process_document client f w) as [[r|e] w1] eqn:E; simpl.
    + specialize (IH (acc ++ [outcome (Py.basename f) r])%list w1); simpl in IH.
      destruct (for_each_file client files _ w1) as [[rs|e'] w2]; [|exact IH].
      destruct IH as (H1 & H2 & H3); repeat split; try assumption.
      now rewrite H2, <- app_assoc.
    + destruct (is_OCRToolError e) eqn:T; simpl; [|now split].
      exact (IH acc w1).
Qed.

(** Files already handled can be forgotten once their records are kept. *)
Lemma for_each_file_app (pre rest : list string) :
  forall (acc acc' : list (dict Response)) (w w1 : W),
    for_each_file client pre acc w = (Ok acc', w1) ->
    for_each_file client (pre ++ rest) acc w = for_each_file client rest acc' w1.
Proof.
  induction pre as [|f pre IH]; intros acc acc' w w1; simpl.
  - unfold ret; intros [= -> ->]; reflexivity.
  - destruct (process_document client f w) as [[r|e] w0].
    + apply IH.
    + destruct (is_OCRToolError e); [apply IH | discriminate].
Qed.

End DirectoryLoop.

(** ** The dispatcher *)

Section Dispatcher.
Import OCRService.
Context {W Response : Type}.
Variable fs : FileSystem.
Variable client : Client W Response.

Lemma presented_in_family (e : exn) : is_OCRToolError (presented e) = true.
Proof. unfold presented; destruct (is_OCRToolError e) eqn:E; [exact E | reflexivity]. Qed.

(** The URL branch: one call, one record labelled with the input. *)
Lemma process_documents_url (input : string) (w : W) :
  OCRConstants.is_url input = true ->
  process_documents fs client input w =
    match process_document client input w with
    | (Ok r, w') => (Ok [outcome input r], w')
    | (Raise e, w') => (Raise (presented e), w')
    end.
Proof.
  intros U; unfold process_documents, try_except, _process_url, bind, ret.
  rewrite U. destruct (process_document client input w) as [[r|e] w']; [reflexivity|].
  unfold presented, raise. now destruct (is_OCRToolError e).
Qed.

Lemma process_documents_file (input : string) (w : W) :
  OCRConstants.is_url input = false ->
  isfile fs input = true ->
  process_documents fs client input w =
    match process_document client input w with
    | (Ok r, w') => (Ok [outcome input r], w')
    | (Raise e, w') => (Raise (presented e), w')
    end.
Proof.
  intros U F; unfold process_documents, try_except, _process_file, bind, ret.
  rewrite U, F. destruct (process_document client input w) as [[r|e] w']; [reflexivity|].
  unfold presented, raise. now destruct (is_OCRToolError e).
Qed.

Lemma process_documents_directory (input : string) (w : W) :
  OCRConstants.is_url input = false ->
  isfile fs input = false ->
  isdir fs input = true ->
  process_documents fs client input w =
    match _process_directory fs client input w with
    | (Ok rs, w') => (Ok rs, w')
    | (Raise e, w') => (Raise (presented e), w')
    end.
Proof.
  intros U F D; unfold process_documents, try_except. rewrite U, F, D.
  destruct (_process_directory fs client input w) as [[rs|e] w']; [reflexivity|].
  unfold presented, raise. now destruct (is_OCRToolError e).
Qed.

Lemma process_documents_invalid (input : string) (w : W) :
  OCRConstants.is_url input = false ->
  isfile fs input = false ->
  isdir fs input = false ->
  process_documents fs client input w =
    (Raise (new_InvalidInputError (invalid_input_message input)), w).
Proof.
  intros U F D; unfold process_documents, try_except, raise. now rewrite U, F, D.
Qed.

Lemma is_url_prefixes (input : string) :
  OCRConstants.is_url input = true <->
  Py.startswith input "http://" = true \/ Py.startswith input "https://" = true.
Proof.
  unfold OCRConstants.is_url, Py.any; simpl.
  rewrite Bool.orb_false_r, Bool.orb_true_iff. reflexivity.
Qed.

End Dispatcher.

Section DispatcherClaims.
Import OCRService.
Context {W Response : Type}.
Variable fs : FileSystem.
Variable client : Client W Response.

Lemma process_documents_classify (input : string) (w : W) :
  process_documents fs client input w =
    match run_branch fs client (classify fs input) input w with
    | (Ok rs, w') => (Ok rs, w')
    | (Raise e, w') => (Raise (presented e), w')
    end.
Proof.
  unfold process_documents, classify, try_except.
  destruct (OCRConstants.is_url input), (isfile fs input), (isdir fs input);
    cbn [run_branch]; try reflexivity;
    match goal with
    | |- context [match ?c with _ => _ end] =>
        destruct c as [[rs|e] w']; try reflexivity
    end;
    unfold presented, raise; now destruct (is_OCRToolError e).
Qed.

(** C3. An input that starts with [http://] or [https://] takes the URL
    branch whatever the filesystem holds under that name, and only such an
    input does: for it the filesystem is not consulted, and the outcome is
    the same on every filesystem.  The dispatcher is the specification's
    classification followed by the selected branch, the branches being
    tried in the order URL, file, directory, error. *)
Theorem url_check_precedes_filesystem (input : string) (w : W) :
  process_documents fs client input w =
    match run_branch fs client (classify fs input) input w with
    | (Ok rs, w') => (Ok rs, w')
    | (Raise e, w') => (Raise (presented e), w')
    end
  /\ (classify fs input = UrlBranch <->
        Py.startswith input "http://" = true \/ Py.startswith input "https://" = true)
  /\ (classify fs input = FileBranch <->
        OCRConstants.is_url input = false /\ isfile fs input = true)
  /\ (classify fs input = DirectoryBranch <->
        OCRConstants.is_url input = false /\ isfile fs input = false
        /\ isdir fs input = true)
  /\ (classify fs input = ErrorBranch <->
        OCRConstants.is_url input = false /\ isfile fs input = false
        /\ isdir fs input = false)
  /\ (Py.startswith input "http://" = true \/ Py.startswith input "https://" = true ->
      forall fs' : FileSystem,
        process_documents fs' client input w = process_documents fs client input w).
Proof.
  split; [apply process_documents_classify|].
  rewrite <- is_url_prefixes.
  assert (I : OCRConstants.is_url input = true ->
              forall fs' : FileSystem,
                process_documents fs' client input w = process_documents fs client input w).
  { intros U fs'. now rewrite !process_documents_url. }
  unfold classify.
  destruct (OCRConstants.is_url input), (isfile fs input), (isdir fs input);
    repeat split; intros; try discriminate; try reflexivity; try (now apply I);
    repeat match goal with H : _ /\ _ |- _ => destruct H end; discriminate.
Qed.

(** C7. Whatever the selected branch raises, the dispatcher raises an
    error of the OCRToolError family: an error of the family as it is, any
    other one wrapped in a plain OCRToolError whose text quotes it. *)
Theorem single_exception_family (input : string) (w : W) :
  (forall e w', process_documents fs client input w = (Raise e, w') ->
                is_OCRToolError e = true)
  /\ match run_branch fs client (classify fs input) input w with
     | (Ok rs, w') => process_documents fs client input w = (Ok rs, w')
     | (Raise e, w') =>
         process_documents fs client input w =
           (Raise (if is_OCRToolError e then e
                   else Exn OCRToolError
                          ("Unexpected error processing documents: " ++ str e)), w')
     end.
Proof.
  rewrite process_documents_classify.
  destruct (run_branch fs client (classify fs input) input w) as [[rs|e] w1].
  - split; [intros e w' H; discriminate | reflexivity].
  - split; [|reflexivity].
    intros e' w' [= <- _]. apply presented_in_family.
Qed.

Lemma filter_none {A} (f : A -> bool) (l : list A) :
  (forall x, In x l -> f x = false) -> filter f l = [].
Proof.
  induction l as [|a l IH]; intros H; simpl; [reflexivity|].
  rewrite (H a (or_introl eq_refl)). apply IH. intros x Hx; apply H; now right.
Qed.

(** C6. A directory input none of whose files is supported gives the
    empty sequence, no error, and no OCR call is made. *)
Theorem empty_directory_is_not_an_error (d : string) (names : list string) (w : W) :
  OCRConstants.is_url d = false ->
  isfile fs d = false ->
  isdir fs d = true ->
  listdir fs d = inl names ->
  (forall n, In n names -> isfile fs (Py.join d n) = true ->
             OCRConstants.is_supported_file (Py.join d n) = false) ->
  process_documents fs client d w = (Ok [], w).
Proof.
  intros U F D L H.
  rewrite (process_documents_directory fs client d w U F D).
  unfold _process_directory, bind, lift, _get_files_in_directory. rewrite L.
  unfold _filter_supported_files. rewrite filter_none; [reflexivity|].
  intros x Hx. apply in_map_iff in Hx as (n & <- & Hn).
  apply filter_In in Hn as [Hn Hf]. now apply H.
Qed.

Lemma successes_In (files : list string) (outs : list (result Response)) (d : dict Response) :
  In d (successes files outs) ->
  exists f r, In f files /\ d = outcome (Py.basename f) r.
Proof.
  revert outs; induction files as [|f files IH]; intros [|[r|e] outs] H;
    simpl in H; try contradiction.
  - destruct H as [<-|H]; [exists f, r; split; [now left | reflexivity]|].
    destruct (IH _ H) as (f' & r' & Hf & ->). exists f', r'. split; [now right|reflexivity].
  - destruct (IH _ H) as (f' & r' & Hf & ->). exists f', r'. split; [now right|reflexivity].
Qed.

Lemma process_directory_records (d : string) (w w' : W) (rs : list (dict Response)) :
  _process_directory fs client d w = (Ok rs, w') ->
  exists names, listdir fs d = inl names
    /\ Forall (fun rec => exists n r, In n names /\ isfile fs (Py.join d n) = true
                            /\ rec = outcome (Py.basename (Py.join d n)) r) rs.
Proof.
  unfold _process_directory, bind, lift, _get_files_in_directory.
  destruct (listdir fs d) as [names|err]; [|discriminate].
  intros H. exists names. split; [reflexivity|].
  set (files := _filter_supported_files _) in H.
  assert (Hrs : forall rec, In rec rs -> exists f r, In f files /\ rec = outcome (Py.basename f) r).
  { destruct files as [|f0 files'] eqn:E.
    - injection H as <- _. intros rec [].
    - rewrite <- E in *. clear E.
      pose proof (for_each_file_run client files [] w) as R. simpl in R.
      rewrite H in R. destruct R as (_ & -> & _). simpl.
      intros rec Hrec. eapply successes_In; eassumption. }
  apply Forall_forall. intros rec Hrec.
  destruct (Hrs rec Hrec) as (f & r & Hf & ->).
  unfold files, _filter_supported_files in Hf.
  apply filter_In in Hf as [Hf _]. apply in_map_iff in Hf as (n & <- & Hn).
  apply filter_In in Hn as [Hn Hi]. now exists n, r.
Qed.

(** C9. Every record the dispatcher returns has the keys ["file"] and
    ["response"], in that order and no other.  The URL branch and the file
    branch return one record labelled with the input string itself; the
    directory branch labels each record with the basename of the joined
    path of a child file, which is the child's name. *)
Theorem outcome_records_shape (input : string) (w w' : W) (rs : list (dict Response)) :
  process_documents fs client input w = (Ok rs, w') ->
  Forall (fun rec => keys rec = ["file"; "response"]) rs
  /\ match classify fs input with
     | UrlBranch | FileBranch =>
         exists r, rs = [[("file", VStr input); ("response", VObj r)]]
     | DirectoryBranch =>
         exists names, listdir fs input = inl names
           /\ Forall (fun rec => exists n r,
                        In n names /\ isfile fs (Py.join input n) = true
                        /\ rec = [("file", VStr (Py.basename (Py.join input n)));
                                  ("response", VObj r)]
                        /\ (Py.has_sep n = false -> label rec = Some n)) rs
     | ErrorBranch => False
     end.
Proof.
  rewrite process_documents_classify.
  destruct (classify fs input) eqn:C; simpl;
    unfold _process_url, _process_file, bind, ret, raise.
  - destruct (process_document client input w) as [[r|e] w1]; intros [= <- <-].
    split; [repeat constructor | now exists r].
  - destruct (process_document client input w) as [[r|e] w1]; intros [= <- <-].
    split; [repeat constructor | now exists r].
  - destruct (_process_directory fs client input w) as [[rs'|e] w1] eqn:E; intros [= <- <-].
    destruct (process_directory_records _ _ _ _ E) as (names & L & HF).
    split.
    + eapply Forall_impl; [|exact HF]. now intros rec (n & r & _ & _ & ->).
    + exists names. split; [exact L|].
      eapply Forall_impl; [|exact HF]. intros rec (n & r & Hn & Hi & ->).
      exists n, r. repeat split; try assumption.
      intros Hs. unfold label, outcome; simpl. now rewrite basename_join.
  - discriminate.
Qed.

End DispatcherClaims.

(** ** Directory processing *)

Section DirectoryClaims.
Import OCRService.
Context {W Response : Type}.
Variable fs : FileSystem.
Variable client : Client W Response.

Lemma filter_map_swap {A B} (g : A -> B) (f : B -> bool) (l : list A) :
  filter f (map g l) = map g (filter (fun x => f (g x)) l).
Proof.
  induction l as [|a l IH]; simpl; [reflexivity|].
  destruct (f (g a)); simpl; now rewrite IH.
Qed.

(** The directory branch is the loop over the supported children. *)
Lemma process_directory_loop (d : string) (names : list string) (w : W) :
  listdir fs d = inl names ->
  _process_directory fs client d w =
    for_each_file client
      (map (Py.join d)
         (filter (fun n => OCRConstants.is_supported_file (Py.join d n))
            (filter (fun n => isfile fs (Py.join d n)) names))) [] w.
Proof.
  intros L. unfold _process_directory, bind, lift, _get_files_in_directory.
  rewrite L. unfold _filter_supported_files. rewrite filter_map_swap.
  now destruct (map _ _).
Qed.

Lemma combine_functional {A B} (l : list A) (l' : list B) (x : A) (a b : B) :
  NoDup l -> In (x, a) (combine l l') -> In (x, b) (combine l l') -> a = b.
Proof.
  intros N; revert l'; induction N as [|y l Hy N IH]; intros [|c l'] Ha Hb;
    simpl in *; try contradiction.
  destruct Ha as [Ha|Ha], Hb as [Hb|Hb].
  - congruence.
  - exfalso. apply Hy. injection Ha as -> _. eapply in_combine_l; eassumption.
  - exfalso. apply Hy. injection Hb as -> _. eapply in_combine_l; eassumption.
  - eapply IH; eassumption.
Qed.

Lemma successes_labels (d : string) (supported : list string) :
  Forall (fun n => Py.has_sep n = false) supported ->
  forall (outs : list (result Response)) (n : string),
    In (Some n) (map label (successes (map (Py.join d) supported) outs)) ->
    exists r, In (n, Ok r) (combine supported outs).
Proof.
  induction 1 as [|m supported Hm _ IH]; intros [|[r|e] outs] n H;
    simpl in H; try contradiction.
  - destruct H as [H|H].
    + unfold label, outcome in H; simpl in H. rewrite (basename_join d m Hm) in H.
      injection H as ->. exists r. now left.
    + destruct (IH _ _ H) as [r' Hr]. exists r'. now right.
  - destruct (IH _ _ H) as [r' Hr]. exists r'. now right.
Qed.

(** C2. The directory branch returns as many records as the directory
    has direct child files with a supported extension, less those whose OCR
    call fails; the records are those of the calls that answered, in
    listing order; no failed file has a record.  A sequence is returned
    exactly when no call fails outside the OCRToolError family. *)
Theorem directory_success_count (d : string) (names : list string) (w : W) :
  listdir fs d = inl names ->
  let children := filter (fun n => isfile fs (Py.join d n)) names in
  let supported :=
    filter (fun n => OCRConstants.is_supported_file (Py.join d n)) children in
  let outs := call_each client (map (Py.join d) supported) w in
  match _process_directory fs client d w with
  | (Ok rs, _) =>
      existsb unexpected outs = false
      /\ length rs = length supported - length (filter failed outs)
      /\ rs = successes (map (Py.join d) supported) outs
      /\ (Forall (fun n => Py.has_sep n = false) names -> NoDup names ->
          forall n e, In (n, Raise e) (combine supported outs) ->
                      ~ In (Some n) (map label rs))
  | (Raise e, _) => existsb unexpected outs = true /\ is_OCRToolError e = false
  end
  /\ (existsb unexpected outs = false ->
      exists rs w', _process_directory fs client d w = (Ok rs, w'))
  /\ (Forall (fun n => Py.has_sep n = false) names ->
      supported = filter OCRConstants.is_supported_file children).
Proof.
  intros L children supported outs.
  rewrite (process_directory_loop d names w L). fold children; fold supported.
  pose proof (for_each_file_run client (map (Py.join d) supported) [] w) as R.
  cbv zeta in R. fold outs in R.
  destruct (for_each_file client (map (Py.join d) supported) [] w) as [[rs|e] w'].
  - destruct R as (H1 & H2 & _). simpl in H2. repeat split; try assumption.
    + rewrite H2, successes_length.
      * now rewrite length_map.
      * unfold outs. now rewrite call_each_length.
    + intros Hsep Hnd n e Hin Hlab. rewrite H2 in Hlab.
      assert (Hsup : Forall (fun n => Py.has_sep n = false) supported).
      { apply Forall_forall. intros x Hx. unfold supported, children in Hx.
        apply filter_In in Hx as [Hx _]. apply filter_In in Hx as [Hx _].
        revert x Hx. now apply Forall_forall. }
      destruct (successes_labels d supported Hsup outs n Hlab) as [r Hr].
      assert (Hnd' : NoDup supported).
      { unfold supported, children. now repeat apply NoDup_filter. }
      pose proof (combine_functional _ _ _ _ _ Hnd' Hin Hr). discriminate.
    + intros _. now exists rs, w'.
    + intros Hsep. unfold supported. apply filter_ext_in.
      intros n Hn. apply is_supported_file_join.
      unfold children in Hn. apply filter_In in Hn as [Hn _].
      revert n Hn. now apply Forall_forall.
  - destruct R as [H1 H2]. repeat split; try assumption.
    + intros H. congruence.
    + intros Hsep. unfold supported. apply filter_ext_in.
      intros n Hn. apply is_supported_file_join.
      unfold children in Hn. apply filter_In in Hn as [Hn _].
      revert n Hn. now apply Forall_forall.
Qed.

(** C1, as the code has it.  In directory processing a failure of the
    OCRToolError family at one file is passed over: the loop goes on with
    the files after it, keeping the records made so far.  A failure
    outside the family ends the loop there: no later file is processed,
    no record is returned, and the dispatcher raises a plain OCRToolError
    that quotes it. *)
Theorem directory_failure_policy (d : string) (names pre post : list string)
    (f : string) (acc : list (dict Response)) (e : exn) (w w1 w2 : W) :
  OCRConstants.is_url d = false ->
  isfile fs d = false ->
  isdir fs d = true ->
  listdir fs d = inl names ->
  map (Py.join d)
    (filter (fun n => OCRConstants.is_supported_file (Py.join d n))
       (filter (fun n => isfile fs (Py.join d n)) names)) = (pre ++ f :: post)%list ->
  for_each_file client pre [] w = (Ok acc, w1) ->
  process_document client f w1 = (Raise e, w2) ->
  process_documents fs client d w =
    if is_OCRToolError e then
      match for_each_file client post acc w2 with
      | (Ok rs, w') => (Ok rs, w')
      | (Raise e', w') => (Raise (presented e'), w')
      end
    else
      (Raise (Exn OCRToolError ("Unexpected error processing documents: " ++ str e)), w2).
Proof.
  intros U F D L S P E.
  rewrite (process_documents_directory fs client d w U F D).
  rewrite (process_directory_loop d names w L), S.
  rewrite (for_each_file_app client pre (f :: post) [] acc w w1 P).
  cbn [for_each_file]. rewrite E.
  destruct (is_OCRToolError e) eqn:T; [reflexivity|].
  unfold presented. now rewrite T.
Qed.

End DirectoryClaims.

(** ** The Mistral client and the invalid-input error *)

Section ClientClaims.
Import OCRService.
Context {W Response FileId : Type}.
Variable sdk : MistralClient.Sdk W Response FileId.
Variable fs : FileSystem.

(** Whatever the SDK does, the client raises a FileError (which includes
    UnsupportedFileTypeError) or an APIError, and nothing else. *)
Lemma client_raises_file_or_api (p : string) (w w' : W) (e : exn) :
  MistralClient.process_document sdk p w = (Raise e, w') ->
  is_FileError e = true \/ class_of e = APIError.
Proof.
  unfold MistralClient.process_document, try_except.
  match goal with |- context [match ?c with _ => _ end] => destruct c as [[r|e0] w0] end;
    [discriminate|].
  destruct (is_FileError e0) eqn:F; unfold raise.
  - intros [= <- _]. now left.
  - destruct (Py.contains (str e0) "Mistral API"); intros [= <- _]; now right.
Qed.

Lemma client_never_invalid_input (p : string) (w w' : W) (e : exn) :
  MistralClient.process_document sdk p w = (Raise e, w') ->
  is_OCRToolError e = true /\ class_of e <> InvalidInputError.
Proof.
  intros H. destruct (client_raises_file_or_api p w w' e H) as [F|A].
  - unfold is_FileError in F. unfold is_OCRToolError.
    destruct (class_of e); try discriminate; split; congruence.
  - unfold is_OCRToolError. rewrite A. split; congruence.
Qed.

Lemma process_directory_raises_unexpected {R : Type} (client : Client W R)
    (d : string) (w w' : W) (e : exn) :
  _process_directory fs client d w = (Raise e, w') -> is_OCRToolError e = false.
Proof.
  unfold _process_directory, bind, lift, _get_files_in_directory.
  destruct (listdir fs d) as [names|err]; [|intros [= <- _]; reflexivity].
  set (files := _filter_supported_files _). intros H.
  pose proof (for_each_file_run client files [] w) as R0. cbv zeta in R0.
  destruct files as [|f0 files']; [discriminate|].
  rewrite H in R0. apply R0.
Qed.

(** C4. With the Mistral client, the dispatcher fails with
    InvalidInputError exactly when the input is no allow-listed URL, no
    existing file and no existing directory; such a failure leaves the
    world untouched.  The path [/does/not/exist], when it does not exist,
    is such an input. *)
Theorem invalid_input_iff (input : string) (w : W) :
  ((exists e w', process_documents fs (MistralClient.client sdk) input w = (Raise e, w')
                 /\ class_of e = InvalidInputError)
   <-> (OCRConstants.is_url input = false /\ isfile fs input = false
        /\ isdir fs input = false))
  /\ (isfile fs "/does/not/exist" = false -> isdir fs "/does/not/exist" = false ->
      process_documents fs (MistralClient.client sdk) "/does/not/exist" w =
        (Raise (Exn InvalidInputError
                  "Invalid input path: /does/not/exist. Must be a file, directory, or URL."),
         w)).
Proof.
  split; [split|].
  - intros (e & w' & H & C).
    rewrite process_documents_classify in H. unfold classify in H.
    destruct (OCRConstants.is_url input) eqn:U;
      [|destruct (isfile fs input) eqn:F; [|destruct (isdir fs input) eqn:D]];
      cbn [run_branch] in H; [| | |easy].
    + unfold _process_url, bind in H. cbn [process_document MistralClient.client] in H.
      destruct (MistralClient.process_document sdk input w) as [[r|e0] w0] eqn:E;
        [discriminate|].
      destruct (client_never_invalid_input _ _ _ _ E) as [T N].
      injection H as <- _. unfold presented in C. rewrite T in C. contradiction.
    + unfold _process_file, bind in H. cbn [process_document MistralClient.client] in H.
      destruct (MistralClient.process_document sdk input w) as [[r|e0] w0] eqn:E;
        [discriminate|].
      destruct (client_never_invalid_input _ _ _ _ E) as [T N].
      injection H as <- _. unfold presented in C. rewrite T in C. contradiction.
    + destruct (_process_directory fs (MistralClient.client sdk) input w)
        as [[rs|e0] w0] eqn:E; [discriminate|].
      apply process_directory_raises_unexpected in E.
      injection H as <- _. unfold presented in C. rewrite E in C. discriminate.
  - intros (U & F & D). eexists _, w. split.
    + now apply process_documents_invalid.
    + reflexivity.
  - intros F D. now apply process_documents_invalid.
Qed.

End ClientClaims.

(** ** The batch endpoint *)

Section BatchLoop.
Import Api.
Context {W Response : Type}.
Variable process_documents : string -> M W (list (dict Response)).
Variable as_dict : Response -> option Response.
Variable validation_text : list (dict Response) -> string.

(** One iteration adds one entry to one of the two lists. *)
Lemma batch_step_cases (url : string) (rs : list (dict Response)) (fl : list string) (w : W) :
  batch_step process_documents url (rs, fl) w =
    match process_documents url w with
    | (Ok (first :: _), w') => (Ok ((rs ++ [first])%list, fl), w')
    | (Ok [], w') => (Ok (rs, (fl ++ [url])%list), w')
    | (Raise _, w') => (Ok (rs, (fl ++ [url])%list), w')
    end.
Proof.
  unfold batch_step, try_except, bind, ret.
  destruct (process_documents url w) as [[[|first rest]|e] w']; reflexivity.
Qed.

(** The lists handed to the loop are only ever extended. *)
Lemma batch_loop_extends (urls : list string) :
  forall (rs : list (dict Response)) (fl : list string) (w : W),
    batch_loop process_documents urls (rs, fl) w =
      match batch_loop process_documents urls ([], []) w with
      | (Ok (rs', fl'), w') => (Ok ((rs ++ rs')%list, (fl ++ fl')%list), w')
      | (Raise e, w') => (Raise e, w')
      end.
Proof.
  induction urls as [|url urls IH]; intros rs fl w.
  - simpl. unfold ret. now rewrite !app_nil_r.
  - cbn [batch_loop]. unfold bind. rewrite !batch_step_cases.
    destruct (process_documents url w) as [[[|first rest]|e] w1].
    + rewrite (IH rs (fl ++ [url])%list), (IH [] ([] ++ [url])%list).
      destruct (batch_loop process_documents urls ([], []) w1) as [[[rs' fl']|e'] w2];
        [|reflexivity].
      now rewrite <- !app_assoc.
    + rewrite (IH (rs ++ [first])%list fl), (IH ([] ++ [first])%list []).
      destruct (batch_loop process_documents urls ([], []) w1) as [[[rs' fl']|e'] w2];
        [|reflexivity].
      now rewrite <- !app_assoc.
    + rewrite (IH rs (fl ++ [url])%list), (IH [] ([] ++ [url])%list).
      destruct (batch_loop process_documents urls ([], []) w1) as [[[rs' fl']|e'] w2];
        [|reflexivity].
      now rewrite <- !app_assoc.
Qed.

(** The loop never raises, and accounts for every URL once. *)
Lemma batch_loop_total (urls : list string) :
  forall w : W, exists rs fl w',
    batch_loop process_documents urls ([], []) w = (Ok (rs, fl), w')
    /\ length rs + length fl = length urls.
Proof.
  induction urls as [|url urls IH]; intros w.
  - exists [], [], w. now split.
  - cbn [batch_loop]. unfold bind. rewrite batch_step_cases.
    destruct (process_documents url w) as [[[|first rest]|e] w1];
      rewrite batch_loop_extends; destruct (IH w1) as (rs & fl & w2 & -> & Hl);
      eexists _, _, w2; (split; [reflexivity|]); simpl; lia.
Qed.

Lemma batch_loop_app (pre post : list string) :
  forall (acc acc1 : list (dict Response) * list string) (w w1 : W),
    batch_loop process_documents pre acc w = (Ok acc1, w1) ->
    batch_loop process_documents (pre ++ post) acc w =
      batch_loop process_documents post acc1 w1.
Proof.
  induction pre as [|url pre IH]; intros acc acc1 w w1.
  - simpl. unfold ret. now intros [= -> ->].
  - cbn [batch_loop app]. unfold bind.
    destruct (batch_step process_documents url acc w) as [[acc'|e] w']; [|discriminate].
    apply IH.
Qed.

(** The response model keeps one record per item it is given. *)
Lemma validate_records_length (items : list (dict Response)) :
  forall records, validate_records as_dict items = Some records ->
                  length records = length items.
Proof.
  induction items as [|item items IH]; cbn [validate_records]; intros records.
  - now intros [= <-].
  - destruct (validate_record as_dict item) as [record|]; [|discriminate].
    destruct (validate_records as_dict items) as [rest|]; [|discriminate].
    intros [= <-]. cbn [length]. now rewrite (IH rest).
Qed.

(** What leaves the constructor of the response: a response that holds the
    validated records and the failed URLs as given, or a ValidationError. *)
Lemma new_OCRBatchResponse_cases (rs : list (dict Response)) (fl : list string) :
  match new_OCRBatchResponse as_dict validation_text rs fl with
  | Ok resp => validate_records as_dict rs = Some (results resp) /\ failed_urls resp = fl
  | Raise e => class_of e = Builtin "ValidationError" /\ validate_records as_dict rs = None
  end.
Proof.
  unfold new_OCRBatchResponse.
  destruct (validate_records as_dict rs) as [records|]; now split.
Qed.

(** The endpoint is the loop followed by the construction of the response. *)
Lemma process_batch_built (request : OCRBatchRequest) (rs : list (dict Response))
    (fl : list string) (w w' : W) :
  batch_loop process_documents (urls request) ([], []) w = (Ok (rs, fl), w') ->
  process_batch process_documents as_dict validation_text request w =
    (new_OCRBatchResponse as_dict validation_text rs fl, w').
Proof.
  intros H. unfold process_batch, bind, lift. now rewrite H.
Qed.

(** C10. When the dispatcher returns the empty sequence for a URL of the
    batch, raising nothing, that URL is appended to [failed_urls] and
    nothing to [results]; the URLs before and after it are processed as
    they would be, and the two lists still account for every URL once.
    The response is then made of these two lists: where its model accepts
    the records, the endpoint returns them with the URL among
    [failed_urls], and it returns nothing else. *)
Theorem empty_result_counts_as_failure (pre post : list string) (url : string)
    (images : bool) (rs1 : list (dict Response)) (fl1 : list string) (w w1 w2 : W) :
  batch_loop process_documents pre ([], []) w = (Ok (rs1, fl1), w1) ->
  process_documents url w1 = (Ok [], w2) ->
  let request := {| urls := pre ++ url :: post; include_images := images |} in
  exists rs2 fl2 w3,
    batch_loop process_documents post ([], []) w2 = (Ok (rs2, fl2), w3)
    /\ process_batch process_documents as_dict validation_text request w =
         (new_OCRBatchResponse as_dict validation_text (rs1 ++ rs2) (fl1 ++ url :: fl2), w3)
    /\ length (rs1 ++ rs2) + length (fl1 ++ url :: fl2) = length (pre ++ url :: post)
    /\ (forall records, validate_records as_dict (rs1 ++ rs2) = Some records ->
          process_batch process_documents as_dict validation_text request w =
            (Ok {| results := records; failed_urls := fl1 ++ url :: fl2 |}, w3)
          /\ length records + length (fl1 ++ url :: fl2) = length (pre ++ url :: post))
    /\ (forall resp w',
          process_batch process_documents as_dict validation_text request w = (Ok resp, w') ->
          failed_urls resp = (fl1 ++ url :: fl2)%list
          /\ length (results resp) + length (failed_urls resp) = length (urls request)).
Proof.
  intros Hpre Hurl request.
  destruct (batch_loop_total post w2) as (rs2 & fl2 & w3 & Hpost & Hl2).
  destruct (batch_loop_total pre w) as (rs1' & fl1' & w1' & Hpre' & Hl1).
  rewrite Hpre in Hpre'. injection Hpre' as <- <- <-.
  assert (Hloop : batch_loop process_documents (urls request) ([], []) w =
                  (Ok ((rs1 ++ rs2)%list, (fl1 ++ url :: fl2)%list), w3)).
  { cbn [urls request].
    rewrite (batch_loop_app pre (url :: post) _ _ w w1 Hpre).
    cbn [batch_loop]. unfold bind. rewrite batch_step_cases, Hurl.
    rewrite batch_loop_extends, Hpost. now rewrite <- app_assoc. }
  assert (Hlen : length (rs1 ++ rs2) + length (fl1 ++ url :: fl2) =
                 length (pre ++ url :: post)).
  { rewrite !length_app. simpl. lia. }
  pose proof (process_batch_built request _ _ w w3 Hloop) as Hb.
  pose proof (new_OCRBatchResponse_cases (rs1 ++ rs2) (fl1 ++ url :: fl2)) as Hc.
  exists rs2, fl2, w3. split; [exact Hpost|]. split; [exact Hb|]. split; [exact Hlen|].
  split.
  - intros records Hv. split.
    + rewrite Hb. unfold new_OCRBatchResponse. now rewrite Hv.
    + rewrite (validate_records_length _ _ Hv). exact Hlen.
  - intros resp w' H. rewrite Hb in H. injection H as H _. rewrite H in Hc.
    destruct Hc as [Hv ->]. split; [reflexivity|].
    rewrite (validate_records_length _ _ Hv). exact Hlen.
Qed.

End BatchLoop.

Section BatchClaims.
Import Api OCRService.
Context {W Response : Type}.
Variable fs : FileSystem.
Variable client : Client W Response.
Variable as_dict : Response -> option Response.
Variable validation_text : list (dict Response) -> string.

(** On URLs the batch makes one OCR call per URL, in order, and sorts
    the URLs by what their call did. *)
Lemma batch_loop_urls (urls : list string) :
  Forall (fun u => OCRConstants.is_url u = true) urls ->
  forall w : W,
    batch_loop (process_documents fs client) urls ([], []) w =
      (Ok (answered urls (call_each client urls w),
           refused urls (call_each client urls w)),
       world_after client urls w).
Proof.
  induction 1 as [|url urls U _ IH]; intros w; [reflexivity|].
  cbn [batch_loop]. unfold bind. rewrite batch_step_cases.
  rewrite (process_documents_url fs client url w U).
  cbn [call_each world_after].
  destruct (process_document client url w) as [[r|e] w1]; cbn [snd];
    rewrite batch_loop_extends, IH; reflexivity.
Qed.

Lemma partition_lengths (urls : list string) (outs : list (result Response)) :
  length outs = length urls ->
  length (answered urls outs) + length (refused urls outs) = length urls.
Proof.
  revert outs; induction urls as [|u urls IH]; intros [|[r|e] outs] H;
    simpl in *; try discriminate; try reflexivity;
    injection H as H; specialize (IH _ H); lia.
Qed.

Lemma partition_covers (urls : list string) (outs : list (result Response)) (u : string) :
  length outs = length urls ->
  In u urls ->
  In (Some u) (map label (answered urls outs)) \/ In u (refused urls outs).
Proof.
  revert outs; induction urls as [|v urls IH]; intros [|[r|e] outs] H Hu;
    simpl in *; try discriminate; try contradiction; injection H as H.
  - destruct Hu as [->|Hu]; [left; now left|].
    destruct (IH _ H Hu); [left; now right | now right].
  - destruct Hu as [->|Hu]; [right; now left|].
    destruct (IH _ H Hu); [now left | right; now right].
Qed.

Lemma answered_labels (urls : list string) (outs : list (result Response)) (u : string) :
  In (Some u) (map label (answered urls outs)) ->
  exists r, In (u, Ok r) (combine urls outs).
Proof.
  revert outs; induction urls as [|v urls IH]; intros [|[r|e] outs] H;
    simpl in H; try contradiction.
  - destruct H as [[= ->]|H]; [exists r; now left|].
    destruct (IH _ H) as [r' Hr]. exists r'. now right.
  - destruct (IH _ H) as [r' Hr]. exists r'. now right.
Qed.

Lemma refused_outcomes (urls : list string) (outs : list (result Response)) (u : string) :
  In u (refused urls outs) ->
  exists e, In (u, @Raise Response e) (combine urls outs).
Proof.
  revert outs; induction urls as [|v urls IH]; intros [|[r|e] outs] H;
    simpl in H; try contradiction.
  - destruct (IH _ H) as [e' He]. exists e'. now right.
  - destruct H as [->|H]; [exists e; now left|].
    destruct (IH _ H) as [e' He]. exists e'. now right.
Qed.

(** The records of the answered calls fit the response model when each
    answer is taken for a dictionary; the validated records carry the
    labels of the built ones. *)
Lemma validate_records_answered (urls : list string) (outs : list (result Response)) :
  (forall r, In (Ok r) outs -> as_dict r <> None) ->
  exists records,
    validate_records as_dict (answered urls outs) = Some records
    /\ map (fun rec => Some (file rec)) records = map label (answered urls outs).
Proof.
  revert outs; induction urls as [|u urls IH]; intros [|[r|e] outs] H;
    cbn [answered]; try (exists []; now split).
  - destruct (IH outs) as (records & Hv & Hl); [intros r' Hr'; apply H; now right|].
    destruct (as_dict r) as [d|] eqn:D; [|now elim (H r (or_introl eq_refl))].
    exists ({| file := u; response := d |} :: records). split.
    + cbn [validate_records]. unfold validate_record, outcome. cbn [getitem].
      rewrite !String.eqb_refl. cbn. rewrite D, Hv. reflexivity.
    + cbn [map file]. rewrite Hl. reflexivity.
  - apply IH. intros r' Hr'. apply H. now right.
Qed.

Lemma labels_some (records : list (OCRResponse Response)) (u : string) :
  In (Some u) (map (fun rec => Some (file rec)) records) <-> In u (map file records).
Proof.
  induction records as [|rec records IH]; [reflexivity|].
  cbn [map In]. rewrite IH. split; intros [H|H]; auto; left; congruence.
Qed.

(** C5, as the code has it.  For a request of 1 to 10 URLs the batch
    endpoint makes one OCR call per URL, in order, whatever fails, and
    builds its response from the records (labelled with the URL) of the
    calls that answered and from the URLs of the calls that raised.  When
    the response model accepts those records, each answer being taken for
    a dictionary, the endpoint returns: the two lengths add up to the
    number of URLs and every URL is in one of the lists.  When the URLs of
    the request are distinct, none is in both. *)
Theorem batch_partition (request : OCRBatchRequest) (w : W) :
  validate request = true ->
  let outs := call_each client (urls request) w in
  let built := answered (urls request) outs in
  let failed := refused (urls request) outs in
  process_batch (process_documents fs client) as_dict validation_text request w =
    (new_OCRBatchResponse as_dict validation_text built failed,
     world_after client (urls request) w)
  /\ length built + length failed = length (urls request)
  /\ ((forall r, In (Ok r) outs -> as_dict r <> None) ->
      exists resp,
        process_batch (process_documents fs client) as_dict validation_text request w =
          (Ok resp, world_after client (urls request) w)
        /\ validate_records as_dict built = Some (results resp)
        /\ map (fun rec => Some (file rec)) (results resp) = map label built
        /\ failed_urls resp = failed
        /\ length (results resp) + length (failed_urls resp) = length (urls request)
        /\ (forall u, In u (urls request) ->
              In u (map file (results resp)) \/ In u (failed_urls resp))
        /\ (NoDup (urls request) ->
            forall u, ~ (In u (map file (results resp)) /\ In u (failed_urls resp)))).
Proof.
  intros V outs built failed. unfold validate in V.
  apply Bool.andb_true_iff in V as [_ V].
  assert (U : Forall (fun u => OCRConstants.is_url u = true) (urls request)).
  { apply Forall_forall. now apply forallb_forall. }
  assert (Hl : length outs = length (urls request)) by apply call_each_length.
  assert (Hb : process_batch (process_documents fs client) as_dict validation_text request w =
               (new_OCRBatchResponse as_dict validation_text built failed,
                world_after client (urls request) w)).
  { unfold process_batch, bind, lift. now rewrite (batch_loop_urls _ U). }
  split; [exact Hb|]. split; [now apply partition_lengths|].
  intros A. destruct (validate_records_answered (urls request) outs A) as (records & Hv & Hlab).
  exists {| results := records; failed_urls := failed |}. cbn [results failed_urls].
  split; [|split; [exact Hv|split; [exact Hlab|split; [reflexivity|]]]].
  - rewrite Hb. unfold new_OCRBatchResponse, built. now rewrite Hv.
  - split; [|split].
    + rewrite (validate_records_length as_dict _ _ Hv). now apply partition_lengths.
    + intros u Hu. rewrite <- labels_some, Hlab. now apply partition_covers.
    + intros N u [Ha Hr]. rewrite <- labels_some, Hlab in Ha.
      apply answered_labels in Ha as [r Hr'].
      apply refused_outcomes in Hr as [e He].
      pose proof (combine_functional _ _ _ _ _ N Hr' He). discriminate.
Qed.

End BatchClaims.

(** ** The scenarios of the specification, run on the concrete world *)

Section Scenarios.
Import OCRService Api Scenario.

Example scenario_url :
  process_documents disk steady "https://example.com/doc.pdf" [] =
    (Ok [[("file", VStr "https://example.com/doc.pdf");
          ("response", VObj "text of https://example.com/doc.pdf")]],
     ["https://example.com/doc.pdf"]).
Proof. reflexivity. Qed.

Example scenario_mixed_dir :
  process_documents disk steady "/tmp/mixed_dir" [] =
    (Ok [[("file", VStr "a.pdf"); ("response", VObj "text of /tmp/mixed_dir/a.pdf")];
         [("file", VStr "c.png"); ("response", VObj "text of /tmp/mixed_dir/c.png")]],
     ["/tmp/mixed_dir/a.pdf"; "/tmp/mixed_dir/c.png"]).
Proof. reflexivity. Qed.

Example scenario_upper_case_extension :
  OCRConstants.is_supported_file "/scans/PAGE.TIFF" = true
  /\ OCRConstants.is_supported_file "/scans/page.txt" = false
  /\ OCRConstants.is_supported_file ".pdf" = true.
Proof. repeat split. Qed.

(** C1, as it was claimed, fails.  With a client that raises a
    RuntimeError for [a.pdf], the dispatcher does not return the record of
    [c.png]: it raises, and [c.png] is never sent to the OCR service.  With
    an APIError for the same file it does return that record. *)
Lemma unexpected_error_aborts_directory :
  process_documents disk (failing_on "/tmp/mixed_dir/a.pdf" refused) "/tmp/mixed_dir" [] =
    (Ok [outcome "c.png" "text of /tmp/mixed_dir/c.png"],
     ["/tmp/mixed_dir/a.pdf"; "/tmp/mixed_dir/c.png"])
  /\ process_documents disk (failing_on "/tmp/mixed_dir/a.pdf" boom) "/tmp/mixed_dir" [] =
    (Raise (Exn OCRToolError "Unexpected error processing documents: boom"),
     ["/tmp/mixed_dir/a.pdf"])
  /\ ~ (exists rs w',
          process_documents disk (failing_on "/tmp/mixed_dir/a.pdf" boom)
            "/tmp/mixed_dir" [] = (Ok rs, w')
          /\ In "/tmp/mixed_dir/c.png" w').
Proof.
  repeat split. intros (rs & w' & H & _). discriminate H.
Qed.

Lemma directory_failure_policy_witness :
  process_documents disk (failing_on "/tmp/mixed_dir/a.pdf" boom) "/tmp/mixed_dir" [] =
    (Raise (Exn OCRToolError "Unexpected error processing documents: boom"),
     ["/tmp/mixed_dir/a.pdf"]).
Proof.
  exact (directory_failure_policy disk (failing_on "/tmp/mixed_dir/a.pdf" boom)
           "/tmp/mixed_dir" ["a.pdf"; "b.txt"; "c.png"] [] ["/tmp/mixed_dir/c.png"]
           "/tmp/mixed_dir/a.pdf" [] boom [] [] ["/tmp/mixed_dir/a.pdf"]
           eq_refl eq_refl eq_refl eq_refl eq_refl eq_refl eq_refl).
Defined.

Lemma directory_success_count_witness :
  listdir disk "/tmp/mixed_dir" = inl ["a.pdf"; "b.txt"; "c.png"]
  /\ exists rs w',
       _process_directory disk (failing_on "/tmp/mixed_dir/c.png" refused)
         "/tmp/mixed_dir" [] = (Ok rs, w')
       /\ length rs = 2 - 1
       /\ map label rs = [Some "a.pdf"].
Proof.
  split; [reflexivity|].
  pose proof (directory_success_count disk (failing_on "/tmp/mixed_dir/c.png" refused)
                "/tmp/mixed_dir" ["a.pdf"; "b.txt"; "c.png"] [] eq_refl) as T.
  cbv zeta in T. destruct T as (T & _ & _).
  destruct (_process_directory disk (failing_on "/tmp/mixed_dir/c.png" refused)
              "/tmp/mixed_dir" []) as [[rs|e] w'].
  - destruct T as (_ & T1 & T2 & _). exists rs, w'.
    split; [reflexivity|]. split; [exact T1|]. rewrite T2. reflexivity.
  - destruct T as [T _]. discriminate T.
Defined.

Lemma url_check_precedes_filesystem_witness :
  isfile disk "http://files/scan.pdf" = true
  /\ isdir disk "http://files" = true
  /\ classify disk "http://files/scan.pdf" = UrlBranch
  /\ classify disk "http://files" = UrlBranch.
Proof.
  split; [reflexivity|]. split; [reflexivity|]. split.
  - apply (url_check_precedes_filesystem disk steady "http://files/scan.pdf" []).
    now left.
  - apply (url_check_precedes_filesystem disk steady "http://files" []).
    now left.
Defined.

Lemma invalid_input_iff_witness :
  process_documents disk (MistralClient.client sdk) "/does/not/exist" [] =
    (Raise (Exn InvalidInputError
              "Invalid input path: /does/not/exist. Must be a file, directory, or URL."),
     []).
Proof.
  apply (invalid_input_iff sdk disk "/does/not/exist" []); reflexivity.
Defined.

Lemma empty_directory_is_not_an_error_witness :
  process_documents disk steady "/tmp/notes" [] = (Ok [], [])
  /\ process_documents disk steady "/tmp/empty_dir" [] = (Ok [], []).
Proof.
  split.
  - apply (empty_directory_is_not_an_error disk steady "/tmp/notes" ["todo.txt"; "old"] []);
      try reflexivity.
    intros n [<-|[<-|[]]]; intros H; [reflexivity | discriminate H].
  - apply (empty_directory_is_not_an_error disk steady "/tmp/empty_dir" [] []);
      try reflexivity.
    intros n [].
Defined.

Lemma single_exception_family_witness :
  is_OCRToolError (Exn OCRToolError "Unexpected error processing documents: boom") = true.
Proof.
  apply (single_exception_family disk (failing_on "/tmp/mixed_dir/a.pdf" boom)
           "/tmp/mixed_dir" [])
    with (w' := ["/tmp/mixed_dir/a.pdf"]).
  reflexivity.
Defined.

Lemma outcome_records_shape_witness :
  process_documents disk steady "/tmp/report.pdf" [] =
    (Ok [outcome "/tmp/report.pdf" "text of /tmp/report.pdf"], ["/tmp/report.pdf"])
  /\ Forall (fun rec : dict string => keys rec = ["file"; "response"])
       [outcome "/tmp/report.pdf" "text of /tmp/report.pdf"].
Proof.
  split; [reflexivity|].
  apply (outcome_records_shape disk steady "/tmp/report.pdf" [] ["/tmp/report.pdf"]).
  reflexivity.
Defined.

Lemma empty_result_counts_as_failure_witness :
  let request :=
    {| urls := ["https://example.com/a.pdf"] ++
               "https://example.com/empty" :: ["https://example.com/b.pdf"];
       include_images := false |} in
  validate request = true
  /\ exists resp w',
       process_batch sparse plain_dict pydantic_text request [] = (Ok resp, w')
       /\ map file (results resp) = ["https://example.com/a.pdf"; "https://example.com/b.pdf"]
       /\ failed_urls resp = ["https://example.com/empty"]
       /\ length (results resp) + length (failed_urls resp) = length (urls request).
Proof.
  intros request. split; [reflexivity|].
  destruct (empty_result_counts_as_failure sparse plain_dict pydantic_text
              ["https://example.com/a.pdf"] ["https://example.com/b.pdf"]
              "https://example.com/empty" false
              [outcome "https://example.com/a.pdf" "text of https://example.com/a.pdf"] []
              [] ["https://example.com/a.pdf"]
              ["https://example.com/a.pdf"; "https://example.com/empty"]
              eq_refl eq_refl) as (rs2 & fl2 & w3 & _ & Hb & _ & _ & Hr).
  fold request in Hb, Hr.
  destruct (process_batch sparse plain_dict pydantic_text request []) as [[resp|e] w'] eqn:E.
  - destruct (Hr resp w' eq_refl) as [Hf Hl]. exists resp, w'.
    split; [reflexivity|]. split; [|split; [|exact Hl]].
    + vm_compute in E. injection E as <- _. reflexivity.
    + vm_compute in E. injection E as <- _. reflexivity.
  - vm_compute in E. discriminate E.
Defined.

(** C5, as it was claimed, fails twice.  For a request that repeats a URL,
    when the service answers the first call and refuses the second, the
    URL is the label of a record of [results] and an entry of
    [failed_urls].  And when the answer of the OCR call is an object that
    the response model does not take for a dictionary, the endpoint makes
    the call and then raises instead of returning the two lists. *)
Lemma repeated_url_in_both_lists :
  let u := "https://example.com/doc.pdf" in
  let request := {| urls := [u; u]; include_images := false |} in
  let single := {| urls := [u]; include_images := false |} in
  validate request = true
  /\ (exists resp w',
        process_batch (process_documents disk once_only) plain_dict pydantic_text request [] =
          (Ok resp, w')
        /\ length (results resp) + length (failed_urls resp) = length (urls request)
        /\ In u (map file (results resp))
        /\ In u (failed_urls resp))
  /\ validate single = true
  /\ process_batch (process_documents disk steady) sdk_object pydantic_text single [] =
       (Raise (Exn (Builtin "ValidationError") "validation errors for OCRBatchResponse"), [u]).
Proof.
  split; [reflexivity|]. split.
  - eexists _, _. split; [reflexivity|].
    repeat split; simpl; now left.
  - split; reflexivity.
Qed.

Lemma batch_partition_witness :
  let request :=
    {| urls := ["https://example.com/a.pdf"; "https://example.com/b.pdf"];
       include_images := false |} in
  validate request = true
  /\ exists resp,
       process_batch
         (process_documents disk (failing_on "https://example.com/b.pdf" refused))
         plain_dict pydantic_text request [] =
         (Ok resp, ["https://example.com/a.pdf"; "https://example.com/b.pdf"])
       /\ map file (results resp) = ["https://example.com/a.pdf"]
       /\ failed_urls resp = ["https://example.com/b.pdf"].
Proof.
  intros request. split; [reflexivity|].
  destruct (batch_partition disk (failing_on "https://example.com/b.pdf" refused)
              plain_dict pydantic_text request [] eq_refl) as (_ & _ & H).
  destruct H as (resp & H & Hv & _ & Hf & _).
  - intros r _. discriminate.
  - exists resp. split; [exact H|]. rewrite Hf. split; [|reflexivity].
    remember (results resp) as records. vm_compute in Hv. injection Hv as <-.
    reflexivity.
Defined.

End Scenarios.

(** ** Output persistence: the JSON text and its reading back *)

Section JsonText.
Import Json.

Lemma scan_string_escape_char (c : ascii) (t : string) :
  scan_string (escape_char c ++ t) = cons_char c (scan_string t).
Proof.
  destruct c as [[] [] [] [] [] [] [] []]; reflexivity.
Qed.

Lemma scan_string_escape (s rest : string) :
  scan_string (escape s ++ String DQUOTE rest) = Some (s, rest).
Proof.
  induction s as [|c s IH]; [reflexivity|].
  cbn [escape]. rewrite app_string_assoc, scan_string_escape_char, IH. reflexivity.
Qed.

Lemma delimited_facts (rest : string) :
  delimited rest ->
  first_is "0" rest = false /\ fst (span_digits rest) = "" /\ snd (span_digits rest) = rest
  /\ (first_is "." rest || first_is "e" rest || first_is "E" rest) = false.
Proof.
  intros [->|[H|H]]; [now repeat split| |];
    destruct rest as [|c rest]; try discriminate; simpl in H;
    apply Ascii.eqb_eq in H; subst c; now repeat split.
Qed.

Lemma span_digits_uint (d : Decimal.uint) (rest : string) :
  delimited rest ->
  span_digits (DecimalString.NilEmpty.string_of_uint d ++ rest) = (DecimalString.NilEmpty.string_of_uint d, rest).
Proof.
  intros H. destruct (delimited_facts rest H) as (_ & H1 & H2 & _).
  induction d; simpl; rewrite ?IHd; try reflexivity.
  destruct (span_digits rest) as [ds r]. simpl in H1, H2. now subst.
Qed.

Lemma to_uint_stable (p : positive) : Decimal.unorm (Pos.to_uint p) = Pos.to_uint p.
Proof.
  rewrite <- DecimalPos.Unsigned.to_of, DecimalPos.Unsigned.of_to. reflexivity.
Qed.

(** The decimal text of a positive number starts with a digit other than 0. *)
Lemma to_uint_head (p : positive) :
  exists c r, DecimalString.NilEmpty.string_of_uint (Pos.to_uint p) = String c r
              /\ is_digit c = true /\ Ascii.eqb c "0" = false /\ Ascii.eqb c "-" = false.
Proof.
  pose proof (to_uint_stable p) as U.
  pose proof (DecimalPos.Unsigned.to_uint_nonzero p) as Hz.
  pose proof (DecimalPos.Unsigned.to_uint_nonnil p) as Hn.
  destruct (Pos.to_uint p) as [|d|d|d|d|d|d|d|d|d|d] eqn:E;
    try (eexists _, _; split; [reflexivity | now repeat split]).
  - contradiction.
  - exfalso. rewrite DecimalFacts.unorm_D0 in U.
    assert (Hd : d = Decimal.Nil \/ d <> Decimal.Nil)
      by (destruct d; [now left | right; discriminate ..]).
    destruct Hd as [->|Hd]; [now apply Hz|].
    pose proof (DecimalFacts.nb_digits_unorm d Hd) as L.
    rewrite U in L. simpl in L. lia.
Qed.

Lemma parse_number_repr (z : Z) (rest : string) :
  delimited rest ->
  parse_number (repr_int z ++ rest) = Some (Int z, rest).
Proof.
  intros H. pose proof (delimited_facts rest H) as (_ & _ & _ & F).
  assert (Pp : forall p,
             parse_number (DecimalString.NilEmpty.string_of_uint (Pos.to_uint p) ++ rest) =
               Some (Int (Zpos p), rest)).
  { intros p. unfold parse_number.
    destruct (to_uint_head p) as (c & r & E & D & Hz & Hm).
    assert (F1 : first_is "-" (DecimalString.NilEmpty.string_of_uint (Pos.to_uint p) ++ rest) = false)
      by (rewrite E; exact Hm).
    assert (F2 : first_is "0" (DecimalString.NilEmpty.string_of_uint (Pos.to_uint p) ++ rest) = false)
      by (rewrite E; exact Hz).
    rewrite F1, F2, (span_digits_uint _ _ H), F.
    rewrite DecimalString.NilEmpty.usu. rewrite E at 1.
    unfold Z.of_uint. now rewrite DecimalPos.Unsigned.of_to. }
  destruct z as [|p|p]; cbn [repr_int].
  - unfold parse_number. cbn. now rewrite F.
  - apply Pp.
  - unfold parse_number.
    change (first_is "-" (String "-" (DecimalString.NilEmpty.string_of_uint (Pos.to_uint p)) ++ rest))
      with true.
    cbn [behead append].
    specialize (Pp p). unfold parse_number in Pp.
    destruct (to_uint_head p) as (c & r & E & D & Hz & Hm).
    assert (F1 : first_is "-" (DecimalString.NilEmpty.string_of_uint (Pos.to_uint p) ++ rest) = false)
      by (rewrite E; exact Hm).
    rewrite F1 in Pp.
    destruct (if first_is "0" _ then _ else _) as [ds rest'].
    destruct (first_is "." rest' || first_is "e" rest' || first_is "E" rest');
      [discriminate|].
    destruct ds; [discriminate|].
    destruct (DecimalString.NilEmpty.uint_of_string _); [|discriminate].
    injection Pp as -> ->. reflexivity.
Qed.

Lemma encode_arr (level : nat) (x : value) (xs : list value) :
  encode level (Arr (x :: xs)) =
    String "[" (newline_indent (S level) ++ encode (S level) x
                ++ encode_items (S level) xs ++ newline_indent level ++ "]").
Proof.
  cbn [encode append]. do 4 f_equal.
  induction xs as [|y ys IH]; [reflexivity|].
  cbn [encode_items append]. now rewrite IH.
Qed.

Lemma encode_obj (level : nat) (k : string) (x : value) (ms : list (string * value)) :
  encode level (Obj ((k, x) :: ms)) =
    String "{" (newline_indent (S level) ++ encode_string k ++ ": " ++ encode (S level) x
                ++ encode_members (S level) ms ++ newline_indent level ++ "}").
Proof.
  cbn [encode append]. do 7 f_equal.
  induction ms as [|[k' y] ys IH]; [reflexivity|].
  cbn [encode_members append]. now rewrite IH.
Qed.

Lemma repr_int_head (z : Z) :
  exists c r, repr_int z = String c r /\ (Ascii.eqb c "-" || is_digit c) = true.
Proof.
  destruct z as [|p|p]; cbn [repr_int].
  - now eexists _, _.
  - destruct (to_uint_head p) as (c & r & E & D & _). exists c, r.
    split; [exact E|]. rewrite D. apply Bool.orb_true_r.
  - now eexists _, _.
Qed.

Lemma encode_head (level : nat) (v : value) :
  exists c r, encode level v = String c r /\ opener c = true.
Proof.
  destruct v as [|[]|z|s|[|x xs]|[|[k x] ms]];
    try (now eexists _, _).
  destruct (repr_int_head z) as (c & r & E & D). exists c, r. split; [exact E|].
  unfold opener. rewrite !Bool.orb_true_iff in *. destruct D; auto.
Qed.

Lemma opener_facts (c : ascii) :
  opener c = true ->
  is_ws c = false /\ Ascii.eqb c "]" = false /\ Ascii.eqb c "}" = false.
Proof.
  destruct c as [[] [] [] [] [] [] [] []]; intros H; try discriminate H; now repeat split.
Qed.

Lemma skip_ws_encode (level : nat) (v : value) (u : string) :
  skip_ws (encode level v ++ u) = encode level v ++ u.
Proof.
  destruct (encode_head level v) as (c & r & -> & H).
  apply opener_facts in H as (H & _). cbn [append skip_ws]. now rewrite H.
Qed.

Lemma first_is_encode (level : nat) (v : value) (u : string) :
  first_is "]" (encode level v ++ u) = false /\ first_is "}" (encode level v ++ u) = false.
Proof.
  destruct (encode_head level v) as (c & r & -> & H).
  apply opener_facts in H as (_ & H1 & H2). cbn [append first_is]. now split.
Qed.

Lemma skip_ws_spaces (n : nat) (u : string) : skip_ws (spaces n ++ u) = skip_ws u.
Proof. induction n as [|n IH]; [reflexivity | exact IH]. Qed.

Lemma skip_ws_newline_indent (level : nat) (u : string) :
  skip_ws (newline_indent level ++ u) = skip_ws u.
Proof. unfold newline_indent. cbn [append skip_ws]. apply skip_ws_spaces. Qed.

Lemma length_app_string (a b : string) :
  String.length (a ++ b) = String.length a + String.length b.
Proof. induction a as [|c a IH]; simpl; [reflexivity | now rewrite IH]. Qed.

Lemma encode_nonempty (level : nat) (v : value) : 1 <= String.length (encode level v).
Proof. destruct (encode_head level v) as (c & r & -> & _). simpl. lia. Qed.

(** One unfolding of each parser. *)
Lemma parse_value_string (f : nat) (t : string) :
  parse_value (S f) (String DQUOTE t) =
    match scan_string t with
    | Some (u, rest) => Some (Str u, rest)
    | None => None
    end.
Proof. reflexivity. Qed.

Lemma parse_value_arr (f : nat) (t : string) :
  parse_value (S f) (String "[" t) =
    if first_is "]" (skip_ws t) then Some (Arr [], behead (skip_ws t))
    else parse_elements f (skip_ws t) [].
Proof. reflexivity. Qed.

Lemma parse_value_obj (f : nat) (t : string) :
  parse_value (S f) (String "{" t) =
    if first_is "}" (skip_ws t) then Some (Obj [], behead (skip_ws t))
    else parse_members f (skip_ws t) [].
Proof. reflexivity. Qed.

Lemma parse_value_number (f : nat) (c : ascii) (r : string) :
  (Ascii.eqb c "-" || is_digit c) = true ->
  parse_value (S f) (String c r) = parse_number (String c r).
Proof.
  destruct c as [[] [] [] [] [] [] [] []]; intros H; try discriminate H; reflexivity.
Qed.

Lemma parse_elements_step (f : nat) (s : string) (acc : list value) :
  parse_elements (S f) s acc =
    match parse_value f s with
    | Some (v, s1) =>
        if first_is "]" (skip_ws s1) then Some (Arr (rev (v :: acc)), behead (skip_ws s1))
        else if first_is "," (skip_ws s1) then
          parse_elements f (skip_ws (behead (skip_ws s1))) (v :: acc)
        else None
    | None => None
    end.
Proof. reflexivity. Qed.

Lemma parse_members_step (f : nat) (t : string) (acc : list (string * value)) :
  parse_members (S f) (String DQUOTE t) acc =
    match scan_string t with
    | Some (k, s1) =>
        if first_is ":" (skip_ws s1) then
          match parse_value f (skip_ws (behead (skip_ws s1))) with
          | Some (v, s3) =>
              if first_is "}" (skip_ws s3) then
                Some (Obj (rev ((k, v) :: acc)), behead (skip_ws s3))
              else if first_is "," (skip_ws s3) then
                parse_members f (skip_ws (behead (skip_ws s3))) ((k, v) :: acc)
              else None
          | None => None
          end
        else None
    | None => None
    end.
Proof. reflexivity. Qed.

Lemma delimited_items (level lvl : nat) (xs : list value) (c : ascii) (rest : string) :
  delimited (encode_items level xs ++ newline_indent lvl ++ String c rest).
Proof. destruct xs; [right; right | right; left]; reflexivity. Qed.

Lemma delimited_members (level lvl : nat) (ms : list (string * value)) (c : ascii)
    (rest : string) :
  delimited (encode_members level ms ++ newline_indent lvl ++ String c rest).
Proof. destruct ms as [|[k y] ms]; [right; right | right; left]; reflexivity. Qed.

Lemma skip_ws_closing (lvl : nat) (c : ascii) (rest : string) :
  is_ws c = false ->
  skip_ws (newline_indent lvl ++ String c rest) = String c rest.
Proof. intros H. rewrite skip_ws_newline_indent. cbn [skip_ws]. now rewrite H. Qed.

Lemma newline_indent_length (level : nat) : 1 <= String.length (newline_indent level).
Proof. unfold newline_indent. cbn [String.length]. lia. Qed.

(** The texts, with what follows them pushed inside. *)
Lemma arr_text (level : nat) (x : value) (xs : list value) (rest : string) :
  encode level (Arr (x :: xs)) ++ rest =
    String "[" (newline_indent (S level) ++ encode (S level) x
                ++ encode_items (S level) xs ++ newline_indent level ++ String "]" rest).
Proof. rewrite encode_arr. repeat first [rewrite app_string_assoc | progress cbn [append]]. reflexivity. Qed.

Lemma obj_text (level : nat) (k : string) (x : value) (ms : list (string * value))
    (rest : string) :
  encode level (Obj ((k, x) :: ms)) ++ rest =
    String "{" (newline_indent (S level) ++ encode_string k ++ ": " ++ encode (S level) x
                ++ encode_members (S level) ms ++ newline_indent level ++ String "}" rest).
Proof. rewrite encode_obj. repeat first [rewrite app_string_assoc | progress cbn [append]]. reflexivity. Qed.

Lemma items_text (level : nat) (y : value) (ys : list value) (tail : string) :
  encode_items level (y :: ys) ++ tail =
    String "," (newline_indent level ++ encode level y ++ encode_items level ys ++ tail).
Proof. cbn [encode_items]. repeat first [rewrite app_string_assoc | progress cbn [append]]. reflexivity. Qed.

Lemma members_text (level : nat) (k : string) (y : value) (ms : list (string * value))
    (tail : string) :
  encode_members level ((k, y) :: ms) ++ tail =
    String "," (newline_indent level ++ encode_string k ++ ": " ++ encode level y
                ++ encode_members level ms ++ tail).
Proof. cbn [encode_members]. repeat first [rewrite app_string_assoc | progress cbn [append]]. reflexivity. Qed.

Lemma skip_ws_key (k u : string) : skip_ws (encode_string k ++ u) = encode_string k ++ u.
Proof. exact (skip_ws_encode 0 (Str k) u). Qed.

Lemma first_is_key (k u : string) : first_is "}" (encode_string k ++ u) = false.
Proof. exact (proj2 (first_is_encode 0 (Str k) u)). Qed.

Lemma value_step (f : nat) :
  value_round_trip f -> items_round_trip f -> members_round_trip f ->
  value_round_trip (S f).
Proof.
  intros PV PE PM v level rest Hlen Hd.
  destruct v as [|[]|z|s|[|x xs]|[|[k x] ms]]; try reflexivity.
  - destruct (repr_int_head z) as (c & r & E & D).
    cbn [encode]. rewrite <- (parse_number_repr z rest Hd). rewrite E.
    cbn [append]. now apply parse_value_number.
  - cbn [encode]. unfold encode_string. cbn [append].
    rewrite parse_value_string, app_string_assoc. cbn [append].
    now rewrite scan_string_escape.
  - rewrite arr_text, parse_value_arr, skip_ws_newline_indent, skip_ws_encode.
    destruct (first_is_encode (S level) x
                (encode_items (S level) xs ++ newline_indent level ++ String "]" rest))
      as [-> _].
    rewrite (PE x xs (S level) level rest []); [reflexivity|].
    rewrite encode_arr in Hlen.
    cbn [String.length] in Hlen. rewrite !length_app_string in *.
    pose proof (newline_indent_length level). lia.
  - rewrite obj_text, parse_value_obj, skip_ws_newline_indent, skip_ws_key, first_is_key.
    rewrite (PM k x ms (S level) level rest []); [reflexivity|].
    rewrite encode_obj in Hlen.
    cbn [String.length] in Hlen. rewrite !length_app_string in *.
    pose proof (newline_indent_length level). lia.
Qed.

Lemma skip_ws_stop (c : ascii) (r : string) :
  is_ws c = false -> skip_ws (String c r) = String c r.
Proof. intros H. cbn [skip_ws]. now rewrite H. Qed.

Lemma skip_ws_go (c : ascii) (r : string) :
  is_ws c = true -> skip_ws (String c r) = skip_ws r.
Proof. intros H. cbn [skip_ws]. now rewrite H. Qed.

Lemma first_is_cons (c d : ascii) (r : string) : first_is c (String d r) = Ascii.eqb d c.
Proof. reflexivity. Qed.

Lemma behead_cons (d : ascii) (r : string) : behead (String d r) = r.
Proof. reflexivity. Qed.

Lemma items_step (f : nat) :
  value_round_trip f -> items_round_trip f -> items_round_trip (S f).
Proof.
  intros PV PE x xs level lvl rest acc Hlen.
  rewrite length_app_string in Hlen.
  rewrite parse_elements_step, PV; [|lia|apply delimited_items].
  destruct xs as [|y ys].
  - cbn [encode_items append]. rewrite skip_ws_closing by reflexivity.
    rewrite first_is_cons, behead_cons. reflexivity.
  - rewrite items_text, skip_ws_stop by reflexivity.
    rewrite !first_is_cons, behead_cons.
    change (Ascii.eqb "," "]") with false. change (Ascii.eqb "," ",") with true. cbv iota.
    rewrite skip_ws_newline_indent, skip_ws_encode.
    rewrite (PE y ys level lvl rest (x :: acc)).
    + cbn [rev]. now rewrite <- app_assoc.
    + cbn [encode_items] in Hlen. cbn [append String.length] in Hlen.
      rewrite !length_app_string in *. pose proof (encode_nonempty level x). lia.
Qed.

Lemma members_step (f : nat) :
  value_round_trip f -> members_round_trip f -> members_round_trip (S f).
Proof.
  intros PV PM k x ms level lvl rest acc Hlen.
  unfold encode_string at 1. cbn [append].
  rewrite parse_members_step, app_string_assoc. cbn [append].
  rewrite scan_string_escape.
  rewrite skip_ws_stop by reflexivity.
  rewrite first_is_cons, behead_cons.
  change (Ascii.eqb ":" ":") with true. cbv iota.
  rewrite skip_ws_go by reflexivity. rewrite skip_ws_encode.
  rewrite !length_app_string in Hlen.
  rewrite PV; [|lia|apply delimited_members].
  destruct ms as [|[k' y] ms'].
  - cbn [encode_members append]. rewrite skip_ws_closing by reflexivity.
    rewrite first_is_cons, behead_cons. reflexivity.
  - rewrite members_text, skip_ws_stop by reflexivity.
    rewrite !first_is_cons, behead_cons.
    change (Ascii.eqb "," "}") with false. change (Ascii.eqb "," ",") with true. cbv iota.
    rewrite skip_ws_newline_indent, skip_ws_key.
    rewrite (PM k' y ms' level lvl rest ((k, x) :: acc)).
    + cbn [rev]. now rewrite <- app_assoc.
    + cbn [encode_members] in Hlen. cbn [append String.length] in Hlen.
      rewrite !length_app_string in *.
      assert (1 <= String.length (encode_string k))
        by (unfold encode_string; cbn [String.length]; lia).
      cbn [String.length] in *. rewrite !length_app_string in *. lia.
Qed.

Lemma round_trip_all (f : nat) :
  value_round_trip f /\ items_round_trip f /\ members_round_trip f.
Proof.
  induction f as [|f (PV & PE & PM)].
  - repeat split.
    + intros v level rest H. pose proof (encode_nonempty level v). lia.
    + intros x xs level lvl rest acc H. lia.
    + intros k x ms level lvl rest acc H. lia.
  - repeat split.
    + now apply value_step.
    + now apply items_step.
    + now apply members_step.
Qed.

Lemma string_app_empty (s : string) : s ++ "" = s.
Proof. induction s as [|c s IH]; simpl; [reflexivity | now rewrite IH]. Qed.

Lemma loads_dumps (v : value) : loads (dumps v) = Some v.
Proof.
  unfold loads, dumps.
  rewrite <- (string_app_empty (encode 0 v)) at 2.
  rewrite skip_ws_encode.
  destruct (round_trip_all (2 * String.length (encode 0 v) + 2)) as (PV & _).
  rewrite PV; [reflexivity | lia | now left].
Qed.

End JsonText.

Section PersistenceClaims.
Import FileHandler.
Context {Response : Type}.
Variable out : Output.
Variable model_dump : Response -> Json.value.

Lemma structured_all_outcomes (records : list (string * Response)) :
  structured_all model_dump
    (map (fun rec => OCRService.outcome (fst rec) (snd rec)) records) =
    Ok (map (fun rec => (VStr (fst rec), model_dump (snd rec))) records).
Proof.
  induction records as [|[l r] records IH]; [reflexivity|].
  cbn [map structured_all fst snd]. rewrite IH. reflexivity.
Qed.

Lemma serializable_outcomes (records : list (string * Response)) :
  serializable (map (fun rec => (@VStr Response (fst rec), model_dump (snd rec))) records) =
    Some (map (fun rec => Json.Obj [("file", Json.Str (fst rec));
                                    ("response", model_dump (snd rec))]) records).
Proof.
  induction records as [|[l r] records IH]; [reflexivity|].
  cbn [map serializable fst snd]. rewrite IH. reflexivity.
Qed.


End PersistenceClaims.

Section PersistenceScenarios.
Import FileHandler Scenario.

Example dumps_empty_list : Json.dumps (Json.Arr []) = "[]".
Proof. reflexivity. Qed.

Example dumps_indents_by_four :
  Json.dumps (Json.Arr [Json.Int 1; Json.Arr [Json.Null]]) =
    String "[" (String Json.LF ("    1," ++ String Json.LF ("    [" ++ String Json.LF
      ("        null" ++ String Json.LF ("    ]" ++ String Json.LF "]"))))).
Proof. reflexivity. Qed.

Example loads_accepts_other_layouts :
  Json.loads "[ {} , [-12, 0] ,true ]" =
    Some (Json.Arr [Json.Obj []; Json.Arr [Json.Int (-12); Json.Int 0]; Json.Boolean true])
  /\ Json.loads "[01]" = None
  /\ Json.loads "[1] x" = None.
Proof. repeat split. Qed.

Example save_output_permission_denied :
  save_output output text_dump [OCRService.outcome "a.pdf" "hello"] "/etc/ocr.json" no_files =
    (Raise (Exn FileError "Permission denied: /etc/ocr.json (Path: /etc/ocr.json)"), no_files).
Proof. reflexivity. Qed.


End PersistenceScenarios.

(** * Further properties of the sources *)

(** ** The Mistral client on its own *)

Section ClientBehaviour.
Import OCRService.
Context {W Response FileId : Type}.
Variable sdk : MistralClient.Sdk W Response FileId.
Variable fs : FileSystem.

(** X1. A local path whose extension is not supported is refused by the
    client with UnsupportedFileTypeError before anything is sent: the world
    is left as it was.  Given as a single existing file to the dispatcher,
    the same error reaches the caller unchanged. *)
Theorem unsupported_file_is_refused_locally (p : string) (w : W) :
  OCRConstants.is_url p = false ->
  OCRConstants.is_supported_file p = false ->
  MistralClient.process_document sdk p w =
    (Raise (Exn UnsupportedFileTypeError (with_path "Unsupported file type" (Some p))), w)
  /\ (isfile fs p = true ->
      process_documents fs (MistralClient.client sdk) p w =
        (Raise (Exn UnsupportedFileTypeError (with_path "Unsupported file type" (Some p))),
         w)).
Proof.
  intros U S.
  assert (E : MistralClient.process_document sdk p w =
              (Raise (Exn UnsupportedFileTypeError
                        (with_path "Unsupported file type" (Some p))), w)).
  { unfold MistralClient.process_document, try_except. rewrite U, S. reflexivity. }
  split; [exact E|].
  intros F. rewrite (process_documents_file fs _ p w U F).
  cbn [process_document MistralClient.client]. rewrite E. reflexivity.
Qed.

(** X2. When reading or uploading a supported local file fails, the client
    raises a FileError, whatever was raised underneath: "File not found" for
    FileNotFoundError, "Permission denied" for PermissionError, "Error
    reading file" with the text of any other exception.  The OCR request is
    not made. *)
Theorem upload_failure_is_file_error (p : string) (w w1 : W) (e : exn) :
  OCRConstants.is_url p = false ->
  OCRConstants.is_supported_file p = true ->
  MistralClient.files_upload sdk p (Py.basename p) MistralClient.OCR_PURPOSE w =
    (Raise e, w1) ->
  MistralClient.process_document sdk p w =
    (Raise (Exn FileError
              (with_path
                 (if is_builtin "FileNotFoundError" e then "File not found: " ++ p
                  else if is_builtin "PermissionError" e then "Permission denied: " ++ p
                  else "Error reading file: " ++ str e)
                 (Some p))), w1).
Proof.
  intros U S H.
  unfold MistralClient.process_document, MistralClient.upload, try_except, bind.
  rewrite U, S. cbn [negb]. rewrite H.
  destruct (is_builtin "FileNotFoundError" e); [reflexivity|].
  destruct (is_builtin "PermissionError" e); reflexivity.
Qed.

(** X3. Whatever the SDK does, a failure of the client is an error of the
    OCRToolError family, of class FileError, UnsupportedFileTypeError or
    APIError; no other exception leaves [process_document]. *)
Theorem client_failures_are_tool_errors (p : string) (w w' : W) (e : exn) :
  MistralClient.process_document sdk p w = (Raise e, w') ->
  is_OCRToolError e = true
  /\ (class_of e = FileError \/ class_of e = UnsupportedFileTypeError
      \/ class_of e = APIError).
Proof.
  intros H. destruct (client_never_invalid_input sdk p w w' e H) as [T _].
  split; [exact T|].
  destruct (client_raises_file_or_api sdk p w w' e H) as [F|A]; [|auto].
  unfold is_FileError in F. destruct (class_of e); try discriminate; auto.
Qed.

(** X4. The client answers exactly in two ways: for a URL, when the OCR
    request on the URL answers (no extension check, no upload); for a
    local path, when the extension is supported, the upload answers an id
    and the OCR request on that id answers.  The answer is the SDK's. *)
Theorem client_success_iff (p : string) (w w' : W) (r : Response) :
  MistralClient.process_document sdk p w = (Ok r, w') <->
  (OCRConstants.is_url p = true
   /\ MistralClient.ocr_process sdk (MistralClient.document_url p) w = (Ok r, w'))
  \/ (OCRConstants.is_url p = false
      /\ OCRConstants.is_supported_file p = true
      /\ exists id w1,
           MistralClient.files_upload sdk p (Py.basename p) MistralClient.OCR_PURPOSE w =
             (Ok id, w1)
           /\ MistralClient.ocr_process sdk (MistralClient.file_id id) w1 = (Ok r, w')).
Proof.
  unfold MistralClient.process_document, MistralClient.upload, try_except, bind, ret, raise.
  destruct (OCRConstants.is_url p) eqn:U.
  - destruct (MistralClient.ocr_process sdk (MistralClient.document_url p) w)
      as [[r0|e] w0] eqn:E.
    + split.
      * intros [= -> ->]. left. now split.
      * intros [[_ H]|[H _]]; [exact H | discriminate].
    + split.
      * destruct (is_FileError e); [discriminate|].
        destruct (Py.contains (str e) "Mistral API"); discriminate.
      * intros [[_ H]|[H _]]; discriminate.
  - destruct (OCRConstants.is_supported_file p) eqn:S; cbn [negb].
    + destruct (MistralClient.files_upload sdk p (Py.basename p)
                  MistralClient.OCR_PURPOSE w) as [[id|e] w1] eqn:Up.
      * destruct (MistralClient.ocr_process sdk (MistralClient.file_id id) w1)
          as [[r0|e] w0] eqn:E.
        -- split.
           ++ intros [= -> ->]. right. repeat split. now exists id, w1.
           ++ intros [[H _]|(_ & _ & id' & w1' & [= <- <-] & H)]; [discriminate|].
              rewrite E in H. exact H.
        -- split.
           ++ destruct (is_FileError e); [discriminate|].
              destruct (Py.contains (str e) "Mistral API"); discriminate.
           ++ intros [[H _]|(_ & _ & id' & w1' & [= <- <-] & H)]; [discriminate|].
              rewrite E in H. discriminate.
      * split.
        -- destruct (is_builtin "FileNotFoundError" e);
             [|destruct (is_builtin "PermissionError" e)]; discriminate.
        -- intros [[H _]|(_ & _ & id' & w1' & H & _)]; discriminate.
    + split; [discriminate|].
      intros [[H _]|(_ & H & _)]; discriminate.
Qed.

Lemma call_each_In {R : Type} (client : Client W R) (files : list string) :
  forall (w : W) (o : result R),
    In o (call_each client files w) ->
    exists f w0, In f files /\ fst (process_document client f w0) = o.
Proof.
  induction files as [|f files IH]; intros w o H; [contradiction|].
  cbn [call_each] in H.
  destruct (process_document client f w) as [o0 w0] eqn:E.
  destruct H as [<-|H].
  - exists f, w. split; [now left | now rewrite E].
  - destruct (IH _ _ H) as (f' & w1 & Hf & Ho). exists f', w1. split; [now right | exact Ho].
Qed.

(** X5. With the Mistral client, a directory that can be listed is always
    processed to the end: whatever fails for single files, the dispatcher
    returns a sequence, at most one record per supported child file. *)
Theorem directory_with_mistral_client_returns (d : string) (names : list string) (w : W) :
  OCRConstants.is_url d = false ->
  isfile fs d = false ->
  isdir fs d = true ->
  listdir fs d = inl names ->
  exists rs w',
    process_documents fs (MistralClient.client sdk) d w = (Ok rs, w')
    /\ length rs <=
         length (filter (fun n => OCRConstants.is_supported_file (Py.join d n))
                   (filter (fun n => isfile fs (Py.join d n)) names)).
Proof.
  intros U F D L.
  rewrite (process_documents_directory fs _ d w U F D).
  rewrite (process_directory_loop fs _ d names w L).
  set (supported := filter _ (filter _ names)).
  pose proof (for_each_file_run (MistralClient.client sdk)
                (map (Py.join d) supported) [] w) as R.
  cbv zeta in R.
  destruct (for_each_file (MistralClient.client sdk) (map (Py.join d) supported) [] w)
    as [[rs|e] w'].
  - destruct R as (_ & -> & _). exists (successes (map (Py.join d) supported)
      (call_each (MistralClient.client sdk) (map (Py.join d) supported) w)), w'.
    split; [reflexivity|].
    cbn [app]. rewrite successes_length by apply call_each_length.
    rewrite length_map. lia.
  - exfalso. destruct R as [R _].
    apply existsb_exists in R as (o & Ho & Hu).
    apply call_each_In in Ho as (f & w0 & _ & Ho).
    cbn [process_document MistralClient.client] in Ho.
    destruct (MistralClient.process_document sdk f w0) as [[r|e0] w1] eqn:E;
      cbn [fst] in Ho; subst o; [discriminate Hu|].
    apply client_never_invalid_input in E as [T _].
    cbn [unexpected] in Hu. now rewrite T in Hu.
Qed.

End ClientBehaviour.

(** ** Output persistence beyond the round trip *)

Section SaveOutputBehaviour.
Import FileHandler.
Context {Response : Type}.
Variable out : Output.
Variable model_dump : Response -> Json.value.








End SaveOutputBehaviour.

(** ** Opening files safely *)

Section SafeOpenBehaviour.
Import SafeOpen.
Variable os : Os.
Context {A : Type}.

(** [str(Path(p))] is never empty. *)
Lemma path_str_not_empty (p : string) : String.eqb (Pathlib.str p) "" = false.
Proof.
  unfold Pathlib.str.
  destruct (String.eqb (Pathlib.root p ++ Pathlib.join_parts (Pathlib.parts p)) "") eqn:E;
    [reflexivity | exact E].
Qed.

(** X10. Whatever goes wrong inside [safe_open] surfaces as a FileError
    that names the path as [Path] prints it: a refusal of the directory,
    of the file or of its closing, and also any exception raised by the
    caller's own block, even one of the OCRToolError family. *)
Theorem safe_open_failures_are_file_errors (file_path mode : string)
    (block : string -> M trace A) (w w' : trace) (e : exn) :
  safe_open os file_path mode block w = (Raise e, w') ->
  class_of e = FileError
  /\ exists message, str e = message ++ " (Path: " ++ Pathlib.str file_path ++ ")".
Proof.
  unfold safe_open, try_except.
  match goal with |- context [match ?c w with _ => _ end] => destruct (c w) as [[a|e0] w0] end;
    [discriminate|].
  unfold raise, new_FileError, with_path. rewrite path_str_not_empty.
  destruct (is_builtin "FileNotFoundError" e0);
    [|destruct (is_builtin "PermissionError" e0);
      [|destruct (is_builtin "IsADirectoryError" e0)]];
    intros [= <- _]; (split; [reflexivity|]).
  - now exists ("File not found: " ++ Pathlib.str file_path).
  - now exists ("Permission denied: " ++ Pathlib.str file_path).
  - now exists ("Is a directory: " ++ Pathlib.str file_path).
  - now exists ("Error accessing file: " ++ str e0).
Qed.

(** X11. When the parent directory can be made (for a writing mode):
    if the file opens, it is closed exactly once, right after the block,
    whether the block returned or raised, and the result of a block that
    returned is handed on when closing succeeds; if the file does not open,
    the block is not run and nothing is closed. *)
Theorem safe_open_closes_what_it_opened (file_path mode : string)
    (block : string -> M trace A) (w : trace) :
  let path := Pathlib.str file_path in
  (Py.contains mode "w" = true -> mkdir_fails os path = None) ->
  let made := if Py.contains mode "w" then [Mkdir path] else [] in
  match open_fails os path mode with
  | None =>
      let inside := block path (w ++ made ++ [Opened path mode])%list in
      snd (safe_open os file_path mode block w) = (snd inside ++ [Closed path])%list
      /\ (close_fails os path = None ->
          forall a, fst inside = Ok a -> fst (safe_open os file_path mode block w) = Ok a)
  | Some _ => snd (safe_open os file_path mode block w) = (w ++ made)%list
  end.
Proof.
  intros path Hm made.
  assert (Pre : (if Py.contains mode "w" then mkdir_parent os path else ret tt) w =
                (Ok tt, (w ++ made)%list)).
  { unfold made. destruct (Py.contains mode "w").
    - unfold mkdir_parent. now rewrite (Hm eq_refl).
    - unfold ret. now rewrite app_nil_r. }
  unfold safe_open, try_except, bind. fold path. rewrite Pre. unfold open_path.
  destruct (open_fails os path mode) as [eo|].
  - unfold raise.
    destruct (is_builtin "FileNotFoundError" eo);
      [|destruct (is_builtin "PermissionError" eo);
        [|destruct (is_builtin "IsADirectoryError" eo)]]; reflexivity.
  - cbv zeta. rewrite <- app_assoc. unfold try_finally, close.
    destruct (block path (w ++ made ++ [Opened path mode])%list) as [r w1].
    cbn [fst snd]. split.
    + destruct (close_fails os path) as [ec|].
      * unfold raise.
        destruct (is_builtin "FileNotFoundError" ec);
          [|destruct (is_builtin "PermissionError" ec);
            [|destruct (is_builtin "IsADirectoryError" ec)]]; reflexivity.
      * destruct r as [a|e0]; [reflexivity|]. unfold raise.
        destruct (is_builtin "FileNotFoundError" e0);
          [|destruct (is_builtin "PermissionError" e0);
            [|destruct (is_builtin "IsADirectoryError" e0)]]; reflexivity.
    + intros Hc a ->. now rewrite Hc.
Qed.

End SafeOpenBehaviour.

(** ** The single-document endpoint *)

Section EndpointBehaviour.
Import App.
Context {W Response : Type}.
Variable process_documents : string -> M W (list (dict Response)).
Variable tmp : TempDir.
Variable http_text : nat -> string -> string.

(** X12. A request that lacks what its mode requires (no URL in URL mode,
    no upload in file mode) is answered with status 500, not 400: the
    HTTPException 400 raised for it inside the [try] is caught by the last
    [except] clause and wrapped.  The dispatcher is not called and no
    temporary file is made. *)
Theorem missing_input_is_answered_500 (request : OCRRequest) (file : option UploadFile)
    (s : Server W) :
  (process_type request = URL -> url request = None ->
   process_document process_documents tmp http_text request file s =
     (HTTPException 500
        ("Unexpected error: " ++ http_text 400 "URL is required for URL processing"), s))
  /\ (process_type request = FILE -> file = None ->
      process_document process_documents tmp http_text request file s =
        (HTTPException 500
           ("Unexpected error: " ++ http_text 400 "File is required for file processing"),
         s)).
Proof.
  split; intros Hp Hn; unfold process_document, attempt_request; rewrite Hp, Hn; reflexivity.
Qed.

(** X13. In URL mode with a URL, the dispatcher is called once with that
    URL and no temporary file is touched.  The endpoint answers with status
    400 exactly when the dispatcher raised InvalidInputError, the detail
    being its text; it returns a record exactly when the dispatcher returned
    a non-empty sequence, the record being the first. *)
Theorem url_mode_answers (request : OCRRequest) (file : option UploadFile) (u : string)
    (s : Server W) :
  process_type request = URL ->
  url request = Some u ->
  let ran := process_documents u (service s) in
  let answered := process_document process_documents tmp http_text request file s in
  snd answered = {| service := snd ran; temp_files := temp_files s |}
  /\ (forall d, fst answered = HTTPException 400 d <->
                exists e, fst ran = Raise e /\ is_InvalidInputError e = true /\ d = str e)
  /\ (forall record, fst answered = Returned record <->
                     exists rest, fst ran = Ok (record :: rest)).
Proof.
  intros Hp Hu ran answered. unfold answered, ran.
  unfold process_document, attempt_request, bind, on_service, first_record.
  rewrite Hp, Hu.
  destruct (process_documents u (service s)) as [[[|first rest]|e] w']; cbn [fst snd].
  - split; [reflexivity|]. split.
    + intros d. split; [discriminate|]. intros (e & H & _). discriminate.
    + intros record. split; [discriminate|]. intros (r & H). discriminate.
  - split; [reflexivity|]. split.
    + intros d. split; [discriminate|]. intros (e & H & _). discriminate.
    + intros record. split.
      * intros [= <-]. now exists rest.
      * intros (r & [= <- _]). reflexivity.
  - split; [reflexivity|]. split.
    + intros d. unfold answer_failure. split.
      * destruct (is_InvalidInputError e) eqn:I.
        -- intros [= <-]. now exists e.
        -- destruct (is_APIError e); [discriminate|].
           destruct (is_OCRToolError e); discriminate.
      * intros (e' & [= <-] & I & ->). now rewrite I.
    + intros record. split.
      * unfold answer_failure. destruct (is_InvalidInputError e); [discriminate|].
        destruct (is_APIError e); [discriminate|].
        destruct (is_OCRToolError e); discriminate.
      * intros (r & H). discriminate.
Qed.

(** X14. In file mode, once the temporary copy of the upload is written,
    the dispatcher is called on its path and the copy is removed on every
    way out, whether the dispatcher returned records, returned none or
    raised.  If writing the copy fails, the dispatcher is not called and the
    file just created is left behind. *)
Theorem upload_copy_is_removed (request : OCRRequest) (f : UploadFile) (t : string)
    (s : Server W) :
  process_type request = FILE ->
  named_temporary_file tmp (Pathlib.suffix (filename f)) = inl t ->
  ~ In t (temp_files s) ->
  let answered := process_document process_documents tmp http_text request (Some f) s in
  match fill_fails tmp t (content f) with
  | None =>
      snd answered =
        {| service := snd (process_documents t (service s)); temp_files := temp_files s |}
  | Some e =>
      snd answered = {| service := service s; temp_files := t :: temp_files s |}
      /\ fst answered = answer_failure e
  end.
Proof.
  intros Hp Ht Hfresh answered. unfold answered.
  unfold process_document, attempt_request, bind, save_upload.
  rewrite Hp, Ht.
  destruct (fill_fails tmp t (content f)) as [e|].
  - now split.
  - unfold try_finally, bind, on_service, unlink_if_exists. cbn [service temp_files].
    assert (Hrm : filter (fun p => negb (String.eqb t p)) (temp_files s) = temp_files s).
    { clear -Hfresh. induction (temp_files s) as [|p l IH]; [reflexivity|].
      cbn [filter]. destruct (String.eqb_spec t p) as [->|N].
      - exfalso. apply Hfresh. now left.
      - cbn [negb]. rewrite IH; [reflexivity|]. intros H. apply Hfresh. now right. }
    destruct (process_documents t (service s)) as [[[|first rest]|e] w'];
      repeat first [rewrite String.eqb_refl
                   | progress cbn [first_record raise ret service temp_files existsb
                                   fst snd orb filter negb]];
      rewrite Hrm; reflexivity.
Qed.

End EndpointBehaviour.

Section EndpointWithService.
Context {W Response FileId : Type}.
Variable sdk : MistralClient.Sdk W Response FileId.
Variable fs : FileSystem.
Variable tmp : App.TempDir.
Variable http_text : nat -> string -> string.

(** X15. With the OCR service over the Mistral client, the URL mode of the
    endpoint never answers with status 400: for an http or https URL it
    either returns the record labelled with that URL or answers 500. *)
Theorem url_mode_never_answers_400 (request : App.OCRRequest)
    (file : option App.UploadFile) (u : string) (s : App.Server W) :
  App.process_type request = App.URL ->
  App.url request = Some u ->
  OCRConstants.is_url u = true ->
  let answered :=
    App.process_document (OCRService.process_documents fs (MistralClient.client sdk))
      tmp http_text request file s in
  (exists r, fst answered = App.Returned (OCRService.outcome u r))
  \/ (exists d, fst answered = App.HTTPException 500 d).
Proof.
  intros Hp Hu U answered. unfold answered.
  unfold App.process_document, App.attempt_request, bind, App.on_service, App.first_record.
  rewrite Hp, Hu, (process_documents_url fs _ u (App.service s) U).
  cbn [process_document MistralClient.client].
  destruct (MistralClient.process_document sdk u (App.service s)) as [[r|e] w'] eqn:E;
    unfold ret, raise; cbn [fst snd App.service App.temp_files].
  - left. now exists r.
  - right. apply client_never_invalid_input in E as [T N].
    unfold OCRService.presented. rewrite T. unfold App.answer_failure.
    assert (I : is_InvalidInputError e = false).
    { unfold is_InvalidInputError. destruct (class_of e); try reflexivity. now elim N. }
    rewrite I. destruct (is_APIError e); [now eexists|]. rewrite T. now eexists.
Qed.

End EndpointWithService.

(** ** The command-line mode *)

Section CliBehaviour.
Context {W Response FileId : Type}.
Variable env_key : option string.
Variable sdk : MistralClient.Sdk W Response FileId.
Variable fs : FileSystem.
Variable out : FileHandler.Output.
Variable model_dump : Response -> Json.value.
Variable file_handler_fails : string -> option exn.
Variable cwd : string.
Variable logged : Main.moment -> string.

Lemma init_from_environment :
  MistralClientInit.init None env_key =
    match env_key with
    | Some k =>
        if String.eqb k "" then
          Raise (Exn ConfigurationError
                   "Mistral API key not found. Please set the MISTRAL_API_KEY environment variable.")
        else Ok k
    | None =>
        Raise (Exn ConfigurationError
                 "Mistral API key not found. Please set the MISTRAL_API_KEY environment variable.")
    end.
Proof. reflexivity. Qed.

Lemma outcomes_of_forall {R : Type} (rs : list (dict R)) :
  Forall (fun rec => exists l r, rec = OCRService.outcome l r) rs ->
  exists records, rs = map (fun rec => OCRService.outcome (fst rec) (snd rec)) records.
Proof.
  induction 1 as [|rec rs (l & r & ->) _ (records & ->)].
  - now exists [].
  - now exists ((l, r) :: records).
Qed.

(** Every record the dispatcher returns is a two-key literal. *)
Lemma process_documents_outcomes {R : Type} (client : Client W R) (input : string)
    (w w' : W) (rs : list (dict R)) :
  OCRService.process_documents fs client input w = (Ok rs, w') ->
  exists records, rs = map (fun rec => OCRService.outcome (fst rec) (snd rec)) records.
Proof.
  rewrite process_documents_classify.
  destruct (OCRService.classify fs input); cbn [OCRService.run_branch].
  - unfold OCRService._process_url, bind, ret.
    destruct (process_document client input w) as [[r|e] w1]; intros [= <- _].
    now exists [(input, r)].
  - unfold OCRService._process_file, bind, ret.
    destruct (process_document client input w) as [[r|e] w1]; intros [= <- _].
    now exists [(input, r)].
  - destruct (OCRService._process_directory fs client input w) as [[rs'|e] w1] eqn:E;
      intros [= <- _].
    destruct (process_directory_records fs client _ _ _ _ E) as (names & _ & HF).
    apply outcomes_of_forall. eapply Forall_impl; [|exact HF].
    intros rec (n & r & _ & _ & ->). now eexists _, _.
  - discriminate.
Qed.

(** Whether [save_output] succeeds does not depend on what the files hold. *)
Lemma save_output_result (rs : list (dict Response)) (output : string)
    (fl fl' : FileHandler.files) :
  fst (FileHandler.save_output out model_dump rs output fl) =
  fst (FileHandler.save_output out model_dump rs output fl').
Proof.
  unfold FileHandler.save_output, try_except, bind, lift.
  destruct (FileHandler.attempt (FileHandler.mkdir_parents out (Pathlib.str output)))
    as [[]|em].
  2:{ unfold raise. destruct (is_builtin "PermissionError" em);
        [|destruct (is_builtin "IsADirectoryError" em)]; reflexivity. }
  destruct (FileHandler.structured_all model_dump rs) as [ds|es].
  2:{ unfold raise. destruct (is_builtin "PermissionError" es);
        [|destruct (is_builtin "IsADirectoryError" es)]; reflexivity. }
  destruct (FileHandler.attempt (FileHandler.open_w out (Pathlib.str output))) as [[]|eo].
  2:{ unfold raise. destruct (is_builtin "PermissionError" eo);
        [|destruct (is_builtin "IsADirectoryError" eo)]; reflexivity. }
  destruct (FileHandler.serializable ds); reflexivity.
Qed.

(** Logging writes to the files of the file handlers and to no other. *)
Lemma emit_elsewhere (l : Logger.logger) (text : string) (fl : FileHandler.files)
    (file : string) :
  ~ In file (Main.log_files out cwd l) ->
  Main.emit out cwd l text fl file = fl file.
Proof.
  unfold Main.emit. generalize (Main.log_files out cwd l). intros ks. revert fl.
  induction ks as [|k ks IH]; intros fl H; [reflexivity|].
  cbn [fold_left]. rewrite IH by (intros I; apply H; now right).
  unfold Main.append, FileHandler.write.
  destruct (String.eqb_spec file k) as [->|_]; [|reflexivity].
  exfalso. apply H. now left.
Qed.

(** The logger of the command line has at most one file handler: the one
    of the log file asked for, when it could be made. *)
Lemma configure_logging_log_files (verbose : bool) (log_file_path : option string)
    (reg : Logger.registry) :
  Main.log_files out cwd
    (fst (Logger.configure_logging file_handler_fails verbose log_file_path reg)) =
    match log_file_path with
    | Some p =>
        if String.eqb p "" then []
        else match file_handler_fails (Pathlib.str p) with
             | None => [FileHandler.file_at out (Posixpath.abspath cwd (Pathlib.str p))]
             | Some _ => []
             end
    | None => []
    end.
Proof.
  unfold Logger.configure_logging, Logger.setup_logger, Logger.getLogger, Main.log_files.
  cbn [fst Logger.handlers].
  destruct (reg Logger.DEFAULT_NAME) as [[lv pr [|h hs]]|]; cbn [Logger.handlers app];
    (destruct log_file_path as [p|]; [destruct (String.eqb p "")|]; try reflexivity;
     destruct (file_handler_fails (Pathlib.str p)); reflexivity).
Qed.

(** X16. The command-line run exits with 0 exactly when an API key is set
    in the environment, the dispatcher returns and the results are saved;
    every other run exits with 1.  Logging has no part in it. *)
Theorem cli_exit_code (args : Main.Namespace) (st : Main.state W) :
  let code :=
    fst (Main.run_cli_mode env_key sdk fs out model_dump file_handler_fails cwd logged
           args st) in
  (code = 0 \/ code = 1)
  /\ (code = 0 <->
      MistralClientInit.truthy env_key = true
      /\ exists rs w' files',
           OCRService.process_documents fs (MistralClient.client sdk) (Main.input args)
             (Main.service st) = (Ok rs, w')
           /\ FileHandler.save_output out model_dump rs (Main.output args) (Main.files st) =
                (Ok tt, files')).
Proof.
  cbv zeta. unfold Main.run_cli_mode, Main.process_documents, Main.save_results, bind, lift.
  destruct (Logger.configure_logging file_handler_fails (Main.verbose args)
              (Main.log_file args) (Main.loggers st)) as [logger loggers'].
  rewrite init_from_environment. unfold MistralClientInit.truthy.
  destruct env_key as [k|]; [destruct (String.eqb k "") eqn:K|]; cbn [negb fst].
  - split; [right; now destruct (is_OCRToolError _)|].
    split; [now destruct (is_OCRToolError _) | intros [H _]; discriminate].
  - destruct (OCRService.process_documents fs (MistralClient.client sdk) (Main.input args)
                (Main.service st)) as [[rs|e] w'].
    + pose proof (save_output_result rs (Main.output args)
                    (Main.emit out cwd logger (logged Main.Processing)
                       (Main.emit out cwd logger "" (Main.files st)))
                    (Main.files st)) as R.
      destruct (FileHandler.save_output out model_dump rs (Main.output args)
                  (Main.emit out cwd logger (logged Main.Processing)
                     (Main.emit out cwd logger "" (Main.files st))))
        as [[[]|e] files'] eqn:S; cbn [fst] in R |- *.
      * split; [now left|]. split; [|reflexivity].
        intros _. split; [reflexivity|].
        destruct (FileHandler.save_output out model_dump rs (Main.output args)
                    (Main.files st)) as [[[]|e] files0] eqn:S0; [|discriminate R].
        exists rs, w', files0. split; [reflexivity | exact S0].
      * split; [right; now destruct (is_OCRToolError e)|].
        split; [now destruct (is_OCRToolError e)|].
        intros (_ & rs' & w1 & f1 & [= <- _] & H). rewrite H in R. discriminate R.
    + cbn [fst]. split; [right; now destruct (is_OCRToolError e)|].
      split; [now destruct (is_OCRToolError e)|].
      intros (_ & rs' & w1 & f1 & H & _). discriminate.
  - split; [right; now destruct (is_OCRToolError _)|].
    split; [now destruct (is_OCRToolError _) | intros [H _]; discriminate].
Qed.

(** X17. After a run that exits with 0, the output file holds the text
    [json.dump] made of the array of the objects [{"file": label,
    "response": dump}] of the records the dispatcher returned, in their
    order, followed by what the logger wrote after the saving when the log
    file is that same file, and by nothing otherwise.  So, unless the
    output is also the log file, it reads back as that array; for a
    directory without supported files that is the empty array. *)
Theorem cli_success_is_readable (args : Main.Namespace) (st : Main.state W) :
  let run :=
    Main.run_cli_mode env_key sdk fs out model_dump file_handler_fails cwd logged args st in
  let file := FileHandler.target out (Main.output args) in
  let logger :=
    fst (Logger.configure_logging file_handler_fails (Main.verbose args)
           (Main.log_file args) (Main.loggers st)) in
  fst run = 0 ->
  exists records w',
    OCRService.process_documents fs (MistralClient.client sdk) (Main.input args)
      (Main.service st) =
      (Ok (map (fun rec => OCRService.outcome (fst rec) (snd rec)) records), w')
    /\ Main.service (snd run) = w'
    /\ Main.files (snd run) file =
         Some (FileHandler.Written
                 (if existsb (String.eqb file) (Main.log_files out cwd logger)
                  then Json.dumps (FileHandler.persisted model_dump records)
                       ++ logged Main.Saved
                  else Json.dumps (FileHandler.persisted model_dump records)))
    /\ (~ In file (Main.log_files out cwd logger) ->
        FileHandler.read_back (Main.files (snd run)) file =
          Some (FileHandler.persisted model_dump records)).
Proof.
  cbv zeta.
  pose proof (configure_logging_log_files (Main.verbose args) (Main.log_file args)
                (Main.loggers st)) as L.
  unfold Main.run_cli_mode, Main.process_documents, Main.save_results, bind, lift.
  destruct (Logger.configure_logging file_handler_fails (Main.verbose args)
              (Main.log_file args) (Main.loggers st)) as [logger loggers'].
  cbn [fst] in L |- *. rewrite init_from_environment.
  destruct env_key as [k|]; [destruct (String.eqb k "")|];
    try (cbn [fst]; now destruct (is_OCRToolError _)).
  destruct (OCRService.process_documents fs (MistralClient.client sdk) (Main.input args)
              (Main.service st)) as [[rs|e] w'] eqn:D;
    [|cbn [fst]; now destruct (is_OCRToolError e)].
  destruct (process_documents_outcomes _ _ _ _ _ D) as (records & ->).
  unfold FileHandler.save_output, try_except, bind, lift.
  destruct (FileHandler.mkdir_parents out (Pathlib.str (Main.output args))) as [em|];
    cbn [FileHandler.attempt].
  { unfold raise.
    destruct (is_builtin "PermissionError" em);
      [|destruct (is_builtin "IsADirectoryError" em)]; discriminate. }
  rewrite structured_all_outcomes.
  destruct (FileHandler.open_w out (Pathlib.str (Main.output args))) as [eo|];
    cbn [FileHandler.attempt].
  { unfold raise.
    destruct (is_builtin "PermissionError" eo);
      [|destruct (is_builtin "IsADirectoryError" eo)]; discriminate. }
  rewrite serializable_outcomes. cbn [fst snd Main.service Main.files]. intros _.
  fold (FileHandler.target out (Main.output args)).
  set (file := FileHandler.target out (Main.output args)).
  set (text := Json.dumps (Json.Arr _)).
  set (before := Main.emit out cwd logger (logged Main.Processing) _).
  assert (T : text = Json.dumps (FileHandler.persisted model_dump records)) by reflexivity.
  exists records, w'. split; [reflexivity|]. split; [reflexivity|].
  assert (C : Main.emit out cwd logger (logged Main.Saved)
                (FileHandler.write before file (FileHandler.Written text)) file =
              Some (FileHandler.Written
                      (if existsb (String.eqb file) (Main.log_files out cwd logger)
                       then text ++ logged Main.Saved else text))).
  { assert (S : Main.log_files out cwd logger = []
                \/ exists lf, Main.log_files out cwd logger = [lf]).
    { rewrite L. destruct (Main.log_file args) as [p|]; [|now left].
      destruct (String.eqb p ""); [now left|].
      destruct (file_handler_fails (Pathlib.str p)); [now left | right; now eexists]. }
    unfold Main.emit. destruct S as [->|[lf ->]]; cbn [fold_left existsb].
    - unfold FileHandler.write. now rewrite String.eqb_refl.
    - rewrite orb_false_r. unfold Main.append, FileHandler.write.
      destruct (String.eqb_spec file lf) as [<-|N].
      + now rewrite !String.eqb_refl.
      + rewrite String.eqb_refl. reflexivity. }
  split.
  - rewrite C, T. reflexivity.
  - intros N. unfold FileHandler.read_back. rewrite C.
    destruct (existsb (String.eqb file) (Main.log_files out cwd logger)) eqn:X.
    + exfalso. apply N. apply existsb_exists in X as (lf & Hk & E).
      apply String.eqb_eq in E. now subst lf.
    + rewrite T. apply loads_dumps.
Qed.

(** X18. Without an API key in the environment [main.process_documents]
    raises ConfigurationError before any OCR call.  Whenever it raises,
    the run exits with 1 and the output is not saved: the files are as the
    logger left them, so no file but the log file has changed, and without
    a log file none has. *)
Theorem cli_failure_writes_nothing (args : Main.Namespace) (st : Main.state W) :
  let run :=
    Main.run_cli_mode env_key sdk fs out model_dump file_handler_fails cwd logged args st in
  let logger :=
    fst (Logger.configure_logging file_handler_fails (Main.verbose args)
           (Main.log_file args) (Main.loggers st)) in
  (MistralClientInit.truthy env_key = false ->
   exists e,
     Main.process_documents env_key sdk fs (Main.input args) (Main.service st) =
       (Raise e, Main.service st)
     /\ class_of e = ConfigurationError)
  /\ (forall e w',
        Main.process_documents env_key sdk fs (Main.input args) (Main.service st) =
          (Raise e, w') ->
        fst run = 1
        /\ Main.service (snd run) = w'
        /\ Main.files (snd run) =
             Main.emit out cwd logger (logged Main.Failed)
               (Main.emit out cwd logger (logged Main.Processing)
                  (Main.emit out cwd logger "" (Main.files st)))
        /\ (forall file, ~ In file (Main.log_files out cwd logger) ->
              Main.files (snd run) file = Main.files st file)
        /\ (Main.log_file args = None ->
            forall file, Main.files (snd run) file = Main.files st file)).
Proof.
  cbv zeta.
  pose proof (configure_logging_log_files (Main.verbose args) (Main.log_file args)
                (Main.loggers st)) as L.
  split.
  - unfold Main.process_documents, bind, lift. rewrite init_from_environment.
    unfold MistralClientInit.truthy.
    destruct env_key as [k|]; [destruct (String.eqb k "")|]; cbn [negb];
      try discriminate; intros _; eexists; split; reflexivity.
  - intros e w' D. unfold Main.run_cli_mode. rewrite D.
    destruct (Logger.configure_logging file_handler_fails (Main.verbose args)
                (Main.log_file args) (Main.loggers st)) as [logger loggers'].
    cbn [fst snd Main.service Main.files] in L |- *.
    split; [now destruct (is_OCRToolError e)|]. split; [reflexivity|].
    split; [reflexivity|].
    assert (E : forall file, ~ In file (Main.log_files out cwd logger) ->
                Main.emit out cwd logger (logged Main.Failed)
                  (Main.emit out cwd logger (logged Main.Processing)
                     (Main.emit out cwd logger "" (Main.files st))) file =
                Main.files st file).
    { intros file N. now rewrite !emit_elsewhere. }
    split; [exact E|].
    intros H file. apply E. rewrite L, H. intros [].
Qed.

End CliBehaviour.

(** ** Logging configuration *)

Section LoggerBehaviour.
Import Logger.
Variable file_handler_fails : string -> option exn.

(** X19. Setting a logger up replaces its handlers instead of adding to
    them: whatever the logger held before, it ends with the console handler,
    followed by the file handler when a log file is given and can be
    opened, with the level and propagation asked for.  Other loggers are
    left alone, and setting it up again the same way changes nothing. *)
Theorem setup_logger_replaces_handlers (name : string) (log_file : option string)
    (level : nat) (log_format : option string) (propagate : bool) (reg : registry) :
  let format := match log_format with None => DEFAULT_FORMAT | Some f => f end in
  let done := setup_logger file_handler_fails name log_file level log_format propagate reg in
  let again :=
    setup_logger file_handler_fails name log_file level log_format propagate (snd done) in
  handlers (fst done) =
    StreamHandler format ::
      match log_file with
      | Some path =>
          match file_handler_fails path with
          | None => [FileHandler path format]
          | Some _ => []
          end
      | None => []
      end
  /\ Logger.level (fst done) = level
  /\ Logger.propagate (fst done) = propagate
  /\ snd done name = Some (fst done)
  /\ (forall other, other <> name -> snd done other = reg other)
  /\ fst again = fst done
  /\ (forall n, snd again n = snd done n).
Proof.
  cbv zeta. unfold setup_logger, getLogger, store. cbn [fst snd].
  rewrite String.eqb_refl.
  destruct (reg name) as [[lv pr [|h hs]]|];
    destruct log_file as [p|]; [destruct (file_handler_fails p)| |
                                destruct (file_handler_fails p)| |
                                destruct (file_handler_fails p)|];
    cbn [handlers Logger.level Logger.propagate app];
    (repeat split;
     [ intros other H; apply String.eqb_neq in H; now rewrite H
     | intros n; now destruct (String.eqb n name) ]).
Qed.

End LoggerBehaviour.

(** ** The batch endpoint with any dispatcher *)

Section BatchIsolation.
Import Api.
Context {W Response : Type}.
Variable process_documents : string -> M W (list (dict Response)).
Variable as_dict : Response -> option Response.
Variable validation_text : list (dict Response) -> string.

Lemma batch_loop_failed_incl (urls : list string) :
  forall (w : W) rs fl w',
    batch_loop process_documents urls ([], []) w = (Ok (rs, fl), w') ->
    incl fl urls.
Proof.
  induction urls as [|url urls IH]; intros w rs fl w'.
  - cbn [batch_loop]. unfold ret. intros [= <- <- <-]. apply incl_refl.
  - cbn [batch_loop]. unfold bind. rewrite batch_step_cases.
    destruct (process_documents url w) as [[[|first rest]|e] w1];
      rewrite batch_loop_extends;
      destruct (batch_loop process_documents urls ([], []) w1) as [[[rs' fl']|e'] w2] eqn:E;
      try discriminate; intros [= <- <- <-]; pose proof (IH _ _ _ _ E) as I;
      cbn [app]; intros x Hx.
    + destruct Hx as [<-|Hx]; [now left | right; now apply I].
    + right. now apply I.
    + destruct Hx as [<-|Hx]; [now left | right; now apply I].
Qed.

(** X20. Whatever is handed to it as a dispatcher, and whatever that
    dispatcher raises, the loop of the batch endpoint goes through every
    URL: each adds one entry to one of the two lists, the failed ones
    holding URLs of the request only, with at most one record per URL even
    where the dispatcher returned several.  The only exception that leaves
    the endpoint is the ValidationError of its response model, raised
    after the loop when a record kept does not fit; a response that is
    returned accounts for every URL once. *)
Theorem batch_isolates_every_exception (request : OCRBatchRequest) (w : W) :
  exists rs fl w',
    batch_loop process_documents (urls request) ([], []) w = (Ok (rs, fl), w')
    /\ length rs + length fl = length (urls request)
    /\ incl fl (urls request)
    /\ process_batch process_documents as_dict validation_text request w =
         (new_OCRBatchResponse as_dict validation_text rs fl, w')
    /\ (forall e w1,
          process_batch process_documents as_dict validation_text request w = (Raise e, w1) ->
          class_of e = Builtin "ValidationError" /\ validate_records as_dict rs = None)
    /\ (forall resp w1,
          process_batch process_documents as_dict validation_text request w = (Ok resp, w1) ->
          length (results resp) + length (failed_urls resp) = length (urls request)
          /\ incl (failed_urls resp) (urls request)
          /\ length (results resp) <= length (urls request)).
Proof.
  destruct (batch_loop_total process_documents (urls request) w) as (rs & fl & w' & H & Hl).
  pose proof (batch_loop_failed_incl _ _ _ _ _ H) as I.
  pose proof (process_batch_built process_documents as_dict validation_text request
                rs fl w w' H) as Hb.
  pose proof (new_OCRBatchResponse_cases as_dict validation_text rs fl) as Hc.
  exists rs, fl, w'. repeat (split; [assumption|]). split.
  - intros e w1 E. rewrite Hb in E. injection E as E _. now rewrite E in Hc.
  - intros resp w1 E. rewrite Hb in E. injection E as E _. rewrite E in Hc.
    destruct Hc as [Hv ->]. rewrite (validate_records_length as_dict _ _ Hv).
    split; [exact Hl|]. split; [exact I | lia].
Qed.

End BatchIsolation.

Section UploadWithService.
Context {W Response FileId : Type}.
Variable sdk : MistralClient.Sdk W Response FileId.
Variable fs : FileSystem.
Variable tmp : App.TempDir.
Variable http_text : nat -> string -> string.

(** X21. With the OCR service over the Mistral client, an upload whose
    temporary copy was written is never answered with status 400 either:
    the endpoint returns a record or answers 500.  The record is labelled
    with the path of the temporary copy, not with the name of the upload,
    and the copy is gone when the answer is given. *)
Theorem file_mode_labels_with_temporary_path (request : App.OCRRequest)
    (f : App.UploadFile) (t : string) (s : App.Server W) :
  App.process_type request = App.FILE ->
  App.named_temporary_file tmp (Pathlib.suffix (App.filename f)) = inl t ->
  App.fill_fails tmp t (App.content f) = None ->
  ~ In t (App.temp_files s) ->
  OCRConstants.is_url t = false ->
  isfile fs t = true ->
  let answered :=
    App.process_document (OCRService.process_documents fs (MistralClient.client sdk))
      tmp http_text request (Some f) s in
  ((exists r, fst answered = App.Returned (OCRService.outcome t r))
   \/ (exists d, fst answered = App.HTTPException 500 d))
  /\ App.temp_files (snd answered) = App.temp_files s.
Proof.
  intros Hp Ht Hf Hfresh U F answered. unfold answered.
  unfold App.process_document, App.attempt_request, bind, App.save_upload.
  rewrite Hp, Ht, Hf.
  unfold try_finally, bind, App.on_service, App.unlink_if_exists.
  cbn [App.service App.temp_files].
  rewrite (process_documents_file fs _ t (App.service s) U F).
  cbn [process_document MistralClient.client].
  assert (Hrm : filter (fun p => negb (String.eqb t p)) (App.temp_files s) =
                App.temp_files s).
  { clear -Hfresh. induction (App.temp_files s) as [|p l IH]; [reflexivity|].
    cbn [filter]. destruct (String.eqb_spec t p) as [->|N].
    - exfalso. apply Hfresh. now left.
    - cbn [negb]. rewrite IH; [reflexivity|]. intros H. apply Hfresh. now right. }
  destruct (MistralClient.process_document sdk t (App.service s)) as [[r|e] w'] eqn:E;
    repeat first [rewrite String.eqb_refl
                 | progress cbn [App.first_record raise ret App.service App.temp_files
                                 existsb fst snd orb filter negb]];
    rewrite Hrm; (split; [|reflexivity]).
  - left. now exists r.
  - right. apply client_never_invalid_input in E as [T N].
    unfold OCRService.presented. rewrite T. unfold App.answer_failure.
    assert (I : is_InvalidInputError e = false).
    { unfold is_InvalidInputError. destruct (class_of e); try reflexivity. now elim N. }
    rewrite I. destruct (is_APIError e); [now eexists|]. rewrite T. now eexists.
Qed.

End UploadWithService.

(** ** The extension of an uploaded file *)

Section UploadSuffix.

Lemma app_string_empty (s : string) : s ++ "" = s.
Proof. induction s as [|c s IH]; simpl; [reflexivity | now rewrite IH]. Qed.

Lemma lower_ascii_dot (c : ascii) :
  Ascii.eqb (Py.lower_ascii c) "." = Ascii.eqb c ".".
Proof.
  destruct c as [[] [] [] [] [] [] [] []]; reflexivity.
Qed.

Lemma rfind_dot_lower (s : string) :
  Pathlib.rfind_dot (Py.lower s) = Pathlib.rfind_dot s.
Proof.
  induction s as [|c s IH]; cbn [Pathlib.rfind_dot Py.lower]; [reflexivity|].
  now rewrite IH, lower_ascii_dot.
Qed.

Lemma rfind_dot_after_dot (t e : string) :
  Pathlib.rfind_dot (t ++ String "." e) <> None.
Proof.
  induction t as [|c t IH]; cbn [append Pathlib.rfind_dot].
  - destruct (Pathlib.rfind_dot e); discriminate.
  - destruct (Pathlib.rfind_dot (t ++ String "." e)); [discriminate | contradiction].
Qed.

(** Where the last dot of a string is: what precedes it and what follows. *)
Lemma rfind_dot_split (s : string) (i : nat) :
  Pathlib.rfind_dot s = Some i ->
  exists a b, s = a ++ String "." b /\ String.length a = i /\ Pathlib.rfind_dot b = None.
Proof.
  revert i. induction s as [|c s IH]; intros i; cbn [Pathlib.rfind_dot]; [discriminate|].
  destruct (Pathlib.rfind_dot s) as [j|] eqn:E.
  - intros [= <-]. destruct (IH j eq_refl) as (a & b & -> & L & N).
    exists (String c a), b. cbn [append String.length]. now rewrite L.
  - destruct (Ascii.eqb_spec c ".") as [->|_]; [|discriminate].
    intros [= <-]. now exists "", s.
Qed.

Lemma last_dot_unique (a a' b b' : string) :
  Pathlib.rfind_dot b = None -> Pathlib.rfind_dot b' = None ->
  a ++ String "." b = a' ++ String "." b' -> b = b'.
Proof.
  intros N N'. revert a'. induction a as [|c a IH]; intros [|c' a']; cbn [append].
  - now intros [= ->].
  - intros [= _ ->]. now apply rfind_dot_after_dot in N.
  - intros [= _ <-]. now apply rfind_dot_after_dot in N'.
  - intros [= _ H]. now apply (IH a').
Qed.

Lemma endswith_at_last_dot (p b e : string) :
  Pathlib.rfind_dot b = None -> Pathlib.rfind_dot e = None ->
  Py.endswith (p ++ String "." b) (String "." e) = String.eqb b e.
Proof.
  intros N N'. destruct (String.eqb_spec b e) as [->|D].
  - apply endswith_spec. now exists p.
  - destruct (Py.endswith (p ++ String "." b) (String "." e)) eqn:E; [|reflexivity].
    apply endswith_spec in E as [t E]. now apply last_dot_unique in E.
Qed.

Lemma supported_extensions_dotted :
  Forall (fun ext => exists e, ext = String "." e /\ Pathlib.rfind_dot e = None)
    OCRConstants.SUPPORTED_EXTENSIONS.
Proof. repeat constructor; eexists; split; reflexivity. Qed.

(** Support is decided by what follows the last dot. *)
Lemma is_supported_file_last_dot (a b : string) :
  Pathlib.rfind_dot b = None ->
  OCRConstants.is_supported_file (a ++ String "." b) =
  OCRConstants.is_supported_file (String "." b).
Proof.
  intros N. unfold OCRConstants.is_supported_file, Py.any.
  pose proof supported_extensions_dotted as F.
  induction F as [|ext exts (e & -> & Ne) _ IH]; [reflexivity|].
  cbn [existsb]. rewrite IH. f_equal.
  rewrite lower_app. cbn [Py.lower].
  change (Py.lower_ascii ".") with "."%char.
  assert (N' : Pathlib.rfind_dot (Py.lower b) = None) by now rewrite rfind_dot_lower.
  pose proof (endswith_at_last_dot "" (Py.lower b) e N' Ne) as E.
  cbn [append] in E. rewrite E.
  now apply endswith_at_last_dot.
Qed.

Lemma is_supported_file_needs_dot (f : string) :
  Pathlib.rfind_dot f = None -> OCRConstants.is_supported_file f = false.
Proof.
  intros N. unfold OCRConstants.is_supported_file, Py.any.
  pose proof supported_extensions_dotted as F.
  induction F as [|ext exts (e & -> & Ne) _ IH]; [reflexivity|].
  cbn [existsb]. rewrite IH, orb_false_r.
  destruct (Py.endswith (Py.lower f) (String "." e)) eqn:E; [|reflexivity].
  apply endswith_spec in E as [t E]. rewrite <- rfind_dot_lower, E in N.
  now apply rfind_dot_after_dot in N.
Qed.

Lemma split_no_sep (f : string) : Py.has_sep f = false -> Pathlib.split f = [f].
Proof.
  induction f as [|c f IH]; cbn [Py.has_sep Pathlib.split]; [reflexivity|].
  destruct (Ascii.eqb c Py.sep); [discriminate|].
  intros H. now rewrite (IH H).
Qed.

Lemma substring_all (x : string) : substring 0 (String.length x) x = x.
Proof. induction x as [|c x IH]; cbn [substring String.length]; [reflexivity | now rewrite IH]. Qed.

Lemma substring_skip (a x : string) (n : nat) :
  substring (String.length a) n (a ++ x) = substring 0 n x.
Proof. induction a as [|c a IH]; cbn [append String.length substring]; [reflexivity | exact IH]. Qed.

(** [Path(f).suffix] of a bare file name. *)
Lemma suffix_of_name (a b : string) :
  Py.has_sep (a ++ String "." b) = false ->
  Pathlib.rfind_dot b = None ->
  Pathlib.suffix (a ++ String "." b) =
    match a, b with
    | EmptyString, _ | _, EmptyString => EmptyString
    | _, _ => String "." b
    end.
Proof.
  intros Hs N. unfold Pathlib.suffix, Pathlib.name, Pathlib.parts.
  rewrite (split_no_sep _ Hs). cbn [filter].
  destruct a as [|c a].
  - cbn [append]. destruct b as [|d b]; [reflexivity|].
    replace (negb (String "." (String d b) =? "") && negb (String "." (String d b) =? "."))%bool
      with true.
    2:{ cbn [String.eqb]. rewrite Ascii.eqb_refl. reflexivity. }
    cbn [last Pathlib.rfind_dot]. cbn [Pathlib.rfind_dot] in N. rewrite N.
    cbn [Ascii.eqb Bool.eqb]. reflexivity.
  - assert (L : forall t, Pathlib.rfind_dot t = None ->
                Pathlib.rfind_dot (String c a ++ String "." t) = Some (String.length (String c a))).
    { intros t Nt. generalize (String c a). intros u.
      induction u as [|x u IH]; cbn [append Pathlib.rfind_dot String.length].
      - now rewrite Nt.
      - now rewrite IH. }
    replace (negb (String c a ++ String "." b =? "") && negb (String c a ++ String "." b =? "."))%bool
      with true.
    2:{ cbn [append String.eqb]. destruct (Ascii.eqb c "."); [|reflexivity].
        destruct a; reflexivity. }
    cbn [last]. rewrite (L b N).
    rewrite length_app_string. cbn [String.length].
    destruct b as [|d b].
    + cbn [String.length].
      replace (S (String.length a) <? S (String.length a) + 1 - 1)%nat with false.
      2:{ symmetry. apply Nat.ltb_ge. lia. }
      rewrite andb_false_r. reflexivity.
    + replace ((0 <? S (String.length a))%nat
                && (S (String.length a) <? S (String.length a) + S (String.length (String d b)) - 1)%nat)%bool
        with true.
      2:{ symmetry. apply andb_true_intro. split; apply Nat.ltb_lt; cbn [String.length]; lia. }
      change (S (String.length a)) with (String.length (String c a)).
      rewrite substring_skip.
      replace (String.length (String c a) + S (String.length (String d b))
               - String.length (String c a)) with (String.length (String "." (String d b)))
        by (cbn [String.length]; lia).
      apply substring_all.
Qed.

(** The temporary copy of an upload of a bare name: it keeps what follows
    the last dot of the name, unless that dot comes first. *)
Lemma is_supported_file_temporary (stem f : string) :
  Py.has_sep f = false ->
  OCRConstants.is_supported_file stem = false ->
  OCRConstants.is_supported_file (stem ++ Pathlib.suffix f) =
    match Pathlib.rfind_dot f with
    | Some 0 => false
    | _ => OCRConstants.is_supported_file f
    end.
Proof.
  intros Hs T.
  destruct (Pathlib.rfind_dot f) as [i|] eqn:R.
  - destruct (rfind_dot_split f i R) as (a & b & -> & L & N).
    rewrite (suffix_of_name a b Hs N).
    destruct a as [|c a]; cbn [String.length] in L; subst i.
    + now rewrite app_string_empty.
    + destruct b as [|d b].
      * rewrite app_string_empty, T. rewrite (is_supported_file_last_dot _ "" N). reflexivity.
      * now rewrite !is_supported_file_last_dot.
  - rewrite (is_supported_file_needs_dot f R).
    assert (E : Pathlib.suffix f = "").
    { unfold Pathlib.suffix, Pathlib.name, Pathlib.parts. rewrite (split_no_sep f Hs).
      cbn [filter]. destruct (negb (f =? "") && negb (f =? "."))%bool; cbn [last].
      - now rewrite R.
      - reflexivity. }
    now rewrite E, app_string_empty.
Qed.

Lemma supported_extensions_dot_first :
  Forall (fun ext => Pathlib.rfind_dot ext = Some 0) OCRConstants.SUPPORTED_EXTENSIONS.
Proof. repeat constructor. Qed.

(** X22. The temporary copy of an upload is named by [Path(filename).suffix].
    For a bare file name and a temporary stem without a supported extension:
    a copy with a supported extension comes from a name with one, and the
    only supported names whose copy is not supported are the names that are
    nothing but an extension, such as [.pdf], for which pathlib gives no
    suffix. *)
Theorem upload_extension_decides_support (stem f : string) :
  Py.has_sep f = false ->
  OCRConstants.is_supported_file stem = false ->
  (OCRConstants.is_supported_file (stem ++ Pathlib.suffix f) = true ->
   OCRConstants.is_supported_file f = true)
  /\ (OCRConstants.is_supported_file f = true
      /\ OCRConstants.is_supported_file (stem ++ Pathlib.suffix f) = false
      <-> In (Py.lower f) OCRConstants.SUPPORTED_EXTENSIONS).
Proof.
  intros Hs T. pose proof (is_supported_file_temporary stem f Hs T) as E.
  split; [|split].
  - rewrite E. destruct (Pathlib.rfind_dot f) as [[|i]|]; [discriminate | auto | auto].
  - intros [Sf St]. rewrite St in E.
    destruct (Pathlib.rfind_dot f) as [[|i]|] eqn:R; try congruence.
    destruct (rfind_dot_split f 0 R) as ([|c a] & b & -> & L & N); [|discriminate L].
    cbn [append] in *. clear E St R L.
    unfold OCRConstants.is_supported_file, Py.any in Sf.
    apply existsb_exists in Sf as (ext & I & Sf).
    pose proof supported_extensions_dotted as F.
    rewrite Forall_forall in F. destruct (F ext I) as (e & -> & Ne).
    cbn [Py.lower] in *. change (Py.lower_ascii ".") with "."%char in *.
    assert (N' : Pathlib.rfind_dot (Py.lower b) = None) by now rewrite rfind_dot_lower.
    pose proof (endswith_at_last_dot "" (Py.lower b) e N' Ne) as E.
    cbn [append] in E. rewrite E in Sf. apply String.eqb_eq in Sf. now rewrite Sf.
  - intros I. split.
    + unfold OCRConstants.is_supported_file, Py.any. apply existsb_exists.
      exists (Py.lower f). split; [exact I | apply endswith_refl].
    + pose proof supported_extensions_dot_first as F.
      rewrite Forall_forall in F. apply F in I. rewrite rfind_dot_lower in I.
      now rewrite I in E.
Qed.

End UploadSuffix.

Section UnsupportedUpload.
Context {W Response FileId : Type}.
Variable sdk : MistralClient.Sdk W Response FileId.
Variable fs : FileSystem.
Variable tmp : App.TempDir.
Variable http_text : nat -> string -> string.

(** X23. An upload under a bare name without a supported extension is
    answered with status 500 and the text [Unsupported file type], which
    names the temporary copy and not the upload.  Nothing is sent to the
    OCR service, and the copy is removed. *)
Theorem unsupported_upload_is_answered_500 (request : App.OCRRequest)
    (f : App.UploadFile) (stem : string) (s : App.Server W) :
  let t := stem ++ Pathlib.suffix (App.filename f) in
  App.process_type request = App.FILE ->
  Py.has_sep (App.filename f) = false ->
  OCRConstants.is_supported_file (App.filename f) = false ->
  OCRConstants.is_supported_file stem = false ->
  App.named_temporary_file tmp (Pathlib.suffix (App.filename f)) = inl t ->
  App.fill_fails tmp t (App.content f) = None ->
  ~ In t (App.temp_files s) ->
  OCRConstants.is_url t = false ->
  isfile fs t = true ->
  App.process_document (OCRService.process_documents fs (MistralClient.client sdk))
    tmp http_text request (Some f) s =
    (App.HTTPException 500 (with_path "Unsupported file type" (Some t)), s).
Proof.
  intros t Hp Hs Hf Hstem Ht Hfill Hfresh U F.
  assert (St : OCRConstants.is_supported_file t = false).
  { unfold t. rewrite (is_supported_file_temporary stem _ Hs Hstem).
    destruct (Pathlib.rfind_dot (App.filename f)) as [[|i]|]; auto. }
  assert (E : MistralClient.process_document sdk t (App.service s) =
              (Raise (Exn UnsupportedFileTypeError
                        (with_path "Unsupported file type" (Some t))), App.service s)).
  { unfold MistralClient.process_document, try_except. rewrite U, St. reflexivity. }
  unfold App.process_document, App.attempt_request, bind, App.save_upload.
  rewrite Hp, Ht, Hfill.
  unfold try_finally, bind, App.on_service, App.unlink_if_exists.
  cbn [App.service App.temp_files].
  rewrite (process_documents_file fs _ t (App.service s) U F).
  cbn [process_document MistralClient.client]. rewrite E.
  assert (Hrm : filter (fun p => negb (String.eqb t p)) (App.temp_files s) =
                App.temp_files s).
  { clear -Hfresh. induction (App.temp_files s) as [|p l IH]; [reflexivity|].
    cbn [filter]. destruct (String.eqb_spec t p) as [->|N].
    - exfalso. apply Hfresh. now left.
    - cbn [negb]. rewrite IH; [reflexivity|]. intros H. apply Hfresh. now right. }
  repeat first [rewrite String.eqb_refl
               | progress cbn [App.first_record raise ret App.service App.temp_files
                               existsb fst snd orb filter negb]].
  rewrite Hrm. destruct s as [w l]. reflexivity.
Qed.

End UnsupportedUpload.

(** ** Runs of the further properties on the concrete worlds *)

Section FurtherScenarios.

Lemma unsupported_file_is_refused_locally_witness :
  OCRService.process_documents Scenario.disk (MistralClient.client Scenario.sdk)
    "/tmp/notes/todo.txt" [] =
    (Raise (Exn UnsupportedFileTypeError
              "Unsupported file type (Path: /tmp/notes/todo.txt)"), []).
Proof.
  exact (proj2 (unsupported_file_is_refused_locally Scenario.sdk Scenario.disk
                  "/tmp/notes/todo.txt" [] eq_refl eq_refl) eq_refl).
Defined.

Lemma upload_failure_is_file_error_witness :
  MistralClient.process_document Scenario.sdk "/tmp/missing.pdf" [] =
    (Raise (Exn FileError "File not found: /tmp/missing.pdf (Path: /tmp/missing.pdf)"), []).
Proof.
  exact (upload_failure_is_file_error Scenario.sdk "/tmp/missing.pdf" [] []
           (Exn (Builtin "FileNotFoundError") "/tmp/missing.pdf") eq_refl eq_refl eq_refl).
Defined.

Lemma client_failures_are_tool_errors_witness :
  let e := Exn FileError "File not found: /tmp/missing.pdf (Path: /tmp/missing.pdf)" in
  is_OCRToolError e = true
  /\ (class_of e = FileError \/ class_of e = UnsupportedFileTypeError
      \/ class_of e = APIError).
Proof.
  exact (client_failures_are_tool_errors Scenario.sdk "/tmp/missing.pdf" [] [] _ eq_refl).
Defined.

Lemma client_success_iff_witness :
  MistralClient.process_document Scenario.sdk "/tmp/report.pdf" ["earlier"] =
    (Ok "text of upload", ["earlier"; "upload"]).
Proof.
  apply (proj2 (client_success_iff Scenario.sdk "/tmp/report.pdf" ["earlier"]
                  ["earlier"; "upload"] "text of upload")).
  right. repeat split. exists 1, ["earlier"]. split; reflexivity.
Defined.

Lemma directory_with_mistral_client_returns_witness :
  exists rs w',
    OCRService.process_documents Scenario.disk (MistralClient.client Scenario.sdk)
      "/tmp/mixed_dir" [] = (Ok rs, w')
    /\ length rs <= 2.
Proof.
  exact (directory_with_mistral_client_returns Scenario.sdk Scenario.disk "/tmp/mixed_dir"
           ["a.pdf"; "b.txt"; "c.png"] [] eq_refl eq_refl eq_refl eq_refl).
Defined.





Lemma safe_open_failures_are_file_errors_witness :
  exists e w',
    SafeOpen.safe_open Scenario.os "/tmp/./in.txt" "r"
      (fun _ => raise (new_InvalidInputError "not a table") : M SafeOpen.trace unit) [] =
      (Raise e, w')
    /\ class_of e = FileError
    /\ exists message, str e = message ++ " (Path: /tmp/in.txt)".
Proof.
  do 2 eexists. split; [reflexivity|].
  apply (safe_open_failures_are_file_errors Scenario.os "/tmp/./in.txt" "r"
           (fun _ => raise (new_InvalidInputError "not a table") : M SafeOpen.trace unit)
           [] _ _ eq_refl).
Defined.

Lemma safe_open_closes_what_it_opened_witness :
  snd (SafeOpen.safe_open Scenario.os "/tmp/out//log.txt" "w"
         (fun _ => raise Scenario.boom : M SafeOpen.trace unit) []) =
    [SafeOpen.Mkdir "/tmp/out/log.txt"; SafeOpen.Opened "/tmp/out/log.txt" "w";
     SafeOpen.Closed "/tmp/out/log.txt"].
Proof.
  pose proof (safe_open_closes_what_it_opened Scenario.os "/tmp/out//log.txt" "w"
                (fun _ => raise Scenario.boom : M SafeOpen.trace unit) []
                (fun _ => eq_refl)) as H.
  exact (proj1 H).
Defined.

Lemma missing_input_is_answered_500_witness :
  App.process_document (OCRService.process_documents Scenario.disk Scenario.steady)
    Scenario.temp_dir Scenario.starlette_text
    {| App.process_type := App.URL; App.url := None; App.include_images := false |}
    None Scenario.idle =
    (App.HTTPException 500 "Unexpected error: 400: URL is required for URL processing",
     Scenario.idle).
Proof.
  exact (proj1 (missing_input_is_answered_500
                  (OCRService.process_documents Scenario.disk Scenario.steady)
                  Scenario.temp_dir Scenario.starlette_text
                  {| App.process_type := App.URL; App.url := None;
                     App.include_images := false |}
                  None Scenario.idle) eq_refl eq_refl).
Defined.

Lemma url_mode_answers_witness :
  fst (App.process_document (OCRService.process_documents Scenario.disk Scenario.steady)
         Scenario.temp_dir Scenario.starlette_text
         {| App.process_type := App.URL; App.url := Some "https://example.com/doc.pdf";
            App.include_images := false |}
         None Scenario.idle) =
    App.Returned (OCRService.outcome "https://example.com/doc.pdf"
                    "text of https://example.com/doc.pdf").
Proof.
  pose proof (url_mode_answers
                (OCRService.process_documents Scenario.disk Scenario.steady)
                Scenario.temp_dir Scenario.starlette_text
                {| App.process_type := App.URL; App.url := Some "https://example.com/doc.pdf";
                   App.include_images := false |}
                None "https://example.com/doc.pdf" Scenario.idle eq_refl eq_refl) as H.
  cbv zeta in H. destruct H as (_ & _ & H). apply H. exists []. reflexivity.
Defined.

Lemma upload_copy_is_removed_witness :
  snd (App.process_document
         (OCRService.process_documents Scenario.disk_with_upload Scenario.steady)
         Scenario.temp_dir Scenario.starlette_text
         {| App.process_type := App.FILE; App.url := None; App.include_images := false |}
         (Some Scenario.upload) Scenario.idle) =
    {| App.service := ["/tmp/tmpk3x9q2ab.pdf"]; App.temp_files := [] |}.
Proof.
  exact (upload_copy_is_removed
           (OCRService.process_documents Scenario.disk_with_upload Scenario.steady)
           Scenario.temp_dir Scenario.starlette_text
           {| App.process_type := App.FILE; App.url := None; App.include_images := false |}
           Scenario.upload "/tmp/tmpk3x9q2ab.pdf" Scenario.idle eq_refl eq_refl (fun H => H)).
Defined.

Lemma url_mode_never_answers_400_witness :
  let answered :=
    App.process_document
      (OCRService.process_documents Scenario.disk (MistralClient.client Scenario.sdk))
      Scenario.temp_dir Scenario.starlette_text
      {| App.process_type := App.URL; App.url := Some "https://example.com/doc.pdf";
         App.include_images := false |}
      None Scenario.idle in
  (exists r, fst answered = App.Returned (OCRService.outcome "https://example.com/doc.pdf" r))
  \/ (exists d, fst answered = App.HTTPException 500 d).
Proof.
  exact (url_mode_never_answers_400 Scenario.sdk Scenario.disk Scenario.temp_dir
           Scenario.starlette_text
           {| App.process_type := App.URL; App.url := Some "https://example.com/doc.pdf";
              App.include_images := false |}
           None "https://example.com/doc.pdf" Scenario.idle eq_refl eq_refl eq_refl).
Defined.

Lemma cli_exit_code_witness :
  let run output :=
    Main.run_cli_mode (Some "key") Scenario.sdk Scenario.disk Scenario.output
      Scenario.text_dump (fun _ => None) "/home/ocr" Scenario.log_lines
      {| Main.input := "/tmp/mixed_dir"; Main.output := output; Main.verbose := false;
         Main.log_file := Some "run.log" |}
      Scenario.fresh in
  fst (run "/tmp/out/ocr.json") = 0 /\ fst (run "/etc/ocr.json") = 1.
Proof.
  intros run.
  pose proof (cli_exit_code (Some "key") Scenario.sdk Scenario.disk Scenario.output
                Scenario.text_dump (fun _ => None) "/home/ocr" Scenario.log_lines
                {| Main.input := "/tmp/mixed_dir"; Main.output := "/tmp/out/ocr.json";
                   Main.verbose := false; Main.log_file := Some "run.log" |}
                Scenario.fresh) as H.
  pose proof (cli_exit_code (Some "key") Scenario.sdk Scenario.disk Scenario.output
                Scenario.text_dump (fun _ => None) "/home/ocr" Scenario.log_lines
                {| Main.input := "/tmp/mixed_dir"; Main.output := "/etc/ocr.json";
                   Main.verbose := false; Main.log_file := Some "run.log" |}
                Scenario.fresh) as H'.
  cbv zeta in H, H'. destruct H as [_ H], H' as [[H'|H'] H0].
  - exfalso. apply H0 in H' as (_ & rs & w' & files' & R & S).
    injection R as <- <-. discriminate S.
  - split; [|exact H']. apply H. split; [reflexivity|].
    do 3 eexists. split; reflexivity.
Defined.

Lemma cli_success_is_readable_witness :
  let run log_file :=
    Main.run_cli_mode (Some "key") Scenario.sdk Scenario.disk Scenario.output
      Scenario.text_dump (fun _ => None) "/home/ocr" Scenario.log_lines
      {| Main.input := "/tmp/report.pdf"; Main.output := "/tmp/out/ocr.json";
         Main.verbose := false; Main.log_file := log_file |}
      Scenario.fresh in
  FileHandler.read_back (Main.files (snd (run (Some "run.log")))) "/tmp/out/ocr.json" =
    Some (FileHandler.persisted Scenario.text_dump [("/tmp/report.pdf", "text of upload")])
  /\ Main.files (snd (run (Some "run.log"))) "/home/ocr/run.log" =
       Some (FileHandler.Written
               (Scenario.log_lines Main.Processing ++ Scenario.log_lines Main.Saved))
  /\ Main.files (snd (run (Some "/tmp/out/ocr.json"))) "/tmp/out/ocr.json" =
       Some (FileHandler.Written
               (Json.dumps (FileHandler.persisted Scenario.text_dump
                              [("/tmp/report.pdf", "text of upload")])
                ++ Scenario.log_lines Main.Saved)).
Proof.
  intros run.
  destruct (cli_success_is_readable (Some "key") Scenario.sdk Scenario.disk Scenario.output
              Scenario.text_dump (fun _ => None) "/home/ocr" Scenario.log_lines
              {| Main.input := "/tmp/report.pdf"; Main.output := "/tmp/out/ocr.json";
                 Main.verbose := false; Main.log_file := Some "run.log" |}
              Scenario.fresh eq_refl) as (records & w' & D & _ & _ & R).
  destruct (cli_success_is_readable (Some "key") Scenario.sdk Scenario.disk Scenario.output
              Scenario.text_dump (fun _ => None) "/home/ocr" Scenario.log_lines
              {| Main.input := "/tmp/report.pdf"; Main.output := "/tmp/out/ocr.json";
                 Main.verbose := false; Main.log_file := Some "/tmp/out/ocr.json" |}
              Scenario.fresh eq_refl) as (records' & w'' & D' & _ & C & _).
  assert (E : records = [("/tmp/report.pdf", "text of upload")]).
  { vm_compute in D. destruct records as [|[l r] [|? ?]]; try discriminate D.
    now injection D as -> ->. }
  assert (E' : records' = [("/tmp/report.pdf", "text of upload")]).
  { vm_compute in D'. destruct records' as [|[l r] [|? ?]]; try discriminate D'.
    now injection D' as -> ->. }
  subst records records'. split; [|split].
  - apply R. intros [H|[]]. discriminate H.
  - reflexivity.
  - exact C.
Defined.

Lemma cli_failure_writes_nothing_witness :
  let run :=
    Main.run_cli_mode (Some "") Scenario.sdk Scenario.disk Scenario.output
      Scenario.text_dump (fun _ => None) "/home/ocr" Scenario.log_lines
      {| Main.input := "/tmp/mixed_dir"; Main.output := "/tmp/out/ocr.json";
         Main.verbose := false; Main.log_file := Some "run.log" |}
      Scenario.fresh in
  fst run = 1
  /\ Main.service (snd run) = []
  /\ Main.files (snd run) "/tmp/out/ocr.json" = None
  /\ Main.files (snd run) "/home/ocr/run.log" =
       Some (FileHandler.Written
               (Scenario.log_lines Main.Processing ++ Scenario.log_lines Main.Failed)).
Proof.
  intros run.
  destruct (cli_failure_writes_nothing (Some "") Scenario.sdk Scenario.disk
              Scenario.output Scenario.text_dump (fun _ => None) "/home/ocr"
              Scenario.log_lines
              {| Main.input := "/tmp/mixed_dir"; Main.output := "/tmp/out/ocr.json";
                 Main.verbose := false; Main.log_file := Some "run.log" |}
              Scenario.fresh) as [A B].
  destruct (A eq_refl) as (e & D & _).
  destruct (B e [] D) as (H1 & H2 & _ & H4 & _).
  split; [exact H1|]. split; [exact H2|]. split.
  - unfold run. rewrite (H4 "/tmp/out/ocr.json"); [reflexivity|].
    intros [H|[]]. discriminate H.
  - reflexivity.
Defined.

Lemma batch_isolates_every_exception_witness :
  exists resp w',
    Api.process_batch
      (OCRService.process_documents Scenario.disk
         (Scenario.failing_on "https://example.com/b.pdf" Scenario.boom))
      Scenario.plain_dict Scenario.pydantic_text
      {| Api.urls := ["https://example.com/a.pdf"; "https://example.com/b.pdf"];
         Api.include_images := false |} [] = (Ok resp, w')
    /\ length (Api.results resp) + length (Api.failed_urls resp) = 2.
Proof.
  destruct (batch_isolates_every_exception
              (OCRService.process_documents Scenario.disk
                 (Scenario.failing_on "https://example.com/b.pdf" Scenario.boom))
              Scenario.plain_dict Scenario.pydantic_text
              {| Api.urls := ["https://example.com/a.pdf"; "https://example.com/b.pdf"];
                 Api.include_images := false |} [])
    as (rs & fl & w' & _ & _ & _ & _ & _ & H).
  eexists _, _. split; [reflexivity|].
  exact (proj1 (H _ _ eq_refl)).
Defined.

Lemma file_mode_labels_with_temporary_path_witness :
  let answered :=
    App.process_document
      (OCRService.process_documents Scenario.disk_with_upload
         (MistralClient.client Scenario.sdk))
      Scenario.temp_dir Scenario.starlette_text
      {| App.process_type := App.FILE; App.url := None; App.include_images := false |}
      (Some Scenario.upload) Scenario.idle in
  ((exists r, fst answered = App.Returned (OCRService.outcome "/tmp/tmpk3x9q2ab.pdf" r))
   \/ (exists d, fst answered = App.HTTPException 500 d))
  /\ App.temp_files (snd answered) = [].
Proof.
  exact (file_mode_labels_with_temporary_path Scenario.sdk Scenario.disk_with_upload
           Scenario.temp_dir Scenario.starlette_text
           {| App.process_type := App.FILE; App.url := None; App.include_images := false |}
           Scenario.upload "/tmp/tmpk3x9q2ab.pdf" Scenario.idle
           eq_refl eq_refl eq_refl (fun H => H) eq_refl eq_refl).
Defined.

Lemma upload_extension_decides_support_witness :
  OCRConstants.is_supported_file "scan.PDF" = true
  /\ Pathlib.suffix ".pdf" = ""
  /\ OCRConstants.is_supported_file ("/tmp/tmpk3x9q2ab" ++ Pathlib.suffix ".pdf") = false.
Proof.
  pose proof (upload_extension_decides_support "/tmp/tmpk3x9q2ab" "scan.PDF"
                eq_refl eq_refl) as [H _].
  pose proof (upload_extension_decides_support "/tmp/tmpk3x9q2ab" ".pdf"
                eq_refl eq_refl) as [_ [_ H']].
  split; [apply H; reflexivity|]. split; [reflexivity|].
  apply H'. left. reflexivity.
Defined.

Lemma unsupported_upload_is_answered_500_witness :
  App.process_document
    (OCRService.process_documents Scenario.disk_with_upload
       (MistralClient.client Scenario.sdk))
    Scenario.temp_dir Scenario.starlette_text
    {| App.process_type := App.FILE; App.url := None; App.include_images := false |}
    (Some Scenario.text_upload) Scenario.idle =
    (App.HTTPException 500 "Unsupported file type (Path: /tmp/tmpk3x9q2ab.txt)",
     Scenario.idle).
Proof.
  exact (unsupported_upload_is_answered_500 Scenario.sdk Scenario.disk_with_upload
           Scenario.temp_dir Scenario.starlette_text
           {| App.process_type := App.FILE; App.url := None; App.include_images := false |}
           Scenario.text_upload "/tmp/tmpk3x9q2ab" Scenario.idle
           eq_refl eq_refl eq_refl eq_refl eq_refl eq_refl (fun H => H) eq_refl eq_refl).
Defined.

End FurtherScenarios.
